(** * UBC-insight: the query engine of InsightFacade

    A shallow embedding of [src/controller/InsightFacade.ts]: the dataset
    registry ([addDataset]), the recursive filter interpreter
    ([findCourses], [filterCourses]), the projector ([selectColumns]), the
    sorter ([compareResults], [rule]) and the orchestrator
    ([performQuery]), followed by the properties the specification states
    about them.  [listDatasets], the helpers of
    [src/scheduler/Scheduler.ts] that do not go through the time table
    ([findBestRoomPlans], [hasConflict], [canFitIn], [secSize]) and what
    the handlers of [src/rest/Server.ts] compute ([getStatic],
    [deleteDataset]) are embedded as well; the last part of the file holds
    properties of the code that the specification does not state.

    Conventions.
    - A query arrives as a parsed JSON document; [jsval] is the type of such
      documents, with [Undefined] added for the result of reading a
      property that is not there.
    - A promise is modelled by its settlement: [Ok v] for a resolved
      promise, [Err e] for a rejected one (or for an exception that leaves
      the function).
    - A [Set<number>] is a duplicate-free list in insertion order, the order
      in which JavaScript iterates a set.
    - Strings are sequences of 8-bit characters, the strings of the host
      whose UTF-16 code units are below 256; [charCodeAt] is the
      character's code.  The comparison of two strings by the sorter is
      also given on all sequences of code units ([rule_units]).
    - Numbers are the rationals that finite doubles denote.
    - What the JavaScript host supplies (number formatting and parsing, the
      regular-expression engine beyond the fragment the code needs) is a
      parameter, [Host]. *)

From Stdlib Require Import QArith.
From Stdlib Require Import ZArith Arith Bool List Ascii String Lia.
From Stdlib Require Import DecimalString Permutation Sorted.
Import ListNotations.

Set Warnings "-register-all".
Local Open Scope Z_scope.
Local Open Scope nat_scope.
Local Open Scope list_scope.
Local Open Scope string_scope.

(* ================================================================== *)
(** ** Errors and settled promises *)

(** The error classes of [IInsightFacade], and the two native exceptions
    the code can provoke.  The message of a native exception is the host's;
    the texts used below stand for it. *)
Inductive error : Type :=
| InsightError (message : string)
| NotFoundError (message : string)
| ResultTooLargeError
| TypeError (message : string)
| SyntaxError (message : string).

(** [err.message] *)
Definition message (e : error) : string :=
  match e with
  | InsightError m | NotFoundError m | TypeError m | SyntaxError m => m
  | ResultTooLargeError => ""
  end.

Inductive result (A : Type) : Type :=
| Ok (value : A)
| Err (reason : error).
Arguments Ok {A} value.
Arguments Err {A} reason.

Definition bind {A B : Type} (r : result A) (k : A -> result B) : result B :=
  match r with
  | Ok a => k a
  | Err e => Err e
  end.

Notation "x <- r ;; k" := (bind r (fun x => k))
  (at level 61, r at next level, right associativity).

(** [try { ... } catch (err) { reject(new InsightError(err.message)) }] *)
Definition rethrow {A : Type} (r : result A) : result A :=
  match r with
  | Ok a => Ok a
  | Err e => Err (InsightError (message e))
  end.

(** A loop whose body may throw: the first exception ends it. *)
Fixpoint mapM {A B : Type} (f : A -> result B) (l : list A) : result (list B) :=
  match l with
  | [] => Ok []
  | x :: l' => y <- f x ;; ys <- mapM f l' ;; Ok (y :: ys)
  end.

(* ================================================================== *)
(** ** Strings *)

(** [s.includes(c)] for a one-character [c] *)
Fixpoint includes_char (c : ascii) (s : string) : bool :=
  match s with
  | EmptyString => false
  | String d s' => Ascii.eqb c d || includes_char c s'
  end.

(** [s.split(sep)] for a one-character separator: never empty. *)
Fixpoint split (sep : ascii) (s : string) : list string :=
  match s with
  | EmptyString => [EmptyString]
  | String c s' =>
      if Ascii.eqb c sep then EmptyString :: split sep s'
      else match split sep s' with
           | h :: t => String c h :: t
           | [] => [String c EmptyString]
           end
  end.

(** [parts.join(sep)] *)
Definition join (sep : string) (parts : list string) : string :=
  String.concat sep parts.

(** [s.includes(t)]: [t] occurs in [s]. *)
Fixpoint includes (t s : string) : bool :=
  String.prefix t s ||
  match s with
  | EmptyString => false
  | String _ s' => includes t s'
  end.

(** [s.charCodeAt(i)]; [None] is NaN, the answer outside the string. *)
Definition charCodeAt (s : string) (i : nat) : option nat :=
  option_map nat_of_ascii (String.get i s).

(** The characters of a string, each as a string ([for (const c of s)]). *)
Fixpoint chars (s : string) : list string :=
  match s with
  | EmptyString => []
  | String c s' => String c EmptyString :: chars s'
  end.

(** The property name of index [i]. *)
Definition index_key (i : nat) : string :=
  NilZero.string_of_uint (Nat.to_uint i).

(** The indexed own properties of an array-like. *)
Definition indexed {A : Type} (l : list A) : list (string * A) :=
  combine (map index_key (seq 0 (List.length l))) l.

(** First binding of [k] in an association list. *)
Fixpoint assoc {A : Type} (k : string) (l : list (string * A)) : option A :=
  match l with
  | [] => None
  | (k', v) :: l' => if String.eqb k k' then Some v else assoc k l'
  end.

(** [keys.includes(k)] on an array of strings *)
Definition has_key (k : string) (keys : list string) : bool :=
  existsb (String.eqb k) keys.

(* ================================================================== *)
(** ** Regular expressions

    The two literal patterns of the source and the pattern [filterCourses]
    builds all fall in a small fragment: a sequence of one-character atoms,
    each with an optional quantifier, matched against the whole string
    (every pattern is anchored by [^] and [$], and none has a flag). *)
Module Regex.

Inductive atom : Type :=
| Lit (c : ascii)       (* the character itself *)
| Not (c : ascii)       (* [[^c]] *)
| Dot.                  (* [.]: any character but a line terminator *)

Inductive quant : Type := One | Opt | Star | Plus.

Definition t : Type := list (atom * quant).

Definition line_terminator (c : ascii) : bool :=
  Ascii.eqb c "010" || Ascii.eqb c "013".

Definition accepts (a : atom) (c : ascii) : bool :=
  match a with
  | Lit d => Ascii.eqb c d
  | Not d => negb (Ascii.eqb c d)
  | Dot => negb (line_terminator c)
  end.

(** [repeat a k s]: some number of characters accepted by [a], then [k]. *)
Fixpoint repeat (a : atom) (k : string -> bool) (s : string) : bool :=
  k s ||
  match s with
  | EmptyString => false
  | String c s' => accepts a c && repeat a k s'
  end.

(** [/^re$/.test(s)] *)
Fixpoint test (re : t) (s : string) : bool :=
  match re with
  | [] => match s with EmptyString => true | _ => false end
  | (a, q) :: re' =>
      match q with
      | One =>
          match s with
          | String c s' => accepts a c && test re' s'
          | EmptyString => false
          end
      | Opt =>
          match s with
          | String c s' => (accepts a c && test re' s') || test re' s
          | EmptyString => test re' s
          end
      | Star => repeat a (test re') s
      | Plus =>
          match s with
          | String c s' => accepts a c && repeat a (test re') s'
          | EmptyString => false
          end
      end
  end.

(** [/^[^_]+_[^_]+$/]: a qualified field name *)
Definition qualified_name : t :=
  [(Not "_"%char, Plus); (Lit "_"%char, One); (Not "_"%char, Plus)].

(** [/^\*?[^\*]*\*?$/]: the admissible placements of the wildcard *)
Definition wildcard_shape : t :=
  [(Lit "*"%char, Opt); (Not "*"%char, Star); (Lit "*"%char, Opt)].

(** Characters with a meaning of their own in a pattern's source. *)
Definition syntax_character (c : ascii) : bool :=
  includes_char c "\^$.*+?()[]{}|".

(** The atoms of a source text between its anchors, when it stays in the
    fragment: literal characters and dots, each possibly starred. *)
Fixpoint parse_atoms (src : string) : option t :=
  match src with
  | EmptyString => None
  | String c rest =>
      if Ascii.eqb c "$" then
        match rest with EmptyString => Some [] | _ => None end
      else
        match (if Ascii.eqb c "." then Some Dot
               else if syntax_character c then None else Some (Lit c)) with
        | None => None
        | Some a =>
            match rest with
            | EmptyString => None
            | String d rest' =>
                if Ascii.eqb d "*"
                then option_map (cons (a, Star)) (parse_atoms rest')
                else option_map (cons (a, One)) (parse_atoms rest)
            end
        end
  end.

(** A source text of the form [^ atoms $]. *)
Definition parse (src : string) : option t :=
  match src with
  | String "^" rest => parse_atoms rest
  | _ => None
  end.

End Regex.

(* ================================================================== *)
(** ** Values *)

(** A parsed JSON document, or [undefined]. *)
Inductive jsval : Type :=
| Undefined
| Null
| Bool (b : bool)
| Num (q : Q)
| Str (s : string)
| Arr (elements : list jsval)
| Obj (properties : list (string * jsval)).

(** What the host contributes. *)
Record Host : Type := {
  (** [String(x)] for a number [x] *)
  number_to_string : Q -> string;
  (** [Number(s)] for a string [s]; [None] is NaN *)
  string_to_number : string -> option Q;
  (** [new RegExp(src).test(s)] for a source outside the fragment of
      [Regex.parse]; [None] is the host's SyntaxError *)
  regexp_test : string -> string -> option bool
}.

(** [typeof v] *)
Definition typeof (v : jsval) : string :=
  match v with
  | Undefined => "undefined"
  | Null | Arr _ | Obj _ => "object"
  | Bool _ => "boolean"
  | Num _ => "number"
  | Str _ => "string"
  end.

(** The own enumerable properties of a value, in the order of
    [Object.keys]; [None] where JavaScript has no object to look at. *)
Definition own_properties (v : jsval) : option (list (string * jsval)) :=
  match v with
  | Undefined | Null => None
  | Bool _ | Num _ => Some []
  | Str s => Some (indexed (map Str (chars s)))
  | Arr l => Some (indexed l)
  | Obj l => Some l
  end.

Definition not_an_object : error :=
  TypeError "Cannot convert undefined or null to object".

(** [Object.keys(v)] *)
Definition Object_keys (v : jsval) : result (list string) :=
  match own_properties v with
  | Some l => Ok (map fst l)
  | None => Err not_an_object
  end.

(** [v[k]], for the names the code reads: an own key of [v], or one of
    [OPTIONS], [WHERE], [COLUMNS], [ORDER] and [0], none of which a
    prototype defines. *)
Definition get (v : jsval) (k : string) : result jsval :=
  match own_properties v with
  | Some l => Ok (match assoc k l with Some x => x | None => Undefined end)
  | None => Err (TypeError "Cannot read properties of undefined or null")
  end.

(** Whether [JSON.stringify(v)] contains an opening brace.  The text of a
    number, a boolean or [null] has none. *)
Fixpoint stringify_has_brace (v : jsval) : bool :=
  match v with
  | Undefined | Null | Bool _ | Num _ => false
  | Str s => includes_char "{" s
  | Arr l => existsb stringify_has_brace l
  | Obj _ => true
  end.

(** [v instanceof Array] *)
Definition is_array (v : jsval) : bool :=
  match v with Arr _ => true | _ => false end.

Section WithHost.
Variable host : Host.

(** [String(v)] *)
Fixpoint to_string (v : jsval) : string :=
  match v with
  | Undefined => "undefined"
  | Null => "null"
  | Bool true => "true"
  | Bool false => "false"
  | Num q => number_to_string host q
  | Str s => s
  | Arr l =>
      join "," (map (fun x => match x with
                              | Undefined | Null => ""
                              | _ => to_string x
                              end) l)
  | Obj _ => "[object Object]"
  end.

(** [new RegExp(src).test(s)] *)
Definition RegExp_test (src s : string) : result bool :=
  match Regex.parse src with
  | Some re => Ok (Regex.test re s)
  | None =>
      match regexp_test host src s with
      | Some b => Ok b
      | None => Err (SyntaxError "Invalid regular expression")
      end
  end.

End WithHost.

(* ================================================================== *)
(** ** Records, rows and index sets *)

(** A field of a record holds a string or a number. *)
Inductive scalar : Type :=
| SStr (s : string)
| SNum (q : Q).

(** A record of a dataset, and a row of a result: an object whose
    properties are scalars, in insertion order. *)
Definition record : Type := list (string * scalar).

(** [Object.keys(r)] *)
Definition record_keys (r : record) : list string := map fst r.

(** [r[k]]; [None] is [undefined]. *)
Definition field (r : record) (k : string) : option scalar := assoc k r.

(** [r[k] = v]: an existing property keeps its place. *)
Fixpoint set_field (r : record) (k : string) (v : scalar) : record :=
  match r with
  | [] => [(k, v)]
  | (k', v') :: r' =>
      if String.eqb k k' then (k, v) :: r' else (k', v') :: set_field r' k v
  end.

Definition Qlt_bool (x y : Q) : bool := negb (Qle_bool y x).

(** Modelled from the spec: [SetUtils] (imported from [../SetUtils], not
    among the sources).  The specification names its four operations by
    what they compute: the union and the intersection of a sequence of index
    sets, the complement of a set against the full index universe, and the
    members of a set that satisfy a predicate. *)
Module SetUtils.

Definition mem (x : nat) (s : list nat) : bool := existsb (Nat.eqb x) s.

Definition add (s : list nat) (x : nat) : list nat :=
  if mem x s then s else s ++ [x].

Definition union (sets : list (list nat)) : list nat :=
  fold_left (fun acc s => fold_left add s acc) sets [].

Definition intersecion (sets : list (list nat)) : list nat :=
  match sets with
  | [] => []
  | s :: rest => filter (fun x => forallb (mem x) rest) s
  end.

Definition complementary (s all : list nat) : list nat :=
  filter (fun x => negb (mem x s)) all.

(** The predicate may throw; the first exception ends the scan. *)
Fixpoint setFilter (s : list nat) (f : nat -> result bool) : result (list nat) :=
  match s with
  | [] => Ok []
  | x :: s' =>
      b <- f x ;;
      rest <- setFilter s' f ;;
      Ok (if b then x :: rest else rest)
  end.

End SetUtils.

(** Modelled from the spec: [Datasets] (imported from [../model/Datasets],
    not among the sources).  The specification's Dataset Store: named
    datasets, each an ordered sequence of records, no two under one id;
    [get] and [remove] fail with [NotFoundError] on an absent id. *)
Module Datasets.

Definition t : Type := list (string * list record).

Definition empty : t := [].

Definition containsDataset (d : t) (id : string) : bool :=
  has_key id (map fst d).

Definition getDataset (d : t) (id : string) : result (list record) :=
  match assoc id d with
  | Some records => Ok records
  | None => Err (NotFoundError "Dataset not found")
  end.

Definition addDataset (d : t) (id : string) (records : list record) : t :=
  (d ++ [(id, records)])%list.

Definition removeDataset (d : t) (id : string) : result t :=
  if containsDataset d id
  then Ok (filter (fun e => negb (String.eqb id (fst e))) d)
  else Err (NotFoundError "Dataset not found").

Definition getIds (d : t) : list string := map fst d.

End Datasets.

(** [InsightDatasetKind] *)
Inductive InsightDatasetKind : Type := Courses | Rooms.

Definition kind_eqb (a b : InsightDatasetKind) : bool :=
  match a, b with
  | Courses, Courses | Rooms, Rooms => true
  | _, _ => false
  end.

(* ================================================================== *)
(** ** Sorting

    [Array.prototype.sort(compare)] is the host's.  It is modelled as a
    stable insertion sort: ECMAScript requires stability, and leaves the
    outcome open only for a comparator that is not a consistent ordering, so
    for a consistent one every conforming host returns this array.  An
    exception of the comparator leaves the sort. *)
Section Sort.
Context {A : Type}.
Variable compare : A -> A -> result Z.

Fixpoint insert (x : A) (l : list A) : result (list A) :=
  match l with
  | [] => Ok [x]
  | y :: l' =>
      c <- compare x y ;;
      if (c <=? 0)%Z then Ok (x :: l)
      else r <- insert x l' ;; Ok (y :: r)
  end.

Fixpoint sort (l : list A) : result (list A) :=
  match l with
  | [] => Ok []
  | x :: l' => s <- sort l' ;; insert x s
  end.

End Sort.

(** [InsightDataset], an entry of [listDatasets]. *)
Module InsightDataset.
Record t : Type := {
  id : string;
  kind : InsightDatasetKind;
  numRows : nat
}.
End InsightDataset.

(* ================================================================== *)
(** ** InsightFacade *)
Section InsightFacade.

Variable host : Host.

(** The ingestion collaborator ([JSZip.loadAsync] followed by
    [DataUtils.extractZip]): the course lists of an archive, each entry
    with the record [DataUtils.convertData] makes of it, or [None] where
    the conversion throws. *)
Variable extract : string -> result (list (list (option record))).

(** [this.datasets], as the operation finds it. *)
Variable datasets : Datasets.t.

Fixpoint has_non_space (id : string) : bool :=
  match id with
  | EmptyString => false
  | String c id' => if negb (Ascii.eqb c " ") then true else has_non_space id'
  end.

Definition isIdValid (id : jsval) : bool :=
  match id with
  | Str s => if includes_char "_" s then false else has_non_space s
  | _ => false
  end.

(** [try { for (const result of courseList) temp.push(convertData(result)) }
    catch (err) { continue; }] *)
Fixpoint convertList (courseList : list (option record)) : option (list record) :=
  match courseList with
  | [] => Some []
  | None :: _ => None
  | Some r :: rest => option_map (cons r) (convertList rest)
  end.

(** The settlement of the promise, and the registry afterwards. *)
Definition addDataset (id content : string) (kind : InsightDatasetKind)
  : result (list string) * Datasets.t :=
  if negb (isIdValid (Str id)) then
    (Err (InsightError "Field id format not valid"), datasets)
  else if Datasets.containsDataset datasets id then
    (Err (InsightError "Cannot add with duplicated id"), datasets)
  else if negb (kind_eqb kind Courses) then
    (Err (InsightError "Invalid or not implemented dataset kind"), datasets)
  else
    match extract content with
    | Err e => (Err (InsightError (message e)), datasets)
    | Ok courseLists =>
        let dataset :=
          flat_map (fun courseList =>
                      match convertList courseList with
                      | Some temp => temp
                      | None => []
                      end) courseLists in
        if (List.length dataset =? 0)%nat then
          (Err (InsightError "The zip must contain at least one course"), datasets)
        else
          let datasets' := Datasets.addDataset datasets id dataset in
          (Ok (Datasets.getIds datasets'), datasets')
    end.

Definition removeDataset (id : string) : result string * Datasets.t :=
  if negb (isIdValid (Str id)) then
    (Err (InsightError "Id format not right"), datasets)
  else
    match Datasets.removeDataset datasets id with
    | Ok datasets' => (Ok id, datasets')
    | Err e => (Err e, datasets)
    end.

(** *** Comparisons of [filterCourses] *)

(** [typeof r[k]] *)
Definition typeof_field (v : option scalar) : string :=
  match v with
  | None => "undefined"
  | Some (SStr _) => "string"
  | Some (SNum _) => "number"
  end.

(** [String(r[k])] *)
Definition field_to_string (v : option scalar) : string :=
  match v with
  | None => "undefined"
  | Some (SStr s) => s
  | Some (SNum q) => number_to_string host q
  end.

(** [Number(r[k])]; [None] is NaN. *)
Definition field_to_number (v : option scalar) : option Q :=
  match v with
  | None => None
  | Some (SStr s) => string_to_number host s
  | Some (SNum q) => Some q
  end.

(** The four entries of [mapping].  Each function runs after [typeof value]
    has been checked against the entry's type; the other values are not
    reached. *)
Definition IS (a : option scalar) (regex : jsval) : result bool :=
  match regex with
  | Str regex =>
      if negb (includes_char "*" regex) then
        Ok (match a with Some (SStr s) => String.eqb s regex | _ => false end)
      else if negb (Regex.test Regex.wildcard_shape regex) then
        Err (InsightError "Invalid regex filter value")
      else
        RegExp_test host ("^" ++ join ".*" (split "*" regex) ++ "$")
                    (field_to_string a)
  | _ => Err (TypeError "regex.includes is not a function")
  end.

Definition EQ (a : option scalar) (b : jsval) : result bool :=
  Ok (match a, b with
      | Some (SNum x), Num y => Qeq_bool x y
      | _, _ => false
      end).

Definition LT (a : option scalar) (b : jsval) : result bool :=
  Ok (match field_to_number a, b with
      | Some x, Num y => Qlt_bool x y
      | _, _ => false
      end).

Definition GT (a : option scalar) (b : jsval) : result bool :=
  Ok (match field_to_number a, b with
      | Some x, Num y => Qlt_bool y x
      | _, _ => false
      end).

Definition mapping (comparator : string)
  : option (string * (option scalar -> jsval -> result bool)) :=
  if comparator =? "IS" then Some ("string", IS)
  else if comparator =? "EQ" then Some ("number", EQ)
  else if comparator =? "LT" then Some ("number", LT)
  else if comparator =? "GT" then Some ("number", GT)
  else None.

(** [dataset[i]]; reading a property of [undefined] throws. *)
Definition record_at (dataset : list record) (i : nat) : result record :=
  match nth_error dataset i with
  | Some r => Ok r
  | None => Err not_an_object
  end.

(** One round of the loop of [listDatasets].  The kind is read off the
    first record: [Courses] when it has a [dept], [Rooms] otherwise. *)
Definition describeDataset (id : string) : result InsightDataset.t :=
  dataset <- Datasets.getDataset datasets id ;;
  first <- record_at dataset 0 ;;
  let datasetKind :=
    if has_key "dept" (record_keys first) then Courses else Rooms in
  dataset <- Datasets.getDataset datasets id ;;
  Ok {| InsightDataset.id := id;
        InsightDataset.kind := datasetKind;
        InsightDataset.numRows := List.length dataset |}.

Definition listDatasets : result (list InsightDataset.t) :=
  mapM describeDataset (Datasets.getIds datasets).

Definition filterCourses (dataset : list record) (allCourses : list nat)
    (key : string) (value : jsval) (comparator : string) : result (list nat) :=
  first <- record_at dataset 0 ;;
  if negb (has_key key (record_keys first)) then
    Err (InsightError "Key in filter content not found in dataset")
  else
    match mapping comparator with
    | Some (type, f) =>
        if negb (typeof value =? type) then
          Err (InsightError "Filter content type not valid")
        else if negb (typeof_field (field first key) =? type) then
          Err (InsightError "Filter content type not match")
        else
          SetUtils.setFilter allCourses
            (fun course => r <- record_at dataset course ;; f (field r key) value)
    | None => Err (InsightError "Invalid comparator")
    end.

(** [s.split("_")[i]] of a key that matched the qualified-name pattern, or
    of the first column with [i = 0]: the part is there. *)
Definition part (i : nat) (s : string) : string := nth i (split "_" s) "".

(** The branch of [findCourses] for a comparison. *)
Definition compareCourses (dataset : list record) (allCourses : list nat)
    (comparator : string) (filterContent : jsval) (id : string)
  : result (list nat) :=
  contentKeys <- Object_keys filterContent ;;
  if negb (List.length contentKeys =? 1)%nat then
    Err (InsightError "Filter content should have one and only one key")
  else
    let contentKey := nth 0 contentKeys "" in
    contentValue <- get filterContent contentKey ;;
    if negb (Regex.test Regex.qualified_name contentKey) then
      Err (InsightError "Invalid key format in filter content")
    else if negb (part 0 contentKey =? id) then
      Err (InsightError "Cannot query from two datasets")
    else
      filterCourses dataset allCourses (part 1 contentKey) contentValue comparator.

(** [findCourses].  [filter[comparator]] is read by matching on [filter],
    which shows the recursion to be structural: [comparator] is the only
    key of [filter], so the property read is the first one
    ([sole_property_get]). *)
Fixpoint findCourses (filter : jsval) (id : string) {struct filter}
  : result (list nat) :=
  dataset <- Datasets.getDataset datasets id ;;
  let allCourses := seq 0 (List.length dataset) in
  keys <- Object_keys filter ;;
  if (List.length keys =? 0)%nat then
    if negb (stringify_has_brace filter) then
      Err (InsightError "WHERE must be an object")
    else Ok allCourses
  else if (1 <? List.length keys)%nat then
    Err (InsightError "There cannot be more than one object in filter")
  else
    let comparator := nth 0 keys "" in
    match filter with
    | Obj ((_, Arr subFilters) :: _) | Arr (Arr subFilters :: _) =>
        subSets <- (fix each (l : list jsval) : result (list (list nat)) :=
                      match l with
                      | [] => Ok []
                      | subFilter :: l' =>
                          s <- findCourses subFilter id ;;
                          ss <- each l' ;;
                          Ok (s :: ss)
                      end) subFilters ;;
        if (List.length subSets =? 0)%nat then
          Err (InsightError "AND and OR must have at least one element")
        else if comparator =? "OR" then Ok (SetUtils.union subSets)
        else if comparator =? "AND" then Ok (SetUtils.intersecion subSets)
        else Err (InsightError "Invalid comparator when finding courses")
    | Obj ((_, filterContent) :: _) | Arr (filterContent :: _) =>
        if comparator =? "NOT" then
          s <- findCourses filterContent id ;;
          Ok (SetUtils.complementary s allCourses)
        else compareCourses dataset allCourses comparator filterContent id
    | Str _ =>
        (* a one-character string is its own property 0 *)
        compareCourses dataset allCourses comparator filter id
    | _ =>
        (* not reached: these values have no key *)
        Err (InsightError "Invalid comparator when finding courses")
    end.

(** [for (const x of v)] *)
Definition iterate (v : jsval) : result (list jsval) :=
  match v with
  | Arr l => Ok l
  | Str s => Ok (map Str (chars s))
  | _ => Err (TypeError "columns is not iterable")
  end.

(** [column.split("_")[i]] *)
Definition column_part (i : nat) (column : jsval) : result string :=
  match column with
  | Str s => Ok (part i s)
  | _ => Err (TypeError "column.split is not a function")
  end.

(** The first loop of [selectColumns]. *)
Definition checkColumn (id : string) (column : jsval) : result unit :=
  if negb (Regex.test Regex.qualified_name (to_string host column)) then
    Err (InsightError "Invalid key format in columns")
  else
    p <- column_part 0 column ;;
    if negb (p =? id) then Err (InsightError "Cannot query from two datasets")
    else Ok tt.

(** The inner loop of [selectColumns]: one row, the [result] of the source. *)
Fixpoint selectRow (id : string) (course : nat) (columns : list jsval)
    (row : record) : result record :=
  match columns with
  | [] => Ok row
  | column :: columns' =>
      dataset <- Datasets.getDataset datasets id ;;
      r <- record_at dataset course ;;
      k <- column_part 1 column ;;
      match field r k with
      | Some v => selectRow id course columns' (set_field row (to_string host column) v)
      | None =>
          Err (InsightError ("Key in columns not exists in dataset: "
                             ++ to_string host column))
      end
  end.

Definition selectColumns (courseSet : list nat) (columns : jsval) (id : string)
  : result (list record) :=
  cols <- iterate columns ;;
  _ <- mapM (checkColumn id) cols ;;
  mapM (fun course => selectRow id course cols []) courseSet.

(** [for (let i = ...; i < ...; i++)] of [rule], with [n] rounds to go. *)
Fixpoint rule_loop (a b : string) (i n : nat) : option Z :=
  match n with
  | 0 => None
  | S n' =>
      match charCodeAt a i, charCodeAt b i with
      | Some x, Some y =>
          if negb (x =? y)%nat then Some (if (y <? x)%nat then 1 else -1)%Z
          else rule_loop a b (S i) n'
      | _, _ => Some (-1)%Z   (* NaN differs from everything and exceeds nothing *)
      end
  end.

Definition rule (a b : option scalar) : result Z :=
  match a with
  | Some (SStr a) =>
      match b with
      | Some (SStr b) =>
          match rule_loop a b 0 (Nat.min (String.length a) (String.length b)) with
          | Some r => Ok r
          | None =>
              if (String.length a =? String.length b)%nat then Ok 0%Z
              else Ok (if (String.length b <? String.length a)%nat then 1 else -1)%Z
          end
      | Some (SNum _) =>
          (* [b.length] is undefined: no round of the loop, and neither
             comparison of the lengths holds *)
          Ok (-1)%Z
      | None => Err (TypeError "Cannot read properties of undefined")
      end
  | _ =>
      match a, b with
      | None, None => Ok 0%Z
      | Some (SNum x), Some (SNum y) =>
          if Qeq_bool x y then Ok 0%Z else Ok (if Qlt_bool y x then 1 else -1)%Z
      | _, _ =>
          Ok (match field_to_number a, field_to_number b with
              | Some x, Some y => if Qlt_bool y x then 1 else -1
              | _, _ => -1
              end)%Z
      end
  end.

Definition compareResults (a b : record) (options : jsval) : result Z :=
  order <- get options "ORDER" ;;
  rule (field a (to_string host order)) (field b (to_string host order)).

(** [x === y] for the elements of two parsed documents: no two arrays or
    objects of a document are the same object. *)
Definition same_value (x y : jsval) : bool :=
  match x, y with
  | Undefined, Undefined | Null, Null => true
  | Bool a, Bool b => Bool.eqb a b
  | Num a, Num b => Qeq_bool a b
  | Str a, Str b => String.eqb a b
  | _, _ => false
  end.

(** [columns.includes(x)] *)
Definition columns_include (columns x : jsval) : result bool :=
  match columns with
  | Arr l => Ok (existsb (same_value x) l)
  | Str s => Ok (includes (to_string host x) s)
  | _ => Err (TypeError "includes is not a function")
  end.

(** The block of [performQuery] under [// sort the columns]: the key set of
    [OPTIONS] is checked, and the rows are sorted when [ORDER] is there. *)
Definition orderResults (options columns : jsval) (results : list record)
  : result (list record) :=
  optionKeys <- rethrow (Object_keys options) ;;
  if has_key "ORDER" optionKeys then
    if (2 <? List.length optionKeys)%nat then
      Err (InsightError "Invalid key in column")
    else
      order <- rethrow (get options "ORDER") ;;
      listed <- rethrow (columns_include columns order) ;;
      if negb listed then
        Err (InsightError "Value of ORDER not exists in COLUMNS")
      else
        rethrow (sort (fun a b => compareResults a b options) results)
  else if (1 <? List.length optionKeys)%nat then
    Err (InsightError "Invalid key in column")
  else Ok results.

(** The most rows a query may return ([results.length > 5000]). *)
Definition cap : nat := 5000.

Definition performQuery (query : jsval) : result (list record) :=
  queryKeys <- Object_keys query ;;
  if negb (List.length queryKeys =? 2)%nat || negb (has_key "OPTIONS" queryKeys)
     || negb (has_key "WHERE" queryKeys) then
    Err (InsightError "JSON has more keys than excepted")
  else
    options <- rethrow (get query "OPTIONS") ;;
    columns <- rethrow (get options "COLUMNS") ;;
    column0 <- rethrow (get columns "0") ;;
    id <- rethrow (column_part 0 column0) ;;
    if negb (Datasets.containsDataset datasets id) then
      Err (InsightError "Dataset not exists")
    else
      where_ <- rethrow (get query "WHERE") ;;
      courseSet <- rethrow (findCourses where_ id) ;;
      results <- selectColumns courseSet columns id ;;
      results <- orderResults options columns results ;;
      if (cap <? List.length results)%nat then Err ResultTooLargeError
      else Ok results.

End InsightFacade.

Arguments cap : simpl never.

(* ================================================================== *)
(** ** The comparator on UTF-16 code units

    A string of the host is a sequence of UTF-16 code units, and
    [charCodeAt] reads one of them.  The strings of this file are those
    whose code units are below 256.  The branch of [rule] for strings
    (lines 266 to 276) is given here on all sequences of code units; on
    the strings of the file it is [rule] itself ([rule_on_code_units]). *)

(** The code units of a string of the file. *)
Definition code_units (s : string) : list N :=
  map N_of_ascii (list_ascii_of_string s).

(** [s.charCodeAt(i)]; [None] is NaN, the answer outside the string. *)
Definition unit_at (s : list N) (i : nat) : option N := nth_error s i.

(** [for (let i = 0; i < Math.min(a.length, b.length); i ++)], with [n]
    rounds left. *)
Fixpoint rule_units_loop (a b : list N) (i n : nat) : option Z :=
  match n with
  | 0 => None
  | S n' =>
      match unit_at a i, unit_at b i with
      | Some x, Some y =>
          if negb (x =? y)%N then Some (if (y <? x)%N then 1 else -1)%Z
          else rule_units_loop a b (S i) n'
      | _, _ => Some (-1)%Z
      end
  end.

Definition rule_units (a b : list N) : Z :=
  match rule_units_loop a b 0 (Nat.min (List.length a) (List.length b)) with
  | Some r => r
  | None =>
      if (List.length a =? List.length b)%nat then 0%Z
      else if (List.length b <? List.length a)%nat then 1%Z else (-1)%Z
  end.

(* ================================================================== *)
(** ** Sorting with a comparator that does not throw *)

(** [sort] where the comparator is a plain function. *)
Section StableSort.
Context {A : Type}.
Variable compare : A -> A -> Z.

Fixpoint insert_by (x : A) (l : list A) : list A :=
  match l with
  | [] => [x]
  | y :: l' => if (compare x y <=? 0)%Z then x :: l else y :: insert_by x l'
  end.

Fixpoint sort_by (l : list A) : list A :=
  match l with
  | [] => []
  | x :: l' => insert_by x (sort_by l')
  end.

End StableSort.

(* ================================================================== *)
(** ** Scheduler

    [src/scheduler/Scheduler.ts]: the helpers that do not go through
    [TimeTable] and [ScoreCalculator].  The interfaces of [IScheduler] are
    not among the sources; the records below have the fields the code
    reads. *)
Module Scheduler.

(** The numbers of the host, which are the doubles: [NaN], the two
    infinities, and the finite ones, each by the rational it denotes (the
    two zeros, which no comparison tells apart, are one). *)
Inductive number : Type :=
| NaN
| Infinity (positive : bool)
| Finite (q : Q).

(** [a <= b] *)
Definition number_le (a b : number) : bool :=
  match a, b with
  | NaN, _ | _, NaN => false
  | Infinity false, _ => true
  | _, Infinity true => true
  | Finite x, Finite y => Qle_bool x y
  | _, _ => false
  end.

(** [a > b] *)
Definition number_gt (a b : number) : bool :=
  match a, b with
  | NaN, _ | _, NaN => false
  | _, _ => negb (number_le a b)
  end.

(** [a === b] *)
Definition number_eq (a b : number) : bool :=
  match a, b with
  | Finite x, Finite y => Qeq_bool x y
  | Infinity s, Infinity t => Bool.eqb s t
  | _, _ => false
  end.

Record SchedSection : Type := {
  courses_dept : string;
  courses_id : string;
  courses_pass : number;
  courses_fail : number;
  courses_audit : number
}.

Record SchedRoom : Type := {
  rooms_shortname : string;
  rooms_number : string;
  rooms_seats : number
}.

(** A time slot is one of the strings of [TimeSlot]. *)
Definition TimeSlot : Type := string.

(** [Plan]; a slot read past the end of [table._timeSlots] is
    [undefined], here [None]. *)
Record Plan : Type := {
  room : SchedRoom;
  section : SchedSection;
  slot : option TimeSlot
}.

Section Arithmetic.

(** [a + b] of the host: the sum of two doubles, rounded to a double. *)
Variable add : number -> number -> number.

Definition secSize (sec : SchedSection) : number :=
  add (add (courses_pass sec) (courses_fail sec)) (courses_audit sec).

Definition canFitIn (room : SchedRoom) (sec : SchedSection) : bool :=
  number_le (rooms_seats room) (secSize sec).

(** The comparator of [findBestRoomPlans]. *)
Definition bySize (a b : SchedSection) : Z :=
  if number_eq (secSize a) (secSize b) then 0%Z
  else if number_gt (secSize a) (secSize b) then 1%Z else (-1)%Z.

(** [.map((sec) => ({room, section: sec, slot: table._timeSlots[count ++]}))] *)
Fixpoint assignSlots (timeSlots : list TimeSlot) (room : SchedRoom)
    (count : nat) (secs : list SchedSection) : list Plan :=
  match secs with
  | [] => []
  | sec :: secs' =>
      {| room := room; section := sec; slot := nth_error timeSlots count |}
      :: assignSlots timeSlots room (S count) secs'
  end.

(** [findBestRoomPlans(table, room, secChoices)], with what it reads of the
    table as parameters: [slotSize] is [table.slotSize()] and [timeSlots]
    is [table._timeSlots]. *)
Definition findBestRoomPlans (slotSize : nat) (timeSlots : list TimeSlot)
    (room : SchedRoom) (secChoices : list SchedSection) : list Plan :=
  assignSlots timeSlots room 0
    (firstn slotSize
       (filter (fun sec => negb (canFitIn room sec))
          (sort_by bySize secChoices))).

End Arithmetic.

Definition same_slot (a b : option TimeSlot) : bool :=
  match a, b with
  | Some x, Some y => String.eqb x y
  | None, None => true
  | _, _ => false
  end.

(** The test in the loops of [hasConflict]. *)
Definition clash (p1 p2 : Plan) : bool :=
  same_slot (slot p1) (slot p2)
  && String.eqb (courses_dept (section p1)) (courses_dept (section p2))
  && String.eqb (courses_id (section p1)) (courses_id (section p2)).

(** The inner loop of [hasConflict]: [false] is the early return. *)
Fixpoint hasConflict_inner (p1 : Plan) (plans2 : list Plan) : bool :=
  match plans2 with
  | [] => true
  | p2 :: rest => if clash p1 p2 then false else hasConflict_inner p1 rest
  end.

(** [hasConflict(table, r1, r2)], on [table.getPlansByRoom(r1)] and
    [table.getPlansByRoom(r2)]. *)
Fixpoint hasConflict (plans1 plans2 : list Plan) : bool :=
  match plans1 with
  | [] => true
  | p1 :: rest =>
      if hasConflict_inner p1 plans2 then hasConflict rest plans2 else false
  end.

End Scheduler.

(* ================================================================== *)
(** ** Server

    [src/rest/Server.ts]: what the handlers compute between the request
    and the response. *)
Module Server.

(** [publicDir] of [getStatic]. *)
Definition publicDir : string := "frontend/public/".

(** [parts.pop()] of a non-empty array. *)
Definition pop (parts : list string) : string := List.last parts "".

(** The path [getStatic] reads for the request of [url]. *)
Definition staticPath (url : string) : string :=
  if negb (url =? "/") then (publicDir ++ pop (split "/" url))%string
  else (publicDir ++ "index.html")%string.

(** A response: [res.json(status, {result: value})] or
    [res.json(status, {error: text})]. *)
Definition response (A : Type) : Type := nat * (A + string).

Section Handlers.
(** [err.toString()] *)
Variable toString : error -> string.

(** [putDataset] and [postQuery], from the settlement of the facade's
    promise. *)
Definition respond {A : Type} (settled : result A) : response A :=
  match settled with
  | Ok value => (200, inl value)
  | Err err => (400, inr (toString err))
  end.

(** [deleteDataset]: [err instanceof NotFoundError] answers 404. *)
Definition respondDelete (settled : result string) : response string :=
  match settled with
  | Ok value => (200, inl value)
  | Err err =>
      match err with
      | NotFoundError _ => (404, inr (toString err))
      | _ => (400, inr (toString err))
      end
  end.

End Handlers.

End Server.

(* ================================================================== *)
(** * Vocabulary of the properties *)

Local Open Scope list_scope.

(** Evaluation of the operands of [AND] and [OR], in order. *)
Definition evaluateAll (host : Host) (datasets : Datasets.t) (id : string)
    (ops : list jsval) : result (list (list nat)) :=
  mapM (fun f => findCourses host datasets f id) ops.

(** The first steps of [performQuery] succeed on [query]: it has the two
    keys [WHERE] and [OPTIONS], and the first entry of [OPTIONS.COLUMNS]
    is a string whose part before the underscore, [id], names a loaded
    dataset. *)
Definition resolves (datasets : Datasets.t)
    (query where_ options columns : jsval) (id : string) : Prop :=
  (exists keys, Object_keys query = Ok keys /\ List.length keys = 2 /\
                has_key "OPTIONS" keys = true /\ has_key "WHERE" keys = true) /\
  get query "WHERE" = Ok where_ /\
  get query "OPTIONS" = Ok options /\
  get options "COLUMNS" = Ok columns /\
  (exists column0, get columns "0" = Ok (Str column0) /\ part 0 column0 = id) /\
  Datasets.containsDataset datasets id = true.

(** The order of the specification: strings by the sequence of their
    character codes, a proper prefix first. *)
Inductive lex_le : string -> string -> Prop :=
| lex_prefix (t : string) : lex_le EmptyString t
| lex_less (c d : ascii) (s t : string) :
    nat_of_ascii c < nat_of_ascii d -> lex_le (String c s) (String d t)
| lex_same (c : ascii) (s t : string) :
    lex_le s t -> lex_le (String c s) (String c t).

(** Values of one column in ascending order: numbers by magnitude, strings
    by [lex_le]. *)
Definition ascending (a b : option scalar) : Prop :=
  match a, b with
  | Some (SNum x), Some (SNum y) => (x <= y)%Q
  | Some (SStr s), Some (SStr t) => lex_le s t
  | _, _ => False
  end.

Definition holds_string (order : string) (row : record) : Prop :=
  exists s, field row order = Some (SStr s).

Definition holds_number (order : string) (row : record) : Prop :=
  exists q, field row order = Some (SNum q).

(** The order of the code: sequences of code units by their first
    difference, a proper prefix first. *)
Inductive units_le : list N -> list N -> Prop :=
| units_prefix (t : list N) : units_le [] t
| units_less (x y : N) (s t : list N) :
    (x < y)%N -> units_le (x :: s) (y :: t)
| units_same (x : N) (s t : list N) :
    units_le s t -> units_le (x :: s) (x :: t).

(** The code points of a sequence of code units: a high surrogate followed
    by a low one stands for one code point above [0xFFFF], every other code
    unit for itself. *)
Definition high_surrogate (u : N) : bool := (55296 <=? u)%N && (u <=? 56319)%N.

Definition low_surrogate (u : N) : bool := (56320 <=? u)%N && (u <=? 57343)%N.

Fixpoint code_points (s : list N) : list N :=
  match s with
  | [] => []
  | u :: rest =>
      match rest with
      | v :: rest' =>
          if high_surrogate u && low_surrogate v
          then (65536 + (u - 55296) * 1024 + (v - 56320))%N :: code_points rest'
          else u :: code_points rest
      | [] => [u]
      end
  end.

(** The order of the specification: strings by the sequence of their code
    points. *)
Definition points_le (a b : list N) : Prop :=
  units_le (code_points a) (code_points b).

(** [id] is made of spaces only (or of nothing). *)
Definition only_spaces (id : string) : bool :=
  forallb (Ascii.eqb " ") (list_ascii_of_string id).

(** The specification's rule, "non-empty after trimming": [trim] takes
    tabulations, line ends and spaces off both ends, so nothing is left
    exactly when every character is one of these. *)
Definition white_space (c : ascii) : bool :=
  match nat_of_ascii c with
  | 9 | 10 | 11 | 12 | 13 | 32 | 160 => true
  | _ => false
  end.

Definition blank (id : string) : bool :=
  forallb white_space (list_ascii_of_string id).

(** ** Literal wildcards *)

(** No character of [s] has a meaning in a pattern. *)
Fixpoint plain (s : string) : bool :=
  match s with
  | EmptyString => true
  | String c s' => negb (Regex.syntax_character c) && plain s'
  end.

(** [s] has no line end. *)
Fixpoint one_line (s : string) : bool :=
  match s with
  | EmptyString => true
  | String c s' => negb (Regex.line_terminator c) && one_line s'
  end.

(** [s.endsWith(t)] *)
Fixpoint ends_with (t s : string) : bool :=
  String.eqb s t ||
  match s with
  | EmptyString => false
  | String _ s' => ends_with t s'
  end.

(** The pattern that matches [s] character by character. *)
Fixpoint literally (s : string) : Regex.t :=
  match s with
  | EmptyString => []
  | String c s' => (Regex.Lit c, Regex.One) :: literally s'
  end.

(** ** Sample data *)

(** A host for the examples; none of them formats or parses a number, or
    builds a pattern outside the fragment of [Regex.parse]. *)
Definition plain_host : Host :=
  {| number_to_string := fun _ => "0";
     string_to_number := fun _ => None;
     regexp_test := fun _ _ => None |}.

Definition section (dept : string) (avg : Z) : record :=
  [("dept", SStr dept); ("avg", SNum (inject_Z avg))].

Definition courses : list record :=
  [section "math" 95; section "cxsc" 70; section "cpsc" 90].

Definition loaded : Datasets.t := [("courses", courses)].

Definition options_of (columns : list string) (order : option string) : jsval :=
  Obj (("COLUMNS", Arr (map Str columns)) ::
       match order with Some o => [("ORDER", Str o)] | None => [] end).

Definition query_of (where_ : jsval) (columns : list string)
    (order : option string) : jsval :=
  Obj [("WHERE", where_); ("OPTIONS", options_of columns order)].

Definition comparison (op key : string) (value : jsval) : jsval :=
  Obj [(op, Obj [(key, value)])].

(** The archive reader of the examples: one course list of one section. *)
Definition one_section (content : string)
  : result (list (list (option record))) :=
  Ok [[Some (section "cpsc" 90)]].

(** A tabulation. *)
Definition tab : string := String "009" EmptyString.

(** ["cpsc"], a line feed, ["310"]. *)
Definition two_lines : string := ("cpsc" ++ String "010" "310")%string.

(** The addition of the host where it rounds nothing: on finite numbers
    whose sum is a double. *)
Definition exact_add (a b : Scheduler.number) : Scheduler.number :=
  match a, b with
  | Scheduler.NaN, _ | _, Scheduler.NaN => Scheduler.NaN
  | Scheduler.Finite x, Scheduler.Finite y => Scheduler.Finite (x + y)
  | Scheduler.Infinity s, Scheduler.Infinity t =>
      if Bool.eqb s t then Scheduler.Infinity s else Scheduler.NaN
  | Scheduler.Infinity s, _ | _, Scheduler.Infinity s => Scheduler.Infinity s
  end.

Definition lecture_room (seats : Z) : Scheduler.SchedRoom :=
  {| Scheduler.rooms_shortname := "DMP";
     Scheduler.rooms_number := "110";
     Scheduler.rooms_seats := Scheduler.Finite (inject_Z seats) |}.

Definition enrolled (id : string) (pass fail audit : Z) : Scheduler.SchedSection :=
  {| Scheduler.courses_dept := "cpsc";
     Scheduler.courses_id := id;
     Scheduler.courses_pass := Scheduler.Finite (inject_Z pass);
     Scheduler.courses_fail := Scheduler.Finite (inject_Z fail);
     Scheduler.courses_audit := Scheduler.Finite (inject_Z audit) |}.

(** Four sections, of 120, 40, 100 and 60 students. *)
Definition choices : list Scheduler.SchedSection :=
  [enrolled "110" 110 10 0; enrolled "210" 30 8 2;
   enrolled "310" 90 10 0; enrolled "410" 50 9 1].

(** ** Filters, registries and comparisons *)

(** Induction on a document, with the hypothesis on every element of an
    array and every property of an object. *)
Definition jsval_induction (P : jsval -> Prop)
    (HU : P Undefined) (HN : P Null) (HB : forall b, P (Bool b))
    (HQ : forall q, P (Num q)) (HS : forall s, P (Str s))
    (HA : forall l, Forall P l -> P (Arr l))
    (HO : forall p, Forall (fun kv => P (snd kv)) p -> P (Obj p)) :
  forall v, P v :=
  fix go (v : jsval) : P v :=
    match v with
    | Undefined => HU
    | Null => HN
    | Bool b => HB b
    | Num q => HQ q
    | Str s => HS s
    | Arr l =>
        HA l ((fix all (l : list jsval) : Forall P l :=
                 match l with
                 | [] => Forall_nil P
                 | x :: l' => Forall_cons x (go x) (all l')
                 end) l)
    | Obj p =>
        HO p ((fix all (p : list (string * jsval))
                 : Forall (fun kv => P (snd kv)) p :=
                 match p with
                 | [] => Forall_nil _
                 | kv :: p' => Forall_cons kv (go (snd kv)) (all p')
                 end) p)
    end.

(** The filters of the query language over the dataset [id], as
    [findCourses] reads them. *)
Inductive filter_shape (id : string) : jsval -> Prop :=
| shape_all : filter_shape id (Obj [])
| shape_logic (op : string) (ops : list jsval) :
    op = "AND" \/ op = "OR" ->
    ops <> [] ->
    Forall (filter_shape id) ops ->
    filter_shape id (Obj [(op, Arr ops)])
| shape_not (f : jsval) :
    filter_shape id f -> filter_shape id (Obj [("NOT", f)])
| shape_compare (op key : string) (value : jsval) :
    (op = "IS" /\ typeof value = "string") \/
    ((op = "EQ" \/ op = "LT" \/ op = "GT") /\ typeof value = "number") ->
    Regex.test Regex.qualified_name key = true ->
    part 0 key = id ->
    filter_shape id (Obj [(op, Obj [(key, value)])]).

(** The datasets of a registry that [addDataset] has built are not empty. *)
Definition populated (datasets : Datasets.t) : Prop :=
  Forall (fun entry => snd entry <> []) datasets.

(** The registry [addDataset] and [removeDataset] maintain: distinct valid
    ids, no empty dataset. *)
Definition well_kept (datasets : Datasets.t) : Prop :=
  NoDup (Datasets.getIds datasets) /\
  Forall (fun entry => isIdValid (Str (fst entry)) = true /\ snd entry <> [])
         datasets.

(** The relation a number comparison asks of a stored number [x] and the
    number [v] of the filter. *)
Definition relation_of (comparator : string) (x v : Q) : Prop :=
  (comparator = "EQ" /\ (x == v)%Q) \/
  (comparator = "LT" /\ (x < v)%Q) \/
  (comparator = "GT" /\ (v < x)%Q).

(** An asterisk of [s] that is not its last character. *)
Fixpoint star_before_last (s : string) : bool :=
  match s with
  | EmptyString => false
  | String c s' =>
      match s' with
      | EmptyString => false
      | String _ _ => Ascii.eqb c "*" || star_before_last s'
      end
  end.

(* ================================================================== *)
(** * Lemmas *)


(** ** The error monad *)

Lemma bind_Ok {A B : Type} (r : result A) (k : A -> result B) (b : B) :
  bind r k = Ok b -> exists a, r = Ok a /\ k a = Ok b.
Proof. destruct r as [a|e]; simpl; [eauto | discriminate]. Qed.

Lemma rethrow_Ok {A : Type} (r : result A) (a : A) :
  rethrow r = Ok a -> r = Ok a.
Proof. destruct r; simpl; congruence. Qed.

Lemma rethrow_Err {A : Type} (r : result A) (e : error) :
  rethrow r = Err e -> exists m, e = InsightError m.
Proof. destruct r; simpl; [discriminate | intros [= <-]; eauto]. Qed.

Lemma mapM_app {A B : Type} (f : A -> result B) (l1 l2 : list A) (r1 r2 : list B) :
  mapM f l1 = Ok r1 -> mapM f l2 = Ok r2 -> mapM f (l1 ++ l2) = Ok (r1 ++ r2).
Proof.
  revert r1; induction l1 as [|x l1 IH]; simpl; intros r1 H1 H2.
  - injection H1 as <-. exact H2.
  - destruct (f x) as [y|]; simpl in *; [|discriminate].
    destruct (mapM f l1) as [ys|]; simpl in *; [|discriminate].
    injection H1 as <-. now rewrite (IH ys eq_refl H2).
Qed.

Lemma mapM_length {A B : Type} (f : A -> result B) (l : list A) (r : list B) :
  mapM f l = Ok r -> List.length r = List.length l.
Proof.
  revert r; induction l as [|x l IH]; simpl; intros r H.
  - now injection H as <-.
  - destruct (f x); simpl in H; [|discriminate].
    destruct (mapM f l); simpl in H; [|discriminate].
    injection H as <-. simpl. now rewrite (IH _ eq_refl).
Qed.

(** ** Index sets *)

Lemma mem_In (x : nat) (s : list nat) : SetUtils.mem x s = true <-> In x s.
Proof.
  unfold SetUtils.mem. rewrite existsb_exists. split.
  - intros (y & Hy & E). apply Nat.eqb_eq in E. now subst.
  - intros H. exists x. split; [exact H | apply Nat.eqb_refl].
Qed.

Lemma add_In (s : list nat) (x i : nat) :
  In i (SetUtils.add s x) <-> In i s \/ i = x.
Proof.
  unfold SetUtils.add. destruct (SetUtils.mem x s) eqn:E.
  - apply mem_In in E. split; [tauto | intros [H | ->]; assumption].
  - rewrite in_app_iff. simpl. intuition.
Qed.

Lemma add_all_In (s acc : list nat) (i : nat) :
  In i (fold_left SetUtils.add s acc) <-> In i acc \/ In i s.
Proof.
  revert acc; induction s as [|x s IH]; simpl; intros acc.
  - tauto.
  - rewrite IH, add_In. intuition.
Qed.

Lemma union_acc_In (sets : list (list nat)) (acc : list nat) (i : nat) :
  In i (fold_left (fun acc s => fold_left SetUtils.add s acc) sets acc)
  <-> In i acc \/ exists s, In s sets /\ In i s.
Proof.
  revert acc; induction sets as [|s sets IH]; simpl; intros acc.
  - split; [tauto | intros [H | (s & [] & _)]; exact H].
  - rewrite IH, add_all_In. split.
    + intros [[H | H] | (t & Ht & Hi)]; eauto.
    + intros [H | (t & [<- | Ht] & Hi)]; eauto.
Qed.

Lemma union_In (sets : list (list nat)) (i : nat) :
  In i (SetUtils.union sets) <-> exists s, In s sets /\ In i s.
Proof.
  unfold SetUtils.union. rewrite union_acc_In. simpl. tauto.
Qed.

Lemma intersecion_In (sets : list (list nat)) (i : nat) :
  sets <> [] ->
  (In i (SetUtils.intersecion sets) <-> forall s, In s sets -> In i s).
Proof.
  destruct sets as [|s rest]; [congruence | intros _].
  simpl. rewrite filter_In, forallb_forall. split.
  - intros [Hs Hr] t [<- | Ht]; [exact Hs | now apply mem_In, Hr].
  - intros H. split; [apply H; now left |].
    intros t Ht. apply mem_In, H. now right.
Qed.

Lemma complementary_In (s : list nat) (n i : nat) :
  In i (SetUtils.complementary s (seq 0 n)) <-> i < n /\ ~ In i s.
Proof.
  unfold SetUtils.complementary. rewrite filter_In, in_seq, negb_true_iff.
  rewrite <- mem_In. destruct (SetUtils.mem i s); intuition (try lia; congruence).
Qed.

(** ** The filter interpreter *)

(** The property that [findCourses] reaches by matching on [filter] is
    [filter[comparator]], [comparator] being the only key of [filter]. *)
Lemma sole_property_get (filter : jsval) (comparator : string) :
  Object_keys filter = Ok [comparator] ->
  get filter comparator
  = Ok match filter with
       | Obj ((_, content) :: _) | Arr (content :: _) => content
       | _ => filter
       end.
Proof.
  unfold Object_keys, get. destruct filter as [| | b | q | s | l | p]; simpl;
    try discriminate.
  - destruct s as [|c [|d s]]; try discriminate. intros [= <-]. reflexivity.
  - destruct l as [|x [|y l]]; try discriminate. intros [= <-]. reflexivity.
  - destruct p as [|[k x] [|[k' y] p]]; try discriminate. intros [= <-].
    simpl. now rewrite String.eqb_refl.
Qed.

(** [evaluateAll] pairs every operand with the set it evaluates to. *)
Lemma evaluateAll_Forall2 (host : Host) (datasets : Datasets.t) (id : string)
    (ops : list jsval) (sets : list (list nat)) :
  evaluateAll host datasets id ops = Ok sets <->
  Forall2 (fun f s => findCourses host datasets f id = Ok s) ops sets.
Proof.
  unfold evaluateAll. revert sets; induction ops as [|f ops IH]; intros sets.
  - simpl. split.
    + intros [= <-]. constructor.
    + intros H. inversion H. reflexivity.
  - cbn [mapM]. split.
    + intros H. apply bind_Ok in H as (s & Hs & H).
      apply bind_Ok in H as (ss & Hss & H). injection H as <-.
      constructor; [exact Hs | now apply IH].
    + intros H. inversion H as [|? s ? ss Hs Hss]; subst.
      rewrite Hs. cbn [bind]. apply IH in Hss. rewrite Hss. reflexivity.
Qed.

Section Evaluate.
Variable host : Host.
Variable datasets : Datasets.t.
Variable id : string.

Lemma each_evaluateAll (ops : list jsval) :
  (fix each (l : list jsval) : result (list (list nat)) :=
     match l with
     | [] => Ok []
     | subFilter :: l' =>
         s <- findCourses host datasets subFilter id ;;
         ss <- each l' ;;
         Ok (s :: ss)
     end) ops = evaluateAll host datasets id ops.
Proof.
  induction ops as [|f ops IH]; [reflexivity |].
  unfold evaluateAll in *; simpl. now rewrite IH.
Qed.

(** The equation of [findCourses] at [{ op: [ops...] }]. *)
Lemma findCourses_logical (op : string) (ops : list jsval) :
  findCourses host datasets (Obj [(op, Arr ops)]) id =
  (dataset <- Datasets.getDataset datasets id ;;
   subSets <- evaluateAll host datasets id ops ;;
   if (List.length subSets =? 0)%nat then
     Err (InsightError "AND and OR must have at least one element")
   else if op =? "OR" then Ok (SetUtils.union subSets)
   else if op =? "AND" then Ok (SetUtils.intersecion subSets)
   else Err (InsightError "Invalid comparator when finding courses")).
Proof.
  simpl. rewrite each_evaluateAll. reflexivity.
Qed.

(** The equation of [findCourses] at [{ NOT: f }], [f] no array. *)
Lemma findCourses_negation (f : jsval) :
  is_array f = false ->
  findCourses host datasets (Obj [("NOT", f)]) id =
  (dataset <- Datasets.getDataset datasets id ;;
   s <- findCourses host datasets f id ;;
   Ok (SetUtils.complementary s (seq 0 (List.length dataset)))).
Proof.
  intros Hf. destruct f; try discriminate Hf; reflexivity.
Qed.

Lemma findCourses_empty :
  findCourses host datasets (Obj []) id =
  (dataset <- Datasets.getDataset datasets id ;;
   Ok (seq 0 (List.length dataset))).
Proof. reflexivity. Qed.

End Evaluate.

Section EvaluateFacts.
Variable host : Host.
Variable datasets : Datasets.t.
Variable id : string.

Lemma filterCourses_comparator (dataset : list record) (all : list nat)
    (key : string) (value : jsval) (comparator : string) (s : list nat) :
  filterCourses host dataset all key value comparator = Ok s ->
  mapping host comparator <> None.
Proof.
  unfold filterCourses. intros H E. rewrite E in H.
  destruct (record_at dataset 0); simpl in H; [|discriminate].
  destruct (negb _); discriminate.
Qed.

Lemma compareCourses_comparator (dataset : list record) (all : list nat)
    (comparator : string) (content : jsval) (s : list nat) :
  compareCourses host dataset all comparator content id = Ok s ->
  mapping host comparator <> None.
Proof.
  unfold compareCourses. intros H.
  apply bind_Ok in H as (ks & _ & H).
  destruct (negb (List.length ks =? 1)%nat); [discriminate |].
  apply bind_Ok in H as (v & _ & H).
  destruct (negb (Regex.test _ _)); [discriminate |].
  destruct (negb (part 0 _ =? id)); [discriminate |].
  now apply filterCourses_comparator in H.
Qed.

(** An array is no filter: its evaluation fails, whatever it holds. *)
Lemma findCourses_array (l : list jsval) (s : list nat) :
  findCourses host datasets (Arr l) id <> Ok s.
Proof.
  intros H. destruct l as [|x [|y l]].
  - simpl in H. destruct (Datasets.getDataset datasets id); discriminate.
  - destruct x; simpl in H;
      (destruct (Datasets.getDataset datasets id) as [D|]; simpl in H; [|discriminate]);
      try (apply compareCourses_comparator in H; now apply H).
    destruct ((fix each (l : list jsval) := _) elements); simpl in H; [|discriminate].
    destruct (List.length value =? 0)%nat; discriminate.
  - simpl in H. destruct (Datasets.getDataset datasets id); discriminate.
Qed.

Lemma findCourses_not_array (f : jsval) (s : list nat) :
  findCourses host datasets f id = Ok s -> is_array f = false.
Proof.
  destruct f; try reflexivity. intros H. now apply findCourses_array in H.
Qed.

End EvaluateFacts.


(** ** The orchestrator *)



Lemma performQuery_resolved (host : Host) (datasets : Datasets.t)
    (query where_ options columns : jsval) (id : string) :
  resolves datasets query where_ options columns id ->
  performQuery host datasets query =
  (courseSet <- rethrow (findCourses host datasets where_ id) ;;
   results <- selectColumns host datasets courseSet columns id ;;
   results <- orderResults host options columns results ;;
   if (cap <? List.length results)%nat then Err ResultTooLargeError
   else Ok results).
Proof.
  intros ((keys & Hk & Hlen & Ho & Hw) & Hwhere & Hopt & Hcols & (c & Hc & Hid) & Hin).
  unfold performQuery. rewrite Hk; simpl.
  rewrite Hlen, Ho, Hw; simpl.
  rewrite Hopt; simpl. rewrite Hcols; simpl. rewrite Hc; simpl.
  rewrite Hid, Hin; simpl. rewrite Hwhere; simpl. reflexivity.
Qed.

Lemma performQuery_Ok (host : Host) (datasets : Datasets.t) (query : jsval)
    (rows : list record) :
  performQuery host datasets query = Ok rows ->
  exists where_ options columns id courseSet projected,
    resolves datasets query where_ options columns id /\
    findCourses host datasets where_ id = Ok courseSet /\
    selectColumns host datasets courseSet columns id = Ok projected /\
    orderResults host options columns projected = Ok rows /\
    List.length rows <= cap.
Proof.
  unfold performQuery. intros H.
  apply bind_Ok in H as (keys & Hk & H).
  destruct (negb (List.length keys =? 2)%nat) eqn:E1; [discriminate |].
  destruct (negb (has_key "OPTIONS" keys)) eqn:E2; [discriminate |].
  destruct (negb (has_key "WHERE" keys)) eqn:E3; [discriminate |].
  simpl in H.
  apply bind_Ok in H as (options & Hopt & H). apply rethrow_Ok in Hopt.
  apply bind_Ok in H as (columns & Hcols & H). apply rethrow_Ok in Hcols.
  apply bind_Ok in H as (column0 & Hc & H). apply rethrow_Ok in Hc.
  apply bind_Ok in H as (id & Hid & H). apply rethrow_Ok in Hid.
  destruct (negb (Datasets.containsDataset datasets id)) eqn:E4; [discriminate |].
  apply bind_Ok in H as (where_ & Hw & H). apply rethrow_Ok in Hw.
  apply bind_Ok in H as (courseSet & Hf & H). apply rethrow_Ok in Hf.
  apply bind_Ok in H as (projected & Hs & H).
  apply bind_Ok in H as (results & Hord & H).
  destruct (cap <? List.length results)%nat eqn:E5; [discriminate |].
  injection H as <-.
  apply negb_false_iff in E1, E2, E3, E4.
  apply Nat.eqb_eq in E1. apply Nat.ltb_ge in E5.
  destruct column0; try discriminate Hid. injection Hid as Hid.
  exists where_, options, columns, id, courseSet, projected.
  repeat split; eauto 10.
Qed.

Lemma assoc_has_key {A : Type} (k : string) (l : list (string * A)) :
  has_key k (map fst l) = match assoc k l with Some _ => true | None => false end.
Proof.
  induction l as [|[k' v] l IH]; simpl; [reflexivity |].
  destruct (k =? k'); simpl; [reflexivity | exact IH].
Qed.

Lemma containsDataset_getDataset (datasets : Datasets.t) (id : string) :
  Datasets.containsDataset datasets id = true ->
  exists D, Datasets.getDataset datasets id = Ok D.
Proof.
  unfold Datasets.containsDataset, Datasets.getDataset.
  rewrite assoc_has_key. destruct (assoc id datasets); [eauto | discriminate].
Qed.

Lemma split_cons (sep : ascii) (s : string) :
  exists h t, split sep s = h :: t.
Proof.
  induction s as [|c s (h & t & IH)]; cbn [split]; [eauto |].
  destruct (Ascii.eqb c sep); [eauto |]. rewrite IH. eauto.
Qed.

Lemma part_0_String (c : ascii) (s : string) :
  part 0 (String c s) = if Ascii.eqb c "_" then EmptyString else String c (part 0 s).
Proof.
  unfold part. cbn [split]. destruct (Ascii.eqb c "_"); [reflexivity |].
  destruct (split_cons "_" s) as (h & t & ->). reflexivity.
Qed.

(** [part 0 s] is what stands in [s] before its first underscore. *)
Lemma part_0_prefix (s : string) :
  includes_char "_" (part 0 s) = false /\
  (s = part 0 s \/ exists rest, s = (part 0 s ++ String "_" rest)%string).
Proof.
  induction s as [|c s [IH1 IH2]]; [split; [reflexivity | now left] |].
  rewrite part_0_String. destruct (Ascii.eqb c "_") eqn:E.
  - apply Ascii.eqb_eq in E. subst c. split; [reflexivity |].
    right. now exists s.
  - cbn [includes_char append]. rewrite Ascii.eqb_sym, E, IH1.
    split; [reflexivity |].
    destruct IH2 as [E2 | (rest & E2)].
    + left. now rewrite <- E2.
    + right. exists rest. now rewrite <- E2.
Qed.

(** ** Sorting *)

Section SortFacts.
Context {A : Type}.
Variable compare : A -> A -> result Z.

Lemma insert_Permutation (x : A) (l l' : list A) :
  insert compare x l = Ok l' -> Permutation (x :: l) l'.
Proof.
  revert l'; induction l as [|y l IH]; simpl; intros l' H.
  - injection H as <-. reflexivity.
  - apply bind_Ok in H as (c & _ & H).
    destruct (c <=? 0)%Z.
    + injection H as <-. reflexivity.
    + apply bind_Ok in H as (r & Hr & H). injection H as <-.
      rewrite perm_swap. constructor. now apply IH.
Qed.

Lemma sort_Permutation (l l' : list A) :
  sort compare l = Ok l' -> Permutation l l'.
Proof.
  revert l'; induction l as [|x l IH]; simpl; intros l' H.
  - injection H as <-. constructor.
  - apply bind_Ok in H as (s & Hs & H).
    rewrite (IH s Hs). now apply insert_Permutation.
Qed.

Lemma insert_head (x : A) (l l' : list A) :
  insert compare x l = Ok l' ->
  l' = x :: l \/ exists y l0 r0, l = y :: l0 /\ l' = y :: r0.
Proof.
  destruct l as [|y l]; simpl; intros H.
  - left. congruence.
  - apply bind_Ok in H as (c & _ & H). destruct (c <=? 0)%Z.
    + left. congruence.
    + apply bind_Ok in H as (r & _ & H). right. exists y, l, r.
      split; congruence.
Qed.

(** On the elements that satisfy [P], the comparator decides [R]. *)
Variable P : A -> Prop.
Variable R : A -> A -> Prop.
Hypothesis compare_decides :
  forall x y c, P x -> P y -> compare x y = Ok c ->
                ((c <= 0)%Z -> R x y) /\ ((0 < c)%Z -> R y x).

Lemma insert_Sorted (x : A) (l l' : list A) :
  P x -> Forall P l -> Sorted R l -> insert compare x l = Ok l' -> Sorted R l'.
Proof.
  intros Px. revert l'; induction l as [|y l IH]; simpl; intros l' Pl Sl H.
  - injection H as <-. repeat constructor.
  - apply bind_Ok in H as (c & Hc & H).
    inversion Pl as [|? ? Py Pl']; subst.
    destruct (compare_decides x y c Px Py Hc) as [Hle Hgt].
    destruct (c <=? 0)%Z eqn:E.
    + injection H as <-. constructor; [exact Sl |].
      constructor. apply Hle. now apply Z.leb_le.
    + apply bind_Ok in H as (r & Hr & H). injection H as <-.
      inversion Sl as [|? ? Sl' Hd]; subst.
      constructor; [now apply IH |].
      destruct (insert_head _ _ _ Hr) as [-> | (z & l0 & r0 & -> & ->)].
      * constructor. apply Hgt. apply Z.leb_gt in E. lia.
      * inversion Hd; subst. now constructor.
Qed.

Lemma sort_Sorted (l l' : list A) :
  Forall P l -> sort compare l = Ok l' -> Sorted R l'.
Proof.
  revert l'; induction l as [|x l IH]; simpl; intros l' Pl H.
  - injection H as <-. constructor.
  - apply bind_Ok in H as (s & Hs & H).
    inversion Pl as [|? ? Px Pl']; subst.
    apply (insert_Sorted x s); auto.
    eapply Permutation_Forall; [apply sort_Permutation; exact Hs | exact Pl'].
Qed.

End SortFacts.

Lemma lex_le_refl (s : string) : lex_le s s.
Proof. induction s; constructor; assumption. Qed.

Lemma lex_le_trans (a b c : string) : lex_le a b -> lex_le b c -> lex_le a c.
Proof.
  intros H; revert c; induction H as [t | x y s t Hlt | x s t H IH]; intros c Hc.
  - constructor.
  - inversion Hc; subst.
    + apply lex_less. lia.
    + now apply lex_less.
  - inversion Hc; subst.
    + now apply lex_less.
    + apply lex_same. now apply IH.
Qed.

Lemma ascending_trans (a b c : option scalar) :
  ascending a b -> ascending b c -> ascending a c.
Proof.
  destruct a as [[s|x]|], b as [[t|y]|], c as [[u|z]|]; simpl; try tauto.
  - apply lex_le_trans.
  - apply Qle_trans.
Qed.

Lemma rule_loop_shift (c d : ascii) (a b : string) (i n : nat) :
  rule_loop (String c a) (String d b) (S i) n = rule_loop a b i n.
Proof.
  revert i; induction n as [|n IH]; intros i; [reflexivity |].
  cbn [rule_loop]. unfold charCodeAt. cbn [String.get].
  rewrite IH. reflexivity.
Qed.

Lemma nat_of_ascii_inj (c d : ascii) : nat_of_ascii c = nat_of_ascii d -> c = d.
Proof.
  intros H. rewrite <- (ascii_nat_embedding c), <- (ascii_nat_embedding d).
  now rewrite H.
Qed.

(** The loop of [rule] finds the first position where the strings differ. *)
Lemma rule_loop_lex (a b : string) :
  match rule_loop a b 0 (Nat.min (String.length a) (String.length b)) with
  | Some r => (r = (-1)%Z /\ lex_le a b) \/ (r = 1%Z /\ lex_le b a)
  | None =>
      (String.length a <= String.length b -> lex_le a b) /\
      (String.length b <= String.length a -> lex_le b a)
  end.
Proof.
  revert b; induction a as [|c a IH]; intros [|d b]; simpl.
  - split; constructor.
  - split; [constructor | intros H; inversion H].
  - split; [intros H; inversion H | constructor].
  - unfold charCodeAt; simpl.
    destruct (nat_of_ascii c =? nat_of_ascii d)%nat eqn:E; simpl.
    + apply Nat.eqb_eq, nat_of_ascii_inj in E. subst d.
      rewrite rule_loop_shift. specialize (IH b).
      destruct (rule_loop a b 0 _) as [r|].
      * destruct IH as [[-> H] | [-> H]]; [left | right]; split; auto;
          now apply lex_same.
      * destruct IH as [H1 H2]. split; intros H; apply lex_same; [apply H1 | apply H2]; lia.
    + apply Nat.eqb_neq in E.
      destruct (nat_of_ascii d <? nat_of_ascii c)%nat eqn:L.
      * apply Nat.ltb_lt in L. right. split; [reflexivity | now apply lex_less].
      * apply Nat.ltb_ge in L. left. split; [reflexivity |].
        apply lex_less. lia.
Qed.

Lemma rule_strings (host : Host) (a b : string) (c : Z) :
  rule host (Some (SStr a)) (Some (SStr b)) = Ok c ->
  ((c <= 0)%Z -> lex_le a b) /\ ((0 < c)%Z -> lex_le b a).
Proof.
  unfold rule. pose proof (rule_loop_lex a b) as H.
  destruct (rule_loop a b 0 _) as [r|].
  - intros [= <-]. destruct H as [[-> H] | [-> H]]; split; intros; auto; lia.
  - destruct H as [H1 H2].
    destruct (String.length a =? String.length b)%nat eqn:E.
    + intros [= <-]. apply Nat.eqb_eq in E. split; intros; [apply H1 | ]; lia.
    + destruct (String.length b <? String.length a)%nat eqn:L; intros [= <-].
      * apply Nat.ltb_lt in L. split; intros; [lia | apply H2; lia].
      * apply Nat.ltb_ge in L. split; intros; [apply H1; lia | lia].
Qed.

Lemma rule_numbers (host : Host) (x y : Q) (c : Z) :
  rule host (Some (SNum x)) (Some (SNum y)) = Ok c ->
  ((c <= 0)%Z -> (x <= y)%Q) /\ ((0 < c)%Z -> (y <= x)%Q).
Proof.
  unfold rule. destruct (Qeq_bool x y) eqn:E.
  - intros [= <-]. apply Qeq_bool_iff in E. split; intros; [|lia].
    rewrite E. apply Qle_refl.
  - unfold Qlt_bool. destruct (Qle_bool x y) eqn:L; simpl; intros [= <-].
    + apply Qle_bool_iff in L. split; intros; [exact L | lia].
    + split; intros; [lia |].
      destruct (Qlt_le_dec y x) as [H1 | H1]; [now apply Qlt_le_weak |].
      apply Qle_bool_iff in H1. congruence.
Qed.

(** ** Projection and ordering *)

Lemma mapM_Err {A B : Type} (f : A -> result B) (l : list A) (e : error) :
  mapM f l = Err e -> exists x, In x l /\ f x = Err e.
Proof.
  induction l as [|x l IH]; simpl; [discriminate |].
  destruct (f x) as [y|e'] eqn:E; simpl.
  - destruct (mapM f l); simpl; [discriminate |].
    intros [= <-]. destruct (IH eq_refl) as (z & Hz & Ez). eauto.
  - intros [= <-]. eauto.
Qed.

Lemma mapM_Forall {A B : Type} (f : A -> result B) (l : list A) (r : list B) :
  mapM f l = Ok r -> Forall (fun x => exists y, f x = Ok y) l.
Proof.
  revert r; induction l as [|x l IH]; simpl; intros r H; [constructor |].
  apply bind_Ok in H as (y & Hy & H). apply bind_Ok in H as (ys & Hys & _).
  constructor; eauto.
Qed.

Lemma has_key_In (k : string) (keys : list string) :
  has_key k keys = true <-> In k keys.
Proof.
  unfold has_key. rewrite existsb_exists. split.
  - intros (x & Hx & E). apply String.eqb_eq in E. now subst.
  - intros H. exists k. split; [exact H | apply String.eqb_refl].
Qed.

Lemma get_defined (v x : jsval) (k : string) :
  get v k = Ok x -> x <> Undefined ->
  exists keys, Object_keys v = Ok keys /\ In k keys.
Proof.
  unfold get, Object_keys. destruct (own_properties v) as [l|]; [|discriminate].
  intros [= <-] Hx. exists (map fst l). split; [reflexivity |].
  apply has_key_In. rewrite assoc_has_key.
  destruct (assoc k l); [reflexivity | now destruct Hx].
Qed.

Section Projection.
Variable host : Host.
Variable datasets : Datasets.t.

Lemma selectRow_Err (id : string) (course : nat) (columns : list jsval)
    (row : record) (e : error) :
  selectRow host datasets id course columns row = Err e -> e <> ResultTooLargeError.
Proof.
  revert row; induction columns as [|column columns IH]; simpl; intros row;
    [discriminate |].
  unfold Datasets.getDataset, record_at, column_part.
  destruct (assoc id datasets); simpl; [|intros [= <-]; discriminate].
  destruct (nth_error l course); simpl; [|intros [= <-]; discriminate].
  destruct column; simpl; try (intros [= <-]; discriminate).
  destruct (field r (part 1 s)); [apply IH | intros [= <-]; discriminate].
Qed.

Lemma selectColumns_Err (courseSet : list nat) (columns : jsval) (id : string)
    (e : error) :
  selectColumns host datasets courseSet columns id = Err e ->
  e <> ResultTooLargeError.
Proof.
  unfold selectColumns.
  destruct (iterate columns) as [cols|e'] eqn:E; simpl.
  - destruct (mapM (checkColumn host id) cols) as [u|e'] eqn:E2; simpl.
    + intros H. apply mapM_Err in H as (course & _ & H).
      now apply selectRow_Err in H.
    + intros [= <-]. apply mapM_Err in E2 as (column & _ & H).
      unfold checkColumn in H. destruct (negb _); [injection H as <-; discriminate |].
      destruct (column_part 0 column) as [p|e2] eqn:E3; simpl in H.
      * destruct (negb _); [injection H as <-|]; discriminate.
      * injection H as <-. destruct column; try discriminate E3;
          simpl in E3; injection E3 as <-; discriminate.
  - intros [= <-]. destruct columns; try discriminate E;
      simpl in E; injection E as <-; discriminate.
Qed.

Lemma selectColumns_length (courseSet : list nat) (columns : jsval)
    (id : string) (projected : list record) :
  selectColumns host datasets courseSet columns id = Ok projected ->
  List.length projected = List.length courseSet.
Proof.
  unfold selectColumns. intros H.
  apply bind_Ok in H as (cols & _ & H). apply bind_Ok in H as (u & _ & H).
  now apply mapM_length in H.
Qed.

Lemma checkColumn_Str (id : string) (column : jsval) (u : unit) :
  checkColumn host id column = Ok u ->
  exists s, column = Str s /\ Regex.test Regex.qualified_name s = true /\
            part 0 s = id.
Proof.
  unfold checkColumn. destruct (negb _) eqn:E; [discriminate |].
  intros H. apply bind_Ok in H as (p & Hp & H).
  destruct column; try discriminate Hp. simpl in Hp. injection Hp as <-.
  exists s. simpl in E. apply negb_false_iff in E.
  destruct (negb (part 0 s =? id)) eqn:E2; [discriminate |].
  apply negb_false_iff, String.eqb_eq in E2. auto.
Qed.

(** When the projection succeeds, [COLUMNS] is an array of qualified names
    of the target dataset. *)
Lemma selectColumns_columns (courseSet : list nat) (columns : jsval)
    (id : string) (projected : list record) (column0 : jsval) :
  get columns "0" = Ok column0 -> column0 <> Undefined ->
  selectColumns host datasets courseSet columns id = Ok projected ->
  exists cols, columns = Arr cols /\
               Forall (fun column => exists s, column = Str s /\
                         Regex.test Regex.qualified_name s = true /\
                         part 0 s = id) cols.
Proof.
  intros H0 Hdef H. unfold selectColumns in H.
  apply bind_Ok in H as (cols & Hit & H). apply bind_Ok in H as (u & Hch & _).
  apply mapM_Forall in Hch.
  assert (Hcols : Forall (fun column => exists s, column = Str s /\
                         Regex.test Regex.qualified_name s = true /\
                         part 0 s = id) cols).
  { eapply Forall_impl; [|exact Hch]. intros c (v & Hv).
    now apply checkColumn_Str in Hv. }
  destruct columns; try discriminate Hit; simpl in Hit; injection Hit as <-.
  - destruct s as [|c s].
    + simpl in H0. injection H0 as <-. now destruct Hdef.
    + simpl in Hcols. inversion Hcols as [|? ? (t & Et & Ht & _) _]; subst.
      injection Et as <-. simpl in Ht.
      rewrite andb_false_r in Ht. discriminate.
  - eauto.
Qed.

Lemma orderResults_Err (options columns : jsval) (projected : list record)
    (e : error) :
  orderResults host options columns projected = Err e ->
  exists m, e = InsightError m.
Proof.
  unfold orderResults.
  destruct (rethrow (Object_keys options)) as [keys|e'] eqn:E; simpl;
    [|apply rethrow_Err in E as (m & ->); intros [= <-]; eauto].
  destruct (has_key "ORDER" keys).
  - destruct (2 <? List.length keys)%nat; [intros [= <-]; eauto |].
    destruct (rethrow (get options "ORDER")) as [order|e'] eqn:E2; simpl;
      [|apply rethrow_Err in E2 as (m & ->); intros [= <-]; eauto].
    destruct (rethrow (columns_include host columns order)) as [b|e'] eqn:E3; simpl;
      [|apply rethrow_Err in E3 as (m & ->); intros [= <-]; eauto].
    destruct (negb b); [intros [= <-]; eauto |].
    apply rethrow_Err.
  - destruct (1 <? List.length keys)%nat; [intros [= <-]; eauto | discriminate].
Qed.

(** What a successful pass through the ordering block tells. *)
Lemma orderResults_Ok (options : jsval) (cols : list jsval)
    (projected rows : list record) :
  Forall (fun column => exists s, column = Str s) cols ->
  orderResults host options (Arr cols) projected = Ok rows ->
  exists keys,
    Object_keys options = Ok keys /\
    ((has_key "ORDER" keys = false /\ List.length keys <= 1 /\ rows = projected) \/
     (has_key "ORDER" keys = true /\ List.length keys <= 2 /\
      exists order,
        get options "ORDER" = Ok (Str order) /\ In (Str order) cols /\
        sort (fun a b => compareResults host a b options) projected = Ok rows)).
Proof.
  intros Hcols H. unfold orderResults in H.
  apply bind_Ok in H as (keys & Hk & H). apply rethrow_Ok in Hk.
  exists keys. split; [exact Hk |].
  destruct (has_key "ORDER" keys).
  - right. destruct (2 <? List.length keys)%nat eqn:E; [discriminate |].
    apply Nat.ltb_ge in E.
    apply bind_Ok in H as (order & Ho & H). apply rethrow_Ok in Ho.
    apply bind_Ok in H as (listed & Hl & H). apply rethrow_Ok in Hl.
    destruct listed; [|discriminate]. simpl in H. apply rethrow_Ok in H.
    simpl in Hl. injection Hl as Hl.
    apply existsb_exists in Hl as (x & Hx & Hsame).
    rewrite Forall_forall in Hcols. destruct (Hcols x Hx) as (s & ->).
    destruct order; try discriminate Hsame. simpl in Hsame.
    apply String.eqb_eq in Hsame. subst s0.
    repeat split; auto. exists s. auto.
  - left. destruct (1 <? List.length keys)%nat eqn:E; [discriminate |].
    apply Nat.ltb_ge in E. injection H as <-. auto.
Qed.

Lemma orderResults_Permutation (options columns : jsval)
    (projected rows : list record) :
  orderResults host options columns projected = Ok rows ->
  Permutation projected rows.
Proof.
  unfold orderResults. intros H.
  apply bind_Ok in H as (keys & _ & H).
  destruct (has_key "ORDER" keys).
  - destruct (2 <? List.length keys)%nat; [discriminate |].
    apply bind_Ok in H as (order & _ & H).
    apply bind_Ok in H as (listed & _ & H).
    destruct (negb listed); [discriminate |].
    apply rethrow_Ok in H. now apply sort_Permutation in H.
  - destruct (1 <? List.length keys)%nat; [discriminate |].
    injection H as <-. reflexivity.
Qed.

End Projection.
Lemma has_non_space_only_spaces (id : string) :
  has_non_space id = negb (only_spaces id).
Proof.
  unfold only_spaces. induction id as [|c id IH]; [reflexivity |].
  cbn [has_non_space list_ascii_of_string forallb].
  rewrite (Ascii.eqb_sym " " c). destruct (Ascii.eqb c " "); [exact IH | reflexivity].
Qed.

Lemma isIdValid_spec (id : string) :
  isIdValid (Str id) = negb (includes_char "_" id) && negb (only_spaces id).
Proof.
  unfold isIdValid. rewrite has_non_space_only_spaces.
  now destruct (includes_char "_" id).
Qed.


(** The queries built by [query_of] pass the first steps. *)
Lemma resolves_query_of (datasets : Datasets.t) (where_ : jsval)
    (column : string) (columns : list string) (order : option string) :
  Datasets.containsDataset datasets (part 0 column) = true ->
  resolves datasets (query_of where_ (column :: columns) order) where_
           (options_of (column :: columns) order)
           (Arr (map Str (column :: columns))) (part 0 column).
Proof.
  intros H. split; [exists ["WHERE"; "OPTIONS"]; repeat split |].
  repeat split; auto. exists column. split; reflexivity.
Qed.

(** ** Patterns in the fragment *)

Lemma append_assoc (a b c : string) : ((a ++ b) ++ c = a ++ (b ++ c))%string.
Proof. induction a as [|x a IH]; simpl; [reflexivity | now rewrite IH]. Qed.

Lemma append_empty (a : string) : (a ++ "")%string = a.
Proof. induction a as [|x a IH]; simpl; [reflexivity | now rewrite IH]. Qed.

Lemma syntax_character_false (c : ascii) :
  Regex.syntax_character c = false ->
  Ascii.eqb c "$" = false /\ Ascii.eqb c "." = false /\ Ascii.eqb c "*" = false.
Proof.
  unfold Regex.syntax_character. cbn [includes_char].
  rewrite !orb_false_iff. tauto.
Qed.

Lemma plain_no_star (s : string) : plain s = true -> includes_char "*" s = false.
Proof.
  induction s as [|c s IH]; [reflexivity |]. cbn [plain includes_char].
  intros H. apply andb_true_iff in H as [Hc Hs]. apply negb_true_iff in Hc.
  apply syntax_character_false in Hc as (_ & _ & Hc).
  rewrite Ascii.eqb_sym, Hc. now apply IH.
Qed.

Lemma split_none (sep : ascii) (s : string) :
  includes_char sep s = false -> split sep s = [s].
Proof.
  induction s as [|c s IH]; [reflexivity |]. cbn [includes_char split].
  intros H. apply orb_false_iff in H as [Hc Hs].
  rewrite Ascii.eqb_sym, Hc, (IH Hs). reflexivity.
Qed.

Lemma split_first (sep : ascii) (s t : string) :
  includes_char sep s = false ->
  split sep (s ++ String sep t) = s :: split sep t.
Proof.
  induction s as [|c s IH]; cbn [includes_char split append].
  - intros _. now rewrite Ascii.eqb_refl.
  - intros H. apply orb_false_iff in H as [Hc Hs].
    rewrite Ascii.eqb_sym, Hc, (IH Hs). reflexivity.
Qed.

Lemma includes_char_last (c : ascii) (s t : string) :
  includes_char c (s ++ String c t) = true.
Proof.
  induction s as [|d s IH]; cbn [includes_char append].
  - now rewrite Ascii.eqb_refl.
  - rewrite IH. apply orb_true_r.
Qed.

Lemma test_Star (a : Regex.atom) (re : Regex.t) (s : string) :
  Regex.test ((a, Regex.Star) :: re) s = Regex.repeat a (Regex.test re) s.
Proof. reflexivity. Qed.

Lemma test_One (a : Regex.atom) (re : Regex.t) (c : ascii) (s : string) :
  Regex.test ((a, Regex.One) :: re) (String c s)
  = Regex.accepts a c && Regex.test re s.
Proof. reflexivity. Qed.

Lemma test_Opt (a : Regex.atom) (re : Regex.t) (c : ascii) (s : string) :
  Regex.test ((a, Regex.Opt) :: re) (String c s)
  = (Regex.accepts a c && Regex.test re s) || Regex.test re (String c s).
Proof. reflexivity. Qed.

Lemma repeat_unfold (a : Regex.atom) (k : string -> bool) (s : string) :
  Regex.repeat a k s
  = k s || match s with
           | EmptyString => false
           | String c s' => Regex.accepts a c && Regex.repeat a k s'
           end.
Proof. destruct s; reflexivity. Qed.

(** Characters that [a] accepts can be passed over. *)
Lemma repeat_skip (a : Regex.atom) (k : string -> bool) (body t : string) :
  (forall c, includes_char c body = true -> Regex.accepts a c = true) ->
  k t = true ->
  Regex.repeat a k (body ++ t) = true.
Proof.
  intros Ha Hk. induction body as [|c body IH]; cbn [append].
  - rewrite repeat_unfold, Hk. reflexivity.
  - rewrite repeat_unfold, IH, Ha.
    + apply orb_true_r.
    + cbn [includes_char]. now rewrite Ascii.eqb_refl.
    + intros d Hd. apply Ha. cbn [includes_char]. rewrite Hd. apply orb_true_r.
Qed.

(** The placements of the asterisk that [wildcard_shape] admits. *)
Lemma wildcard_shape_tail (body t : string) :
  includes_char "*" body = false ->
  t = "" \/ t = "*" ->
  Regex.test [(Regex.Not "*"%char, Regex.Star); (Regex.Lit "*"%char, Regex.Opt)]
             (body ++ t) = true.
Proof.
  intros Hb Ht. rewrite test_Star. apply repeat_skip.
  - intros c Hc. cbn [Regex.accepts]. apply negb_true_iff.
    destruct (Ascii.eqb c "*") eqn:E; [|reflexivity].
    apply Ascii.eqb_eq in E. subst c. congruence.
  - destruct Ht as [-> | ->]; reflexivity.
Qed.

Lemma wildcard_shape_admits (body t : string) (leading : bool) :
  includes_char "*" body = false ->
  t = "" \/ t = "*" ->
  Regex.test Regex.wildcard_shape
             ((if leading then "*" else "") ++ body ++ t) = true.
Proof.
  intros Hb Ht. pose proof (wildcard_shape_tail body t Hb Ht) as H.
  unfold Regex.wildcard_shape. destruct leading; cbn [append].
  - rewrite test_Opt, H. reflexivity.
  - destruct (body ++ t)%string as [|c s] eqn:E.
    + exact H.
    + rewrite test_Opt, H. apply orb_true_r.
Qed.

(** The source of a pattern in the fragment is read back as written. *)
Lemma parse_atoms_literally (body tail : string) (d : ascii) (re : Regex.t) :
  plain body = true ->
  Ascii.eqb d "*" = false ->
  Regex.parse_atoms (String d tail) = Some re ->
  Regex.parse_atoms (body ++ String d tail) = Some (literally body ++ re).
Proof.
  intros Hb Hd Hre. induction body as [|c body IH]; [exact Hre |].
  cbn [plain] in Hb. apply andb_true_iff in Hb as [Hc Hs].
  apply negb_true_iff in Hc. pose proof Hc as Hc'.
  apply syntax_character_false in Hc' as (H1 & H2 & H3).
  cbn [append Regex.parse_atoms literally]. rewrite H1, H2, Hc.
  destruct body as [|c' body].
  - cbn [append] in *. rewrite Hd, Hre. reflexivity.
  - cbn [append] in *. cbn [plain] in Hs.
    apply andb_true_iff in Hs as [Hc2 Hs2]. apply negb_true_iff in Hc2.
    pose proof Hc2 as Hc3. apply syntax_character_false in Hc3 as (_ & _ & H4).
    rewrite H4. rewrite IH; [reflexivity |].
    cbn [plain]. now rewrite Hc2, Hs2.
Qed.

(** What the patterns of the fragment match. *)
Lemma test_literally (body a : string) :
  Regex.test (literally body) a = String.eqb a body.
Proof.
  revert a; induction body as [|c body IH]; intros [|d a]; try reflexivity.
  cbn [literally]. rewrite test_One, IH. reflexivity.
Qed.

Lemma repeat_Dot_any (a : string) :
  one_line a = true -> Regex.repeat Regex.Dot (Regex.test []) a = true.
Proof.
  induction a as [|c a IH]; [reflexivity |]. cbn [one_line].
  intros H. apply andb_true_iff in H as [Hc Ha].
  rewrite repeat_unfold, (IH Ha). cbn [Regex.accepts]. rewrite Hc.
  apply orb_true_r.
Qed.

Lemma test_literally_any (body a : string) :
  one_line a = true ->
  Regex.test (literally body ++ [(Regex.Dot, Regex.Star)]) a = String.prefix body a.
Proof.
  revert a; induction body as [|c body IH]; intros a Ha.
  - cbn [literally app]. rewrite test_Star, (repeat_Dot_any a Ha).
    now destruct a.
  - cbn [literally app]. destruct a as [|d a]; [reflexivity |].
    cbn [one_line] in Ha. apply andb_true_iff in Ha as [_ Ha].
    rewrite test_One, (IH a Ha). cbn [Regex.accepts String.prefix].
    destruct (ascii_dec c d) as [-> | Hne].
    + now rewrite Ascii.eqb_refl.
    + destruct (Ascii.eqb d c) eqn:E; [|reflexivity].
      apply Ascii.eqb_eq in E. now destruct Hne.
Qed.

Lemma repeat_Dot_tails (k : string -> bool) (a : string) :
  one_line a = true ->
  Regex.repeat Regex.Dot k a
  = k a || match a with
           | EmptyString => false
           | String _ a' => Regex.repeat Regex.Dot k a'
           end.
Proof.
  intros Ha. rewrite repeat_unfold. destruct a as [|c a]; [reflexivity |].
  cbn [one_line] in Ha. apply andb_true_iff in Ha as [Hc _].
  cbn [Regex.accepts]. now rewrite Hc.
Qed.

Lemma test_any_literally (body a : string) :
  one_line a = true ->
  Regex.test ((Regex.Dot, Regex.Star) :: literally body) a = ends_with body a.
Proof.
  rewrite test_Star. induction a as [|c a IH]; intros Ha.
  - rewrite repeat_unfold, test_literally. cbn [ends_with]. reflexivity.
  - rewrite (repeat_Dot_tails _ _ Ha), test_literally. cbn [ends_with].
    cbn [one_line] in Ha. apply andb_true_iff in Ha as [_ Ha].
    now rewrite (IH Ha).
Qed.

Lemma test_any_literally_any (body a : string) :
  one_line a = true ->
  Regex.test ((Regex.Dot, Regex.Star) :: literally body ++ [(Regex.Dot, Regex.Star)]) a
  = includes body a.
Proof.
  rewrite test_Star. induction a as [|c a IH]; intros Ha.
  - rewrite repeat_unfold, (test_literally_any _ _ Ha). cbn [includes].
    reflexivity.
  - rewrite (repeat_Dot_tails _ _ Ha), (test_literally_any _ _ Ha).
    cbn [includes]. cbn [one_line] in Ha. apply andb_true_iff in Ha as [_ Ha].
    now rewrite (IH Ha).
Qed.

Lemma parse_leading_any (rest : string) :
  Regex.parse (String "^" (String "." (String "*" rest)))
  = option_map (cons (Regex.Dot, Regex.Star)) (Regex.parse_atoms rest).
Proof. reflexivity. Qed.

(** Where the value has no character with a meaning in a pattern and the
    stored string no line end, the wildcards of [IS] are what the
    specification says: a trailing asterisk asks for a prefix, a leading
    one for a suffix, both for an occurrence. *)
Lemma IS_literal (host : Host) (body a : string) :
  plain body = true ->
  one_line a = true ->
  IS host (Some (SStr a)) (Str (body ++ "*")) = Ok (String.prefix body a) /\
  IS host (Some (SStr a)) (Str ("*" ++ body)) = Ok (ends_with body a) /\
  IS host (Some (SStr a)) (Str ("*" ++ body ++ "*")) = Ok (includes body a).
Proof.
  intros Hb Ha. pose proof (plain_no_star body Hb) as Hs.
  assert (Hdot : Regex.parse_atoms (body ++ ".*$")
                 = Some (literally body ++ [(Regex.Dot, Regex.Star)])).
  { now apply parse_atoms_literally. }
  assert (Hend : Regex.parse_atoms (body ++ "$") = Some (literally body)).
  { rewrite <- (app_nil_r (literally body)). now apply parse_atoms_literally. }
  unfold IS, RegExp_test, field_to_string. repeat split.
  - rewrite includes_char_last. cbn [negb].
    pose proof (wildcard_shape_admits body "*" false Hs (or_intror eq_refl)) as Hw.
    cbn [append] in Hw. rewrite Hw.
    cbn [negb]. rewrite (split_first "*" body "" Hs).
    cbn [split join String.concat].
    replace ("^" ++ (body ++ ".*" ++ "") ++ "$")%string
      with (String "^" (body ++ ".*$")) by (cbn [append]; now rewrite append_assoc).
    cbn [Regex.parse]. rewrite Hdot. now rewrite test_literally_any.
  - cbn [append includes_char]. rewrite Ascii.eqb_refl. cbn [orb negb].
    pose proof (wildcard_shape_admits body "" true Hs (or_introl eq_refl)) as Hw.
    rewrite append_empty in Hw. cbn [append] in Hw. rewrite Hw. cbn [negb].
    cbn [split]. rewrite Ascii.eqb_refl, (split_none "*" body Hs).
    cbn [join String.concat append].
    rewrite parse_leading_any, Hend. cbn [option_map].
    now rewrite test_any_literally.
  - cbn [append includes_char]. rewrite Ascii.eqb_refl. cbn [orb negb].
    pose proof (wildcard_shape_admits body "*" true Hs (or_intror eq_refl)) as Hw.
    cbn [append] in Hw. rewrite Hw. cbn [negb].
    cbn [split]. rewrite Ascii.eqb_refl, (split_first "*" body "" Hs).
    cbn [split join String.concat].
    replace (("" ++ ".*" ++ body ++ ".*" ++ "") ++ "$")%string
      with (String "." (String "*" (body ++ ".*$")))
      by (cbn [append]; now rewrite append_assoc).
    rewrite parse_leading_any, Hdot. cbn [option_map].
    now rewrite test_any_literally_any.
Qed.

(** ** What [IS] and the projector do as specified *)

(** Without an asterisk, [IS] is equality with the stored string. *)
Lemma IS_exact (host : Host) (a : option scalar) (value : string) :
  includes_char "*" value = false ->
  IS host a (Str value) = Ok true <-> a = Some (SStr value).
Proof.
  intros H. unfold IS. rewrite H. simpl. split.
  - intros [= E]. destruct a as [[s|q]|]; try discriminate E.
    apply String.eqb_eq in E. now subst.
  - intros ->. now rewrite String.eqb_refl.
Qed.

(** An asterisk anywhere but at the ends is rejected. *)
Lemma IS_misplaced (host : Host) (a : option scalar) (value : string) :
  includes_char "*" value = true ->
  Regex.test Regex.wildcard_shape value = false ->
  IS host a (Str value) = Err (InsightError "Invalid regex filter value").
Proof. intros H1 H2. unfold IS. now rewrite H1, H2. Qed.

(** With no course to project, the fields of the columns are not looked
    up: well-formed columns of the target dataset give no row and no
    error. *)
Lemma selectColumns_no_course (host : Host) (datasets : Datasets.t)
    (columns : list string) (id : string) :
  Forall (fun column => Regex.test Regex.qualified_name column = true /\
                        part 0 column = id) columns ->
  selectColumns host datasets [] (Arr (map Str columns)) id = Ok [].
Proof.
  intros H. unfold selectColumns. simpl.
  assert (E : mapM (checkColumn host id) (map Str columns)
              = Ok (map (fun _ => tt) columns)).
  { induction H as [|c cs [H1 H2] _ IH]; [reflexivity |].
    cbn [map mapM]. unfold checkColumn at 1. cbn [to_string column_part].
    rewrite H1. cbn [negb bind]. rewrite H2, String.eqb_refl.
    cbn [negb bind]. now rewrite IH. }
  now rewrite E.
Qed.


(** A column that fails the pattern or names another dataset rejects the
    query whatever the candidate set. *)
Lemma selectColumns_rejects (host : Host) (datasets : Datasets.t)
    (cols : list jsval) (id : string) (column : jsval) (e : error) :
  In column cols ->
  checkColumn host id column = Err e ->
  exists e', forall courseSet,
    selectColumns host datasets courseSet (Arr cols) id = Err e'.
Proof.
  intros Hin He. unfold selectColumns. simpl.
  destruct (mapM (checkColumn host id) cols) as [u|e'] eqn:E.
  - apply mapM_Forall in E. rewrite Forall_forall in E.
    destruct (E column Hin) as (y & Hy). congruence.
  - exists e'. reflexivity.
Qed.

(** A column whose field the record of a candidate lacks rejects the
    query: the lookup happens once a course is being projected. *)
Lemma selectRow_unknown_field (host : Host) (datasets : Datasets.t)
    (id : string) (D : list record) (course : nat) (r row : record)
    (columns : list string) :
  Datasets.getDataset datasets id = Ok D ->
  nth_error D course = Some r ->
  Exists (fun column => field r (part 1 column) = None) columns ->
  exists column,
    In column columns /\
    selectRow host datasets id course (map Str columns) row
    = Err (InsightError ("Key in columns not exists in dataset: " ++ column)%string).
Proof.
  intros HD Hr H. revert row.
  induction columns as [|c columns IH]; intros row; [inversion H |].
  cbn [map selectRow]. rewrite HD. cbn [bind]. unfold record_at. rewrite Hr.
  cbn [bind column_part to_string].
  destruct (field r (part 1 c)) as [v|] eqn:E.
  - inversion H as [? ? Hc | ? ? Hcs]; subst; [congruence |].
    destruct (IH Hcs (set_field row c v)) as (column & Hin & ->).
    exists column. split; [now right | reflexivity].
  - exists c. split; [now left | reflexivity].
Qed.

(** ** The sorter on code units *)

Lemma sort_resolves {A : Type} (compare : A -> A -> result Z) (P : A -> Prop)
    (l : list A) :
  (forall x y, P x -> P y -> exists c, compare x y = Ok c) ->
  Forall P l -> exists l', sort compare l = Ok l'.
Proof.
  intros Hc. induction l as [|x l IH]; intros Hl; [now exists [] |].
  apply Forall_cons_iff in Hl. destruct Hl as [Hx Hl].
  destruct (IH Hl) as (s & Hs). cbn [sort]. rewrite Hs. cbn [bind].
  assert (Hps : Forall P s).
  { eapply Permutation_Forall; [apply (sort_Permutation compare); exact Hs | exact Hl]. }
  clear -Hc Hx Hps. induction s as [|y s IH]; [now exists [x] |].
  apply Forall_cons_iff in Hps. destruct Hps as [Hy Hps].
  cbn [insert]. destruct (Hc x y Hx Hy) as (c & ->). cbn [bind].
  destruct (c <=? 0)%Z; [eauto |].
  destruct (IH Hps) as (r & ->). cbn [bind]. eauto.
Qed.

Lemma rule_resolves (host : Host) (order : string) (a b : record) :
  (holds_number order a /\ holds_number order b) \/
  (holds_string order a /\ holds_string order b) ->
  exists c, rule host (field a order) (field b order) = Ok c.
Proof.
  intros [[(x & ->) (y & ->)] | [(s & ->) (t & ->)]]; unfold rule.
  - destruct (Qeq_bool x y); eauto.
  - destruct (rule_loop s t 0 _); [eauto |].
    destruct (String.length s =? String.length t)%nat; eauto.
Qed.

Lemma units_le_trans (a b c : list N) :
  units_le a b -> units_le b c -> units_le a c.
Proof.
  intros H; revert c; induction H as [t | x y s t Hlt | x s t H IH]; intros c Hc.
  - constructor.
  - inversion Hc; subst.
    + apply units_less. lia.
    + now apply units_less.
  - inversion Hc; subst.
    + now apply units_less.
    + apply units_same. now apply IH.
Qed.

Lemma rule_units_loop_shift (x y : N) (a b : list N) (i n : nat) :
  rule_units_loop (x :: a) (y :: b) (S i) n = rule_units_loop a b i n.
Proof.
  revert i; induction n as [|n IH]; intros i; [reflexivity |].
  cbn [rule_units_loop]. unfold unit_at. cbn [nth_error].
  rewrite IH. reflexivity.
Qed.

(** The loop finds the first position where the sequences differ. *)
Lemma rule_units_loop_lex (a b : list N) :
  match rule_units_loop a b 0 (Nat.min (List.length a) (List.length b)) with
  | Some r => (r = (-1)%Z /\ units_le a b) \/ (r = 1%Z /\ units_le b a)
  | None =>
      (List.length a <= List.length b -> units_le a b) /\
      (List.length b <= List.length a -> units_le b a)
  end.
Proof.
  revert b; induction a as [|x a IH]; intros [|y b]; cbn [List.length Nat.min].
  - split; constructor.
  - split; [constructor | intros H; inversion H].
  - split; [intros H; inversion H | constructor].
  - cbn [rule_units_loop]. unfold unit_at. cbn [nth_error].
    destruct (N.eqb_spec x y) as [-> | Hne]; cbn [negb].
    + rewrite rule_units_loop_shift. specialize (IH b).
      destruct (rule_units_loop a b 0 _) as [r|].
      * destruct IH as [[-> H] | [-> H]]; [left | right]; split; auto;
          now apply units_same.
      * destruct IH as [H1 H2].
        split; intros H; apply units_same; [apply H1 | apply H2]; lia.
    + destruct (N.ltb_spec y x) as [L | L].
      * right. split; [reflexivity | now apply units_less].
      * left. split; [reflexivity |]. apply units_less. lia.
Qed.

Lemma rule_units_le (a b : list N) :
  ((rule_units a b <= 0)%Z -> units_le a b) /\
  ((0 < rule_units a b)%Z -> units_le b a).
Proof.
  unfold rule_units. pose proof (rule_units_loop_lex a b) as H.
  destruct (rule_units_loop a b 0 _) as [r|].
  - destruct H as [[-> H] | [-> H]]; split; intros; auto; lia.
  - destruct H as [H1 H2].
    destruct (Nat.eqb_spec (List.length a) (List.length b)) as [E | E].
    + split; intros; [apply H1 | ]; lia.
    + destruct (Nat.ltb_spec (List.length b) (List.length a)) as [L | L].
      * split; intros; [lia | apply H2; lia].
      * split; intros; [apply H1; lia | lia].
Qed.

Lemma charCodeAt_unit_at (s : string) (i : nat) :
  charCodeAt s i = option_map N.to_nat (unit_at (code_units s) i).
Proof.
  unfold charCodeAt, unit_at, code_units.
  revert i; induction s as [|c s IH]; intros [|i]; cbn; try reflexivity.
  apply IH.
Qed.

Lemma code_units_length (s : string) :
  List.length (code_units s) = String.length s.
Proof.
  unfold code_units. rewrite length_map.
  induction s as [|c s IH]; cbn; [reflexivity | now rewrite IH].
Qed.

Lemma rule_loop_units (a b : string) (i n : nat) :
  rule_loop a b i n = rule_units_loop (code_units a) (code_units b) i n.
Proof.
  revert i; induction n as [|n IH]; intros i; [reflexivity |].
  cbn [rule_loop rule_units_loop]. rewrite !charCodeAt_unit_at.
  destruct (unit_at (code_units a) i) as [x|]; [|reflexivity].
  destruct (unit_at (code_units b) i) as [y|]; [|reflexivity].
  cbn [option_map]. rewrite IH.
  assert (E : (N.to_nat x =? N.to_nat y)%nat = (x =? y)%N).
  { destruct (N.eqb_spec x y) as [-> | Hne]; [apply Nat.eqb_refl |].
    apply Nat.eqb_neq. lia. }
  assert (L : (N.to_nat y <? N.to_nat x)%nat = (y <? x)%N).
  { destruct (N.ltb_spec y x), (Nat.ltb_spec (N.to_nat y) (N.to_nat x));
      try reflexivity; lia. }
  now rewrite E, L.
Qed.

(** On the strings of the file, [rule] is the comparator on code units. *)
Lemma rule_on_code_units (host : Host) (a b : string) :
  rule host (Some (SStr a)) (Some (SStr b))
  = Ok (rule_units (code_units a) (code_units b)).
Proof.
  unfold rule, rule_units. rewrite !code_units_length, rule_loop_units.
  destruct (rule_units_loop _ _ 0 _); [reflexivity |].
  destruct (String.length a =? String.length b)%nat; reflexivity.
Qed.

(** On the strings of the file, the order by character codes is the order
    by code units. *)
Lemma lex_le_code_units (s t : string) :
  lex_le s t <-> units_le (code_units s) (code_units t).
Proof.
  split.
  - induction 1 as [t | c d s t Hlt | c s t H IH]; unfold code_units in *;
      cbn [list_ascii_of_string map].
    + constructor.
    + apply units_less. unfold nat_of_ascii in Hlt. lia.
    + now apply units_same.
  - revert t; induction s as [|c s IH]; intros [|d t]; unfold code_units in *;
      cbn [list_ascii_of_string map]; intros H.
    + constructor.
    + constructor.
    + inversion H.
    + inversion H as [| ? ? ? ? Hlt | ? ? ? Hrest Hc]; subst.
      * apply lex_less. unfold nat_of_ascii. lia.
      * assert (E : c = d).
        { rewrite <- (ascii_N_embedding c), <- (ascii_N_embedding d). congruence. }
        subst d. apply lex_same. now apply IH.
Qed.

Lemma blank_no_underscore (id : string) :
  blank id = true -> includes_char "_" id = false.
Proof.
  unfold blank. induction id as [|c id IH]; [reflexivity |].
  cbn [list_ascii_of_string forallb includes_char]. intros H.
  apply andb_true_iff in H. destruct H as [Hc Hid]. rewrite (IH Hid).
  rewrite orb_false_r.
  destruct c as [[] [] [] [] [] [] [] []]; try reflexivity; discriminate Hc.
Qed.

(* ================================================================== *)
(** * Properties of the specification *)

(** C1.  On a loaded dataset [D], when the operands [ops] (at least one)
    evaluate to the index sets [sets], [{AND: ops}] evaluates to a set whose
    members are the indices in every one of [sets], and [{OR: ops}] to a set
    whose members are the indices in some one of them; when [f] evaluates to
    [s], [{NOT: f}] evaluates to a set whose members are the indices below
    the size of [D] that are not in [s]. *)
Theorem logical_filters_are_set_algebra
    (host : Host) (datasets : Datasets.t) (id : string) (D : list record) :
  Datasets.getDataset datasets id = Ok D ->
  (forall ops sets,
      ops <> [] ->
      evaluateAll host datasets id ops = Ok sets ->
      (exists r, findCourses host datasets (Obj [("AND", Arr ops)]) id = Ok r /\
                 r = SetUtils.intersecion sets /\
                 forall i, In i r <-> forall s, In s sets -> In i s) /\
      (exists r, findCourses host datasets (Obj [("OR", Arr ops)]) id = Ok r /\
                 r = SetUtils.union sets /\
                 forall i, In i r <-> exists s, In s sets /\ In i s)) /\
  (forall f s,
      findCourses host datasets f id = Ok s ->
      exists r, findCourses host datasets (Obj [("NOT", f)]) id = Ok r /\
                r = SetUtils.complementary s (seq 0 (List.length D)) /\
                forall i, In i r <-> i < List.length D /\ ~ In i s).
Proof.
  intros HD. split.
  - intros ops sets Hne Hev.
    assert (Hlen : (List.length sets =? 0)%nat = false).
    { apply Nat.eqb_neq. rewrite (mapM_length _ _ _ Hev).
      destruct ops; [congruence | discriminate]. }
    assert (Hsets : sets <> []).
    { intros ->. discriminate Hlen. }
    split.
    + exists (SetUtils.intersecion sets). split; [|split; [reflexivity|]].
      * rewrite findCourses_logical, HD; simpl. rewrite Hev; simpl.
        now rewrite Hlen.
      * intros i. now apply intersecion_In.
    + exists (SetUtils.union sets). split; [|split; [reflexivity|]].
      * rewrite findCourses_logical, HD; simpl. rewrite Hev; simpl.
        now rewrite Hlen.
      * intros i. apply union_In.
  - intros f s Hf.
    exists (SetUtils.complementary s (seq 0 (List.length D))).
    split; [|split; [reflexivity|]].
    + rewrite findCourses_negation by (eapply findCourses_not_array; eauto).
      rewrite HD; simpl. now rewrite Hf.
    + intros i. apply complementary_In.
Qed.

(** C2.  On a loaded dataset of [n] records the empty object evaluates to
    the indices [0 .. n-1]; as an operand of [AND] or [OR] it contributes
    that set and the evaluation goes on; a value with no key that is not an
    object makes the evaluation, and with it the query whose [WHERE] it is,
    fail with the message [WHERE must be an object]. *)
Theorem empty_filter_matches_all
    (host : Host) (datasets : Datasets.t) (id : string) (D : list record) :
  Datasets.getDataset datasets id = Ok D ->
  findCourses host datasets (Obj []) id = Ok (seq 0 (List.length D)) /\
  (forall before after sets1 sets2,
      evaluateAll host datasets id before = Ok sets1 ->
      evaluateAll host datasets id after = Ok sets2 ->
      findCourses host datasets (Obj [("AND", Arr (before ++ Obj [] :: after))]) id
      = Ok (SetUtils.intersecion (sets1 ++ seq 0 (List.length D) :: sets2)) /\
      findCourses host datasets (Obj [("OR", Arr (before ++ Obj [] :: after))]) id
      = Ok (SetUtils.union (sets1 ++ seq 0 (List.length D) :: sets2))) /\
  (forall filter,
      Object_keys filter = Ok [] ->
      (forall properties, filter <> Obj properties) ->
      findCourses host datasets filter id
      = Err (InsightError "WHERE must be an object") /\
      forall query options columns,
        resolves datasets query filter options columns id ->
        performQuery host datasets query
        = Err (InsightError "WHERE must be an object")).
Proof.
  intros HD. split; [|split].
  - rewrite findCourses_empty, HD. reflexivity.
  - intros before after sets1 sets2 H1 H2.
    assert (Hev : evaluateAll host datasets id (before ++ Obj [] :: after)
                  = Ok (sets1 ++ seq 0 (List.length D) :: sets2)).
    { unfold evaluateAll in *. apply mapM_app; [exact H1 |].
      cbn [mapM].
      rewrite findCourses_empty, HD; simpl. now rewrite H2. }
    assert (Hlen : (List.length (sets1 ++ seq 0 (List.length D) :: sets2) =? 0)%nat = false).
    { apply Nat.eqb_neq. rewrite length_app. simpl. lia. }
    split; rewrite findCourses_logical, HD; simpl; rewrite Hev; simpl;
      now rewrite Hlen.
  - intros filter Hk Hobj.
    assert (Hf : findCourses host datasets filter id
                 = Err (InsightError "WHERE must be an object")).
    { destruct filter as [| | b | q | s | l | p]; try discriminate Hk.
      - simpl. now rewrite HD.
      - simpl. now rewrite HD.
      - destruct s as [|c s]; [|discriminate Hk]. simpl. now rewrite HD.
      - destruct l as [|x l]; [|discriminate Hk]. simpl. now rewrite HD.
      - now destruct (Hobj p). }
    split; [exact Hf |].
    intros query options columns Hres.
    rewrite (performQuery_resolved _ _ _ _ _ _ _ Hres), Hf. reflexivity.
Qed.


(** C4, as the code has it.  The target dataset id is what stands before
    the first underscore in the first entry of [OPTIONS.COLUMNS]; when no
    dataset of that id is loaded the query is rejected with the generic
    [InsightError], message [Dataset not exists], not with
    [NotFoundError]. *)
Theorem missing_dataset_is_insight_error
    (host : Host) (datasets : Datasets.t) (query options columns : jsval)
    (keys : list string) (column0 : string) :
  Object_keys query = Ok keys ->
  List.length keys = 2 ->
  has_key "OPTIONS" keys = true ->
  has_key "WHERE" keys = true ->
  get query "OPTIONS" = Ok options ->
  get options "COLUMNS" = Ok columns ->
  get columns "0" = Ok (Str column0) ->
  Datasets.containsDataset datasets (part 0 column0) = false ->
  performQuery host datasets query = Err (InsightError "Dataset not exists") /\
  includes_char "_" (part 0 column0) = false /\
  (column0 = part 0 column0 \/
   exists rest, column0 = (part 0 column0 ++ String "_" rest)%string).
Proof.
  intros Hk Hlen Ho Hw Hopt Hcols Hc Hin. split; [|apply part_0_prefix].
  unfold performQuery. rewrite Hk; simpl. rewrite Hlen, Ho, Hw; simpl.
  rewrite Hopt; simpl. rewrite Hcols; simpl. rewrite Hc; simpl.
  now rewrite Hin.
Qed.

(** C6.  [performQuery] is rejected with [ResultTooLargeError] only by the
    size guard, that is for a query that passed every earlier step and
    projected more than 5000 rows; and a query that passes those steps is
    rejected so when it projected more than 5000 rows, and otherwise
    resolves to all the projected rows (in the requested order). *)
Theorem result_cap
    (host : Host) (datasets : Datasets.t) (query : jsval) :
  (performQuery host datasets query = Err ResultTooLargeError ->
   exists where_ options columns id courseSet projected rows,
     resolves datasets query where_ options columns id /\
     findCourses host datasets where_ id = Ok courseSet /\
     selectColumns host datasets courseSet columns id = Ok projected /\
     orderResults host options columns projected = Ok rows /\
     cap < List.length projected) /\
  (forall where_ options columns id courseSet projected rows,
     resolves datasets query where_ options columns id ->
     findCourses host datasets where_ id = Ok courseSet ->
     selectColumns host datasets courseSet columns id = Ok projected ->
     orderResults host options columns projected = Ok rows ->
     Permutation projected rows /\
     (List.length projected <= cap ->
      performQuery host datasets query = Ok rows) /\
     (cap < List.length projected ->
      performQuery host datasets query = Err ResultTooLargeError)).
Proof.
  split.
  - unfold performQuery. intros H.
    destruct (Object_keys query) as [keys|e] eqn:Hk; simpl in H;
      [|injection H as ->; unfold Object_keys in Hk;
        destruct (own_properties query); discriminate].
    destruct (negb (List.length keys =? 2)%nat) eqn:E1; [discriminate |].
    destruct (negb (has_key "OPTIONS" keys)) eqn:E2; [discriminate |].
    destruct (negb (has_key "WHERE" keys)) eqn:E3; [discriminate |].
    simpl in H.
    destruct (get query "OPTIONS") as [options|] eqn:Hopt; simpl in H; [|discriminate].
    destruct (get options "COLUMNS") as [columns|] eqn:Hcols; simpl in H; [|discriminate].
    destruct (get columns "0") as [column0|] eqn:Hc; simpl in H; [|discriminate].
    destruct (column_part 0 column0) as [id|] eqn:Hid; simpl in H; [|discriminate].
    destruct (negb (Datasets.containsDataset datasets id)) eqn:E4; [discriminate |].
    destruct (get query "WHERE") as [where_|] eqn:Hw; simpl in H; [|discriminate].
    destruct (findCourses host datasets where_ id) as [courseSet|] eqn:Hf;
      simpl in H; [|discriminate].
    destruct (selectColumns host datasets courseSet columns id) as [projected|e] eqn:Hs;
      simpl in H; [|injection H as ->; now apply selectColumns_Err in Hs].
    destruct (orderResults host options columns projected) as [rows|e] eqn:Hord;
      simpl in H; [|injection H as ->; apply orderResults_Err in Hord as (m & Hm);
                     discriminate].
    destruct (cap <? List.length rows)%nat eqn:E5; [|discriminate].
    apply negb_false_iff in E1, E2, E3, E4.
    apply Nat.eqb_eq in E1. apply Nat.ltb_lt in E5.
    destruct column0; try discriminate Hid. injection Hid as Hid.
    exists where_, options, columns, id, courseSet, projected, rows.
    rewrite (Permutation_length (orderResults_Permutation _ _ _ _ _ Hord)).
    repeat split; eauto 10.
  - intros where_ options columns id courseSet projected rows Hres Hf Hs Hord.
    pose proof (orderResults_Permutation _ _ _ _ _ Hord) as Hperm.
    split; [exact Hperm |].
    rewrite (performQuery_resolved _ _ _ _ _ _ _ Hres), Hf; simpl.
    rewrite Hs; simpl. rewrite Hord; simpl.
    rewrite <- (Permutation_length Hperm).
    split; intros H.
    + apply Nat.ltb_ge in H. now rewrite H.
    + apply Nat.ltb_lt in H. now rewrite H.
Qed.

(** C7.  When [performQuery] resolves, the keys of [OPTIONS] are [COLUMNS]
    alone, or [COLUMNS] and [ORDER] and nothing else with the value of
    [ORDER] one of the entries of [COLUMNS].  A query that got as far as
    the projection and breaks this is rejected with an [InsightError]:
    [Invalid key in column] for a key too many, [Value of ORDER not exists
    in COLUMNS] for an [ORDER] that is no column. *)
Theorem options_key_set
    (host : Host) (datasets : Datasets.t) (query : jsval) :
  (forall rows,
     performQuery host datasets query = Ok rows ->
     exists options cols keys,
       get query "OPTIONS" = Ok options /\
       get options "COLUMNS" = Ok (Arr cols) /\
       Object_keys options = Ok keys /\
       (keys = ["COLUMNS"] \/
        ((forall k, In k keys -> k = "COLUMNS" \/ k = "ORDER") /\
         In "ORDER" keys /\
         exists order, get options "ORDER" = Ok (Str order) /\
                       In (Str order) cols))) /\
  (forall where_ options columns id courseSet projected keys,
     resolves datasets query where_ options columns id ->
     findCourses host datasets where_ id = Ok courseSet ->
     selectColumns host datasets courseSet columns id = Ok projected ->
     Object_keys options = Ok keys ->
     (has_key "ORDER" keys = true -> 2 < List.length keys ->
      performQuery host datasets query = Err (InsightError "Invalid key in column")) /\
     (has_key "ORDER" keys = false -> 1 < List.length keys ->
      performQuery host datasets query = Err (InsightError "Invalid key in column")) /\
     (forall order,
        has_key "ORDER" keys = true -> List.length keys <= 2 ->
        get options "ORDER" = Ok order ->
        columns_include host columns order = Ok false ->
        performQuery host datasets query
        = Err (InsightError "Value of ORDER not exists in COLUMNS"))).
Proof.
  split.
  - intros rows H.
    apply performQuery_Ok in H
      as (where_ & options & columns & id & courseSet & projected & Hres & Hf & Hs & Hord & _).
    destruct Hres as (_ & _ & Hopt & Hcols & (c & Hc & _) & _).
    destruct (selectColumns_columns _ _ _ _ _ _ _ Hc ltac:(discriminate) Hs)
      as (cols & -> & Hall).
    assert (Hstr : Forall (fun column => exists s, column = Str s) cols).
    { eapply Forall_impl; [|exact Hall]. intros x (s & -> & _). eauto. }
    destruct (orderResults_Ok _ _ _ _ _ Hstr Hord) as (keys & Hk & Hcase).
    destruct (get_defined _ _ _ Hcols ltac:(discriminate)) as (keys' & Hk' & HC).
    rewrite Hk in Hk'. injection Hk' as <-.
    exists options, cols, keys. repeat split; auto.
    destruct Hcase as [(Hno & Hlen & _) | (Hyes & Hlen & order & Ho & Hin & _)].
    + left. destruct keys as [|k [|k' keys]].
      * destruct HC.
      * destruct HC as [-> | []]. reflexivity.
      * simpl in Hlen. lia.
    + right. apply has_key_In in Hyes. split; [|eauto].
      destruct keys as [|k [|k' [|k'' keys]]].
      * destruct HC.
      * destruct HC as [HC | []], Hyes as [HY | []]. congruence.
      * intros x Hx.
        destruct HC as [HC | [HC | []]], Hyes as [HY | [HY | []]],
                 Hx as [HX | [HX | []]]; subst; try discriminate; auto.
      * simpl in Hlen. lia.
  - intros where_ options columns id courseSet projected keys Hres Hf Hs Hk.
    rewrite (performQuery_resolved _ _ _ _ _ _ _ Hres), Hf; simpl.
    rewrite Hs; simpl. unfold orderResults. rewrite Hk; simpl.
    split; [|split].
    + intros -> Hlen. apply Nat.ltb_lt in Hlen. now rewrite Hlen.
    + intros -> Hlen. apply Nat.ltb_lt in Hlen. now rewrite Hlen.
    + intros order -> Hlen Ho Hinc. apply Nat.ltb_ge in Hlen.
      rewrite Hlen, Ho; simpl. now rewrite Hinc.
Qed.

(** Whenever [ORDER] is a key of [OPTIONS] and [performQuery] resolves,
    the value of [ORDER] is a column name and the rows come in ascending
    order of that column: by magnitude when the column holds numbers, by
    the sequence of character codes, a prefix before its extensions, when
    it holds strings. *)
Lemma resolved_rows_ascend
    (host : Host) (datasets : Datasets.t) (query options : jsval)
    (keys : list string) (rows : list record) :
  performQuery host datasets query = Ok rows ->
  get query "OPTIONS" = Ok options ->
  Object_keys options = Ok keys ->
  In "ORDER" keys ->
  exists order,
    get options "ORDER" = Ok (Str order) /\
    (Forall (holds_number order) rows \/ Forall (holds_string order) rows ->
     StronglySorted (fun a b => ascending (field a order) (field b order)) rows).
Proof.
  intros H Hopt Hk Hin.
  apply performQuery_Ok in H
    as (where_ & options' & columns & id & courseSet & projected & Hres & Hf & Hs & Hord & _).
  destruct Hres as (_ & _ & Hopt' & Hcols & (c & Hc & _) & _).
  rewrite Hopt in Hopt'. injection Hopt' as <-.
  destruct (selectColumns_columns _ _ _ _ _ _ _ Hc ltac:(discriminate) Hs)
    as (cols & -> & Hall).
  assert (Hstr : Forall (fun column => exists s, column = Str s) cols).
  { eapply Forall_impl; [|exact Hall]. intros x (s & -> & _). eauto. }
  destruct (orderResults_Ok _ _ _ _ _ Hstr Hord) as (keys' & Hk' & Hcase).
  rewrite Hk in Hk'. injection Hk' as <-.
  apply has_key_In in Hin.
  destruct Hcase as [(Hno & _) | (_ & _ & order & Ho & _ & Hsort)]; [congruence |].
  exists order. split; [exact Ho |]. intros Hrows.
  apply Sorted_StronglySorted.
  { intros x y z. apply ascending_trans. }
  pose proof (sort_Permutation _ _ _ Hsort) as Hperm.
  assert (Hcmp : forall a b, compareResults host a b options
                             = rule host (field a order) (field b order)).
  { intros a b. unfold compareResults. rewrite Ho. reflexivity. }
  destruct Hrows as [Hnum | Hstrs].
  - refine (sort_Sorted _ (holds_number order) _ _ projected rows _ Hsort).
    + intros x y z (qx & Ex) (qy & Ey). rewrite Hcmp, Ex, Ey. apply rule_numbers.
    + eapply Permutation_Forall; [symmetry; exact Hperm | exact Hnum].
  - refine (sort_Sorted _ (holds_string order) _ _ projected rows _ Hsort).
    + intros x y z (sx & Ex) (sy & Ey). rewrite Hcmp, Ex, Ey. apply rule_strings.
    + eapply Permutation_Forall; [symmetry; exact Hperm | exact Hstrs].
Qed.

(** C8, as the code has it.  A query with [ORDER] whose stages before the
    sort succeed, whose [OPTIONS] has no key besides [COLUMNS] and [ORDER],
    whose [ORDER] is one of the columns and whose projected rows hold one
    type in that column and are no more than the cap, resolves; its rows
    are the projected rows rearranged in ascending order of the column: by
    magnitude when the column holds numbers, by the sequence of the
    character codes, a prefix before its extensions, when it holds strings.
    The character codes are the UTF-16 code units of the host
    ([charCodeAt]): on every column of sequences of code units the sort
    with the comparator of the code resolves with the column rearranged in
    the order of the code units. *)
Theorem ordered_rows_ascend :
  (forall (host : Host) (datasets : Datasets.t) (query where_ options : jsval)
          (cols : list jsval) (id order : string) (keys : list string)
          (courseSet : list nat) (projected : list record),
     resolves datasets query where_ options (Arr cols) id ->
     findCourses host datasets where_ id = Ok courseSet ->
     selectColumns host datasets courseSet (Arr cols) id = Ok projected ->
     Object_keys options = Ok keys -> In "ORDER"%string keys ->
     List.length keys <= 2 ->
     get options "ORDER" = Ok (Str order) -> In (Str order) cols ->
     Forall (holds_number order) projected \/ Forall (holds_string order) projected ->
     List.length projected <= cap ->
     exists rows,
       performQuery host datasets query = Ok rows /\
       Permutation projected rows /\
       StronglySorted (fun a b => ascending (field a order) (field b order)) rows) /\
  (forall column : list (list N),
     exists sorted,
       sort (fun a b => Ok (rule_units a b)) column = Ok sorted /\
       Permutation column sorted /\
       StronglySorted units_le sorted).
Proof.
  split.
  - intros host datasets query where_ options cols id order keys courseSet
           projected Hres Hf Hs Hk Hin Hlen Ho Hcol Hone Hcap.
    assert (Hcmp : forall a b, compareResults host a b options
                               = rule host (field a order) (field b order)).
    { intros a b. unfold compareResults. rewrite Ho. reflexivity. }
    assert (Hgen : forall P : record -> Prop,
              (forall x y, P x -> P y ->
                 exists c, rule host (field x order) (field y order) = Ok c) ->
              (forall x y c, P x -> P y ->
                 rule host (field x order) (field y order) = Ok c ->
                 ((c <= 0)%Z -> ascending (field x order) (field y order)) /\
                 ((0 < c)%Z -> ascending (field y order) (field x order))) ->
              Forall P projected ->
              exists rows,
                performQuery host datasets query = Ok rows /\
                Permutation projected rows /\
                StronglySorted
                  (fun a b => ascending (field a order) (field b order)) rows).
    { intros P Hok Hdec Hall.
      destruct (sort_resolves (fun a b => compareResults host a b options)
                  P projected) as (rows & Hsort); [|exact Hall |].
      { intros x y Hx Hy. rewrite Hcmp. now apply Hok. }
      pose proof (sort_Permutation _ _ _ Hsort) as Hperm.
      exists rows. split; [|split; [exact Hperm |]].
      - rewrite (performQuery_resolved host datasets query where_ options
                   (Arr cols) id Hres).
        rewrite Hf. cbn [rethrow bind]. rewrite Hs. cbn [bind].
        unfold orderResults. rewrite Hk. cbn [rethrow bind].
        apply has_key_In in Hin. rewrite Hin.
        destruct (Nat.ltb_spec 2 (List.length keys)) as [L | _]; [lia |].
        rewrite Ho. cbn [rethrow bind columns_include].
        assert (Hlisted : existsb (same_value (Str order)) cols = true).
        { apply existsb_exists. exists (Str order). split; [exact Hcol |].
          cbn [same_value]. apply String.eqb_refl. }
        rewrite Hlisted. cbn [negb]. rewrite Hsort. cbn [rethrow bind].
        rewrite <- (Permutation_length Hperm).
        destruct (Nat.ltb_spec cap (List.length projected)) as [L | _]; [lia |].
        reflexivity.
      - apply Sorted_StronglySorted.
        { intros x y z. apply ascending_trans. }
        refine (sort_Sorted _ P _ _ projected rows Hall Hsort).
        intros x y c Hx Hy. rewrite Hcmp. now apply Hdec. }
    destruct Hone as [Hnum | Hstr].
    + apply (Hgen (holds_number order)); [| | exact Hnum].
      * intros x y Hx Hy. apply rule_resolves. left. now split.
      * intros x y c (qx & Ex) (qy & Ey). rewrite Ex, Ey. apply rule_numbers.
    + apply (Hgen (holds_string order)); [| | exact Hstr].
      * intros x y Hx Hy. apply rule_resolves. right. now split.
      * intros x y c (sx & Ex) (sy & Ey). rewrite Ex, Ey. apply rule_strings.
  - intros column.
    destruct (sort_resolves (fun a b => Ok (rule_units a b)) (fun _ => True) column)
      as (sorted & Hsort).
    { intros x y _ _. eauto. }
    { apply Forall_forall. auto. }
    exists sorted. split; [exact Hsort |]. split.
    + now apply (sort_Permutation _ _ _ Hsort).
    + apply Sorted_StronglySorted.
      { intros x y z. apply units_le_trans. }
      refine (sort_Sorted _ (fun _ => True) _ _ column sorted _ Hsort).
      * intros x y c _ _ [= <-]. apply rule_units_le.
      * apply Forall_forall. auto.
Qed.

(** The rule of the code for ids.  [addDataset] is rejected with [InsightError]
    [Field id format not valid] for every id that contains an underscore
    or consists of spaces only (the empty id among them), and
    with [Cannot add with duplicated id] for every other id that is in the
    registry; an id that is added is therefore valid and was absent, and
    the failures leave the registry as it was. *)
Theorem addDataset_id_rules
    (extract : string -> result (list (list (option record))))
    (datasets : Datasets.t) (id content : string) (kind : InsightDatasetKind) :
  (includes_char "_" id = true \/ only_spaces id = true ->
   addDataset extract datasets id content kind
   = (Err (InsightError "Field id format not valid"), datasets)) /\
  (includes_char "_" id = false -> only_spaces id = false ->
   Datasets.containsDataset datasets id = true ->
   addDataset extract datasets id content kind
   = (Err (InsightError "Cannot add with duplicated id"), datasets)) /\
  (forall ids datasets',
     addDataset extract datasets id content kind = (Ok ids, datasets') ->
     includes_char "_" id = false /\ only_spaces id = false /\
     Datasets.containsDataset datasets id = false).
Proof.
  unfold addDataset. rewrite isIdValid_spec.
  destruct (includes_char "_" id) eqn:U, (only_spaces id) eqn:S; simpl.
  1-3: (split; [reflexivity |];
        split; [intros; discriminate | intros ids d' H; discriminate H]).
  split; [|split].
  - intros [H | H]; discriminate H.
  - intros _ _ ->. reflexivity.
  - intros ids d' H.
    destruct (Datasets.containsDataset datasets id); [discriminate | auto].
Qed.

(** C10.  For a kind other than [Courses], [addDataset] is rejected with an
    [InsightError] that depends neither on the content nor on what the
    archive reader makes of it, and the registry stays as it was. *)
Theorem other_kinds_are_rejected
    (datasets : Datasets.t) (id : string) (kind : InsightDatasetKind) :
  kind <> Courses ->
  exists m,
    forall extract content,
      addDataset extract datasets id content kind
      = (Err (InsightError m), datasets).
Proof.
  intros Hk. unfold addDataset.
  destruct (negb (isIdValid (Str id))); [eauto |].
  destruct (Datasets.containsDataset datasets id); [eauto |].
  destruct kind; [now destruct Hk | simpl; eauto].
Qed.

(** ** Where the code departs from the specification *)

(** C3: the code at the failing input.  The pattern of [IS] goes to the
    regular-expression engine as it is, the asterisks replaced by [.*]:
    a dot in it stands for any character, so [c.sc*] matches [cxsc310], of
    which [c.sc] is no prefix; and [.*] does not pass a line end, so
    [cpsc*] does not match a string that starts with [cpsc] and goes on
    after a line feed. *)
Theorem wildcard_is_not_literal (host : Host) :
  IS host (Some (SStr "cxsc310")) (Str "c.sc*") = Ok true /\
  String.prefix "c.sc" "cxsc310" = false /\
  IS host (Some (SStr two_lines)) (Str "cpsc*") = Ok false /\
  String.prefix "cpsc" two_lines = true /\
  performQuery host loaded
    (query_of (comparison "IS" "courses_dept" (Str "c.sc*")) ["courses_dept"] None)
  = Ok [[("courses_dept", SStr "cxsc")]; [("courses_dept", SStr "cpsc")]].
Proof. repeat split; reflexivity. Qed.

(** C5: the code at the failing input.  [nope] is no field of the
    records; with a filter that selects no record the query nevertheless
    resolves, to no row, while with a filter that selects some it is
    rejected. *)
Theorem unknown_column_passes_without_rows (host : Host) :
  Forall (fun r => field r "nope" = None) courses /\
  performQuery host loaded
    (query_of (comparison "GT" "courses_avg" (Num 100)) ["courses_nope"] None)
  = Ok [] /\
  performQuery host loaded (query_of (Obj []) ["courses_nope"] None)
  = Err (InsightError "Key in columns not exists in dataset: courses_nope").
Proof. repeat split; repeat constructor. Qed.

(** C9: the code at the failing input.  The id made of one tabulation is
    white space and nothing else, so nothing is left of it after trimming
    and the specification refuses it; [isIdValid] takes it for valid and
    [addDataset] installs a dataset under it.  The loop of [isIdValid]
    looks for a character other than the space U+0020, so that it refuses
    the id made of one space and accepts every id of white space that has
    another white-space character. *)
Theorem blank_id_is_added :
  blank tab = true /\
  isIdValid (Str tab) = true /\
  addDataset one_section Datasets.empty tab "content" Courses
  = (Ok [tab], [(tab, [section "cpsc" 90])]) /\
  addDataset one_section Datasets.empty " " "content" Courses
  = (Err (InsightError "Field id format not valid"), Datasets.empty) /\
  (forall id, blank id = true -> only_spaces id = false ->
              isIdValid (Str id) = true).
Proof.
  repeat split; try reflexivity.
  intros id Hb Hs. rewrite isIdValid_spec, (blank_no_underscore id Hb), Hs.
  reflexivity.
Qed.

(** ** Counterexamples *)

(** C4: on an empty registry the rejection is an [InsightError], and so no
    [NotFoundError]. *)
Lemma missing_dataset_is_no_NotFoundError :
  performQuery plain_host Datasets.empty (query_of (Obj []) ["courses_avg"] None)
  = Err (InsightError "Dataset not exists") /\
  forall m,
    performQuery plain_host Datasets.empty (query_of (Obj []) ["courses_avg"] None)
    <> Err (NotFoundError m).
Proof. split; [reflexivity | intros m H; discriminate H]. Qed.

(** C8: the code orders [U+FF5E] after [U+1F600], whose two code units
    begin with the smaller [0xD83D], although its code point is the
    smaller one: the sorted column is not in the order of the code
    points. *)
Lemma code_unit_order_is_not_code_point_order :
  code_points [65374%N] = [65374%N] /\
  code_points [55357%N; 56832%N] = [128512%N] /\
  points_le [65374%N] [55357%N; 56832%N] /\
  rule_units [65374%N] [55357%N; 56832%N] = 1%Z /\
  exists sorted,
    sort (fun a b => Ok (rule_units a b)) [[65374%N]; [55357%N; 56832%N]]
    = Ok sorted /\
    ~ StronglySorted points_le sorted.
Proof.
  split; [reflexivity |]. split; [reflexivity |]. split.
  { unfold points_le. cbn. apply units_less. reflexivity. }
  split; [reflexivity |].
  exists [[55357%N; 56832%N]; [65374%N]]. split; [reflexivity |].
  intros H. inversion H as [|? ? _ Hall]; subst.
  apply Forall_inv in Hall. unfold points_le in Hall. cbn in Hall.
  inversion Hall as [| ? ? ? ? Hlt | ? ? ? Hrest]; subst.
  - revert Hlt. cbv. discriminate.
Qed.


(** ** Witnesses *)

Lemma logical_filters_witness :
  (exists r,
     findCourses plain_host loaded
       (Obj [("AND", Arr [comparison "GT" "courses_avg" (Num 80);
                          comparison "LT" "courses_avg" (Num 93)])]) "courses"
     = Ok r /\
     r = SetUtils.intersecion [[0; 2]; [1; 2]] /\
     forall i, In i r <-> forall s, In s [[0; 2]; [1; 2]] -> In i s) /\
  (exists r,
     findCourses plain_host loaded
       (Obj [("OR", Arr [comparison "GT" "courses_avg" (Num 80);
                         comparison "LT" "courses_avg" (Num 93)])]) "courses"
     = Ok r /\
     r = SetUtils.union [[0; 2]; [1; 2]] /\
     forall i, In i r <-> exists s, In s [[0; 2]; [1; 2]] /\ In i s) /\
  (exists r,
     findCourses plain_host loaded
       (Obj [("NOT", comparison "GT" "courses_avg" (Num 80))]) "courses"
     = Ok r /\
     r = SetUtils.complementary [0; 2] (seq 0 (List.length courses)) /\
     forall i, In i r <-> i < List.length courses /\ ~ In i [0; 2]).
Proof.
  destruct (logical_filters_are_set_algebra plain_host loaded "courses" courses
              eq_refl) as [HL HN].
  destruct (HL [comparison "GT" "courses_avg" (Num 80);
                comparison "LT" "courses_avg" (Num 93)]
               [[0; 2]; [1; 2]]) as [HA HO];
    [discriminate | reflexivity |].
  split; [exact HA | split; [exact HO |]].
  apply HN. reflexivity.
Defined.

Lemma empty_filter_witness :
  findCourses plain_host loaded (Obj []) "courses" = Ok [0; 1; 2] /\
  findCourses plain_host loaded
    (Obj [("AND", Arr [comparison "GT" "courses_avg" (Num 80); Obj []])]) "courses"
  = Ok (SetUtils.intersecion [[0; 2]; [0; 1; 2]]) /\
  findCourses plain_host loaded (Arr []) "courses"
  = Err (InsightError "WHERE must be an object") /\
  performQuery plain_host loaded (query_of (Arr []) ["courses_avg"] None)
  = Err (InsightError "WHERE must be an object").
Proof.
  destruct (empty_filter_matches_all plain_host loaded "courses" courses eq_refl)
    as (H1 & H2 & H3).
  split; [exact H1 |].
  split; [exact (proj1 (H2 [comparison "GT" "courses_avg" (Num 80)] []
                           [[0; 2]] [] eq_refl eq_refl)) |].
  destruct (H3 (Arr []) eq_refl) as [H4 H5]; [discriminate |].
  split; [exact H4 |].
  apply H5 with (options := options_of ["courses_avg"] None)
                (columns := Arr [Str "courses_avg"]).
  apply (resolves_query_of loaded (Arr []) "courses_avg" [] None). reflexivity.
Defined.

Lemma missing_dataset_witness :
  performQuery plain_host Datasets.empty (query_of (Obj []) ["rooms_seats"] None)
  = Err (InsightError "Dataset not exists").
Proof.
  apply (missing_dataset_is_insight_error plain_host Datasets.empty
           (query_of (Obj []) ["rooms_seats"] None)
           (options_of ["rooms_seats"] None) (Arr [Str "rooms_seats"])
           ["WHERE"; "OPTIONS"] "rooms_seats");
    reflexivity.
Defined.

Lemma result_cap_witness :
  performQuery plain_host loaded
    (query_of (comparison "GT" "courses_avg" (Num 80)) ["courses_dept"]
              (Some "courses_dept"))
  = Ok [[("courses_dept", SStr "cpsc")]; [("courses_dept", SStr "math")]].
Proof.
  assert (Hres : resolves loaded
                   (query_of (comparison "GT" "courses_avg" (Num 80))
                             ["courses_dept"] (Some "courses_dept"))
                   (comparison "GT" "courses_avg" (Num 80))
                   (options_of ["courses_dept"] (Some "courses_dept"))
                   (Arr [Str "courses_dept"]) "courses").
  { apply (resolves_query_of loaded _ "courses_dept" [] (Some "courses_dept")).
    reflexivity. }
  destruct (proj2 (result_cap plain_host loaded _) _ _ _ _
              [0; 2]
              [[("courses_dept", SStr "math")]; [("courses_dept", SStr "cpsc")]]
              [[("courses_dept", SStr "cpsc")]; [("courses_dept", SStr "math")]]
              Hres eq_refl eq_refl eq_refl)
    as (_ & Hle & _).
  apply Hle. apply Nat.leb_le. reflexivity.
Defined.

Lemma options_key_set_witness :
  (exists options cols keys,
     get (query_of (Obj []) ["courses_avg"; "courses_dept"] (Some "courses_dept"))
         "OPTIONS" = Ok options /\
     get options "COLUMNS" = Ok (Arr cols) /\
     Object_keys options = Ok keys /\
     (keys = ["COLUMNS"] \/
      ((forall k, In k keys -> k = "COLUMNS" \/ k = "ORDER") /\
       In "ORDER" keys /\
       exists order, get options "ORDER" = Ok (Str order) /\ In (Str order) cols))) /\
  performQuery plain_host loaded
    (query_of (Obj []) ["courses_avg"] (Some "courses_dept"))
  = Err (InsightError "Value of ORDER not exists in COLUMNS").
Proof.
  split.
  - apply (proj1 (options_key_set plain_host loaded _)
             [[("courses_avg", SNum 90); ("courses_dept", SStr "cpsc")];
              [("courses_avg", SNum 70); ("courses_dept", SStr "cxsc")];
              [("courses_avg", SNum 95); ("courses_dept", SStr "math")]]).
    reflexivity.
  - assert (Hres : resolves loaded
                     (query_of (Obj []) ["courses_avg"] (Some "courses_dept"))
                     (Obj []) (options_of ["courses_avg"] (Some "courses_dept"))
                     (Arr [Str "courses_avg"]) "courses").
    { apply (resolves_query_of loaded _ "courses_avg" [] (Some "courses_dept")).
      reflexivity. }
    destruct (proj2 (options_key_set plain_host loaded _) _ _ _ _
                [0; 1; 2]
                [[("courses_avg", SNum 95)]; [("courses_avg", SNum 70)];
                 [("courses_avg", SNum 90)]]
                ["COLUMNS"; "ORDER"] Hres eq_refl eq_refl eq_refl)
      as (_ & _ & H).
    apply (H (Str "courses_dept")); reflexivity.
Defined.

Lemma ordered_rows_witness :
  exists rows,
    performQuery plain_host loaded
      (query_of (Obj []) ["courses_avg"; "courses_dept"] (Some "courses_dept"))
    = Ok rows /\
    Permutation
      [[("courses_avg", SNum 95); ("courses_dept", SStr "math")];
       [("courses_avg", SNum 70); ("courses_dept", SStr "cxsc")];
       [("courses_avg", SNum 90); ("courses_dept", SStr "cpsc")]] rows /\
    StronglySorted
      (fun a b => ascending (field a "courses_dept") (field b "courses_dept")) rows.
Proof.
  apply (proj1 ordered_rows_ascend plain_host loaded
           (query_of (Obj []) ["courses_avg"; "courses_dept"] (Some "courses_dept"))
           (Obj [])
           (options_of ["courses_avg"; "courses_dept"] (Some "courses_dept"))
           (map Str ["courses_avg"; "courses_dept"]) "courses" "courses_dept"
           ["COLUMNS"; "ORDER"] [0; 1; 2]).
  - apply (resolves_query_of loaded (Obj []) "courses_avg" ["courses_dept"]).
    reflexivity.
  - reflexivity.
  - reflexivity.
  - reflexivity.
  - right. now left.
  - cbn. lia.
  - reflexivity.
  - right. now left.
  - right. repeat constructor; eexists; reflexivity.
  - unfold cap. cbn [List.length]. lia.
Defined.

Lemma addDataset_id_rules_witness :
  addDataset one_section loaded "a_b" "content" Courses
  = (Err (InsightError "Field id format not valid"), loaded) /\
  addDataset one_section loaded "  " "content" Courses
  = (Err (InsightError "Field id format not valid"), loaded) /\
  addDataset one_section loaded "courses" "content" Courses
  = (Err (InsightError "Cannot add with duplicated id"), loaded) /\
  (includes_char "_" "rooms" = false /\ only_spaces "rooms" = false /\
   Datasets.containsDataset loaded "rooms" = false).
Proof.
  split; [|split; [|split]].
  - apply (proj1 (addDataset_id_rules one_section loaded "a_b" "content" Courses)).
    left. reflexivity.
  - apply (proj1 (addDataset_id_rules one_section loaded "  " "content" Courses)).
    right. reflexivity.
  - apply (proj1 (proj2 (addDataset_id_rules one_section loaded "courses" "content"
                           Courses))); reflexivity.
  - apply (proj2 (proj2 (addDataset_id_rules one_section loaded "rooms" "content"
                           Courses))
             ["courses"; "rooms"]
             [("courses", courses); ("rooms", [section "cpsc" 90])]).
    reflexivity.
Defined.

Lemma other_kinds_witness :
  exists m,
    forall extract content,
      addDataset extract loaded "rooms" content Rooms
      = (Err (InsightError m), loaded).
Proof.
  apply (other_kinds_are_rejected loaded "rooms" Rooms). discriminate.
Defined.
(** ** Examples of the specification *)

Example gt_eq_lt :
  findCourses plain_host loaded (comparison "GT" "courses_avg" (Num 90)) "courses" = Ok [0] /\
  findCourses plain_host loaded (comparison "EQ" "courses_avg" (Num 90)) "courses" = Ok [2] /\
  findCourses plain_host loaded (comparison "LT" "courses_avg" (Num 90)) "courses" = Ok [1].
Proof. repeat split; reflexivity. Qed.

Example wildcards :
  IS plain_host (Some (SStr "cpsc310")) (Str "cpsc*") = Ok true /\
  IS plain_host (Some (SStr "cpsc")) (Str "cpsc*") = Ok true /\
  IS plain_host (Some (SStr "x-cpsc310")) (Str "cpsc*") = Ok false /\
  IS plain_host (Some (SStr "cpsc310")) (Str "*310") = Ok true /\
  IS plain_host (Some (SStr "cpsc310x")) (Str "*310") = Ok false /\
  IS plain_host (Some (SStr "cpsc310")) (Str "*31*") = Ok true /\
  IS plain_host (Some (SStr "cpsc310")) (Str "cp*10")
  = Err (InsightError "Invalid regex filter value").
Proof. repeat split; reflexivity. Qed.

Example sorted_numbers :
  performQuery plain_host loaded (query_of (Obj []) ["courses_avg"] (Some "courses_avg"))
  = Ok [[("courses_avg", SNum 70)]; [("courses_avg", SNum 90)];
        [("courses_avg", SNum 95)]].
Proof. reflexivity. Qed.

Example sorted_strings :
  sort (fun a b => rule plain_host (Some (SStr a)) (Some (SStr b))) ["b"; "a"; "ab"]
  = Ok ["a"; "ab"; "b"].
Proof. reflexivity. Qed.

Example mixed_columns :
  performQuery plain_host loaded
    (query_of (Obj []) ["courses_avg"; "rooms_seats"] None)
  = Err (InsightError "Cannot query from two datasets").
Proof. reflexivity. Qed.

Example add_twice :
  addDataset one_section (snd (addDataset one_section Datasets.empty "courses" "content" Courses))
             "courses" "content" Courses
  = (Err (InsightError "Cannot add with duplicated id"),
     [("courses", [section "cpsc" 90])]) /\
  fst (addDataset one_section Datasets.empty "" "content" Courses)
  = Err (InsightError "Field id format not valid") /\
  fst (addDataset one_section Datasets.empty "a_b" "content" Courses)
  = Err (InsightError "Field id format not valid").
Proof. repeat split; reflexivity. Qed.

(** A dataset of [n] sections projects [n] rows: 5000 pass the guard, 5001
    do not. *)
Example five_thousand :
  performQuery plain_host [("courses", List.repeat (section "cpsc" 90) cap)]
    (query_of (Obj []) ["courses_dept"] None)
  = Ok (List.repeat [("courses_dept", SStr "cpsc")] cap) /\
  performQuery plain_host [("courses", List.repeat (section "cpsc" 90) (S cap))]
    (query_of (Obj []) ["courses_dept"] None)
  = Err ResultTooLargeError.
Proof. split; vm_compute; reflexivity. Qed.

(* ================================================================== *)
(** * Properties of the code beyond the specification *)

(** ** The shape of the filters that evaluate *)

Lemma mapping_Some (host : Host) (comparator type : string)
    (f : option scalar -> jsval -> result bool) :
  mapping host comparator = Some (type, f) ->
  (comparator = "IS" /\ type = "string") \/
  ((comparator = "EQ" \/ comparator = "LT" \/ comparator = "GT") /\ type = "number").
Proof.
  unfold mapping.
  destruct (comparator =? "IS") eqn:E1;
    [apply String.eqb_eq in E1; intros [= <- _]; auto |].
  destruct (comparator =? "EQ") eqn:E2;
    [apply String.eqb_eq in E2; intros [= <- _]; auto |].
  destruct (comparator =? "LT") eqn:E3;
    [apply String.eqb_eq in E3; intros [= <- _]; auto 6 |].
  destruct (comparator =? "GT") eqn:E4;
    [apply String.eqb_eq in E4; intros [= <- _]; auto 6 | discriminate].
Qed.

Lemma compareCourses_shape (host : Host) (dataset : list record)
    (all : list nat) (comparator : string) (content : jsval) (id : string)
    (s : list nat) :
  compareCourses host dataset all comparator content id = Ok s ->
  exists key value,
    content = Obj [(key, value)] /\
    ((comparator = "IS" /\ typeof value = "string") \/
     ((comparator = "EQ" \/ comparator = "LT" \/ comparator = "GT") /\
      typeof value = "number")) /\
    Regex.test Regex.qualified_name key = true /\ part 0 key = id.
Proof.
  unfold compareCourses. intros H.
  apply bind_Ok in H as (ks & Hks & H).
  destruct (negb (List.length ks =? 1)%nat) eqn:E; [discriminate |].
  apply negb_false_iff, Nat.eqb_eq in E.
  destruct ks as [|k [|k' ks]]; try discriminate E. cbn [nth] in H.
  apply bind_Ok in H as (v & Hv & H).
  destruct (negb (Regex.test Regex.qualified_name k)) eqn:Eq; [discriminate |].
  destruct (negb (part 0 k =? id)) eqn:Ei; [discriminate |].
  apply negb_false_iff in Eq. apply negb_false_iff, String.eqb_eq in Ei.
  unfold filterCourses in H. apply bind_Ok in H as (first & _ & H).
  destruct (negb (has_key _ _)); [discriminate |].
  destruct (mapping host comparator) as [[type f]|] eqn:Em; [|discriminate].
  destruct (negb (typeof v =? type)) eqn:Et; [discriminate |].
  apply negb_false_iff, String.eqb_eq in Et.
  apply mapping_Some in Em.
  rewrite (sole_property_get _ _ Hks) in Hv. injection Hv as Hv.
  destruct content as [| | b | q | t | l | p]; try discriminate Hks.
  - (* a string: its only key is an index, no qualified name *)
    unfold Object_keys in Hks. simpl in Hks.
    destruct t as [|c [|d t]]; try discriminate Hks.
    injection Hks as <-. discriminate Eq.
  - unfold Object_keys in Hks. simpl in Hks.
    destruct l as [|x [|y l]]; try discriminate Hks.
    injection Hks as <-. discriminate Eq.
  - unfold Object_keys in Hks. simpl in Hks.
    destruct p as [|[k1 x] [|kv p]]; try discriminate Hks.
    injection Hks as <-. subst x.
    exists k1, v. repeat split; auto.
    destruct Em as [[-> ->] | [Hc ->]]; auto.
Qed.

Lemma findCourses_shape_elements
    (host : Host) (datasets : Datasets.t) (id : string) (v : jsval) :
  (forall s, findCourses host datasets v id = Ok s -> filter_shape id v) /\
  (forall ops, v = Arr ops ->
     Forall (fun f => forall s, findCourses host datasets f id = Ok s ->
                                filter_shape id f) ops).
Proof.
  induction v as [| | b | q | t | l IH | p IH] using jsval_induction;
    (split; [intros s H | intros ops0 E; try discriminate E]).
  - simpl in H. destruct (Datasets.getDataset datasets id); discriminate.
  - simpl in H. destruct (Datasets.getDataset datasets id); discriminate.
  - simpl in H. destruct (Datasets.getDataset datasets id); discriminate.
  - simpl in H. destruct (Datasets.getDataset datasets id); discriminate.
  - cbn [findCourses] in H. apply bind_Ok in H as (D & _ & H).
    apply bind_Ok in H as (ks & Hks & H).
    destruct (List.length ks =? 0)%nat eqn:E0.
    + destruct ks; [|discriminate E0].
      unfold Object_keys in Hks. simpl in Hks.
      destruct t; [discriminate H | discriminate Hks].
    + destruct (1 <? List.length ks)%nat; [discriminate |].
      apply compareCourses_shape in H as (k & v & Hc & _). discriminate Hc.
  - now apply findCourses_array in H.
  - injection E as <-. eapply Forall_impl; [|exact IH]. intros f [Hf _]. exact Hf.
  - destruct p as [|[k content] p].
    + constructor.
    + cbn [findCourses] in H. apply bind_Ok in H as (D & _ & H).
      apply bind_Ok in H as (ks & Hks & H).
      unfold Object_keys in Hks. cbn [own_properties map fst] in Hks.
      injection Hks as <-. cbn [List.length Nat.eqb] in H.
      destruct p as [|kv p]; [|discriminate H].
      cbn [List.length Nat.ltb Nat.leb nth] in H.
      inversion IH as [|? ? [IHc IHe] _]; subst. cbn [snd] in IHc, IHe.
      destruct content as [| | b | q | t | ops | props];
        try (destruct (k =? "NOT") eqn:En;
             [apply String.eqb_eq in En; subst k;
              apply bind_Ok in H as (s' & Hs' & _); apply shape_not; eauto
             |apply compareCourses_shape in H as (key & v & Hc & Hop & Hq & Hi);
              try discriminate Hc; injection Hc as ->;
              now apply shape_compare]).
      apply bind_Ok in H as (sets & Hsets & H).
      rewrite each_evaluateAll in Hsets.
      destruct (List.length sets =? 0)%nat eqn:El; [discriminate |].
      assert (Hne : ops <> []).
      { intros ->. unfold evaluateAll in Hsets. simpl in Hsets.
        injection Hsets as <-. discriminate El. }
      assert (Hall : Forall (filter_shape id) ops).
      { apply evaluateAll_Forall2 in Hsets. specialize (IHe ops eq_refl).
        clear -Hsets IHe. induction Hsets as [|f s0 ops sets Hf _ IH2];
          constructor.
        - inversion IHe; subst; eauto.
        - apply IH2. now inversion IHe. }
      destruct (k =? "OR") eqn:Eor.
      * apply String.eqb_eq in Eor. subst k. apply shape_logic; auto.
      * destruct (k =? "AND") eqn:Eand; [|discriminate].
        apply String.eqb_eq in Eand. subst k. apply shape_logic; auto.
Qed.

(** X1.  A filter that evaluates is a filter of the query language: the
    empty object, [AND] or [OR] over a non-empty array of filters, [NOT]
    over a filter, or one of [IS], [EQ], [LT], [GT] over an object with one
    qualified key of the target dataset and a value of the operator's type.
    Every other document, arrays and scalars among them, is rejected. *)
Theorem findCourses_filter_shape
    (host : Host) (datasets : Datasets.t) (id : string) (filter : jsval)
    (s : list nat) :
  findCourses host datasets filter id = Ok s -> filter_shape id filter.
Proof. apply findCourses_shape_elements. Qed.

(** ** The registry operations *)



Lemma assoc_In {A : Type} (k : string) (l : list (string * A)) (v : A) :
  assoc k l = Some v -> In (k, v) l.
Proof.
  induction l as [|[k' v'] l IH]; simpl; [discriminate |].
  destruct (k =? k') eqn:E.
  - apply String.eqb_eq in E. subst. intros [= ->]. now left.
  - intros H. right. now apply IH.
Qed.

Lemma assoc_app {A : Type} (k : string) (l1 l2 : list (string * A)) :
  assoc k (l1 ++ l2)
  = match assoc k l1 with Some v => Some v | None => assoc k l2 end.
Proof.
  induction l1 as [|[k' v'] l1 IH]; simpl; [reflexivity |].
  destruct (k =? k'); [reflexivity | exact IH].
Qed.

(** What a resolved [addDataset] has gone through. *)
Lemma addDataset_Ok
    (extract : string -> result (list (list (option record))))
    (datasets datasets' : Datasets.t) (id content : string)
    (kind : InsightDatasetKind) (ids : list string) :
  addDataset extract datasets id content kind = (Ok ids, datasets') ->
  isIdValid (Str id) = true /\
  Datasets.containsDataset datasets id = false /\
  kind = Courses /\
  exists courseLists,
    extract content = Ok courseLists /\
    let dataset :=
      flat_map (fun courseList =>
                  match convertList courseList with
                  | Some temp => temp
                  | None => []
                  end) courseLists in
    dataset <> [] /\
    datasets' = datasets ++ [(id, dataset)] /\
    ids = Datasets.getIds datasets ++ [id].
Proof.
  unfold addDataset.
  destruct (isIdValid (Str id)); [|discriminate].
  destruct (Datasets.containsDataset datasets id); [discriminate |].
  destruct (negb (kind_eqb kind Courses)) eqn:Ek; [discriminate |].
  destruct (extract content) as [courseLists|e']; [|discriminate].
  cbn [negb].
  destruct (List.length _ =? 0)%nat eqn:El; [discriminate |].
  intros [= <- <-]. repeat split; [now destruct kind |].
  exists courseLists. repeat split.
  - intros E. rewrite E in El. discriminate El.
  - unfold Datasets.addDataset, Datasets.getIds. now rewrite map_app.
Qed.

(** X2.  A rejection of [addDataset] is an [InsightError] and leaves the
    registry as it was, whatever went wrong: the id, the kind, the archive
    or an archive without a single convertible course list. *)
Theorem addDataset_rejection
    (extract : string -> result (list (list (option record))))
    (datasets : Datasets.t) (id content : string) (kind : InsightDatasetKind)
    (e : error) :
  fst (addDataset extract datasets id content kind) = Err e ->
  (exists m, e = InsightError m) /\
  snd (addDataset extract datasets id content kind) = datasets.
Proof.
  unfold addDataset.
  destruct (negb (isIdValid (Str id))); [simpl; intros [= <-]; eauto |].
  destruct (Datasets.containsDataset datasets id); [simpl; intros [= <-]; eauto |].
  destruct (negb (kind_eqb kind Courses)); [simpl; intros [= <-]; eauto |].
  destruct (extract content) as [courseLists|e']; [|simpl; intros [= <-]; eauto].
  destruct (List.length _ =? 0)%nat; simpl; [intros [= <-]; eauto | discriminate].
Qed.


(** X4.  [removeDataset] rejects an id with an underscore, or made of
    spaces only, with the [InsightError] [Id format not right] before it
    looks at the registry; a rejection leaves the registry as it was; and
    when it resolves, it resolves to the id it was given. *)
Theorem removeDataset_settles (datasets : Datasets.t) (id : string) :
  (includes_char "_" id = true \/ only_spaces id = true ->
   removeDataset datasets id = (Err (InsightError "Id format not right"), datasets)) /\
  (forall e, fst (removeDataset datasets id) = Err e ->
             snd (removeDataset datasets id) = datasets) /\
  (forall id', fst (removeDataset datasets id) = Ok id' ->
               id' = id /\ includes_char "_" id = false /\ only_spaces id = false).
Proof.
  unfold removeDataset. rewrite isIdValid_spec.
  destruct (includes_char "_" id), (only_spaces id); simpl;
    try (repeat split; auto; intros; discriminate).
  repeat split; try (intros [H | H]; discriminate H).
  - intros e. destruct (Datasets.removeDataset datasets id); simpl;
      [discriminate | reflexivity].
  - destruct (Datasets.removeDataset datasets id); simpl in *; congruence.
Qed.

Lemma describeDataset_populated (datasets : Datasets.t) (name : string) :
  populated datasets -> In name (Datasets.getIds datasets) ->
  exists first rest,
    Datasets.getDataset datasets name = Ok (first :: rest) /\
    describeDataset datasets name
    = Ok {| InsightDataset.id := name;
            InsightDataset.kind :=
              if has_key "dept" (record_keys first) then Courses else Rooms;
            InsightDataset.numRows := S (List.length rest) |}.
Proof.
  intros Hpop Hin. unfold Datasets.getIds in Hin.
  apply has_key_In in Hin. rewrite assoc_has_key in Hin.
  destruct (assoc name datasets) as [records|] eqn:E; [|discriminate].
  pose proof (assoc_In _ _ _ E) as Hentry.
  unfold populated in Hpop. rewrite Forall_forall in Hpop.
  specialize (Hpop _ Hentry). simpl in Hpop.
  destruct records as [|first rest]; [now destruct Hpop |].
  exists first, rest. unfold describeDataset, Datasets.getDataset.
  rewrite E. split; reflexivity.
Qed.

Lemma describeAll_populated (datasets : Datasets.t) (names : list string) :
  populated datasets ->
  incl names (Datasets.getIds datasets) ->
  exists entries,
    mapM (describeDataset datasets) names = Ok entries /\
    map InsightDataset.id entries = names /\
    Forall (fun entry =>
              exists first rest,
                Datasets.getDataset datasets (InsightDataset.id entry)
                = Ok (first :: rest) /\
                InsightDataset.numRows entry = List.length (first :: rest) /\
                (InsightDataset.kind entry = Courses <->
                 In "dept" (record_keys first))) entries.
Proof.
  intros Hpop. induction names as [|name names IH]; intros Hincl.
  - exists []. repeat split; constructor.
  - destruct (describeDataset_populated datasets name Hpop) as (first & rest & Hg & Hd).
    { apply Hincl. now left. }
    destruct IH as (entries & Hm & Hids & Hall).
    { intros x Hx. apply Hincl. now right. }
    eexists. cbn [mapM]. rewrite Hd, Hm. cbn [bind]. split; [reflexivity |].
    split; [simpl; now rewrite Hids |].
    constructor; [|exact Hall].
    exists first, rest. cbn. repeat split; auto.
    + rewrite <- has_key_In. destruct (has_key "dept" (record_keys first));
        [reflexivity | discriminate].
    + rewrite <- has_key_In. now intros ->.
Qed.

(** X5.  [listDatasets] resolves on a registry whose datasets are not
    empty, with one entry per id in the order of the registry; the entry
    counts the records of the dataset, and its kind is [Courses] exactly
    when the first record has a [dept] field, [Rooms] otherwise.  On a
    registry with an empty dataset the promise is rejected by the
    exception of [Object.keys(undefined)]. *)
Theorem listDatasets_entries (datasets : Datasets.t) :
  (populated datasets ->
   exists entries,
     listDatasets datasets = Ok entries /\
     map InsightDataset.id entries = Datasets.getIds datasets /\
     Forall (fun entry =>
               exists first rest,
                 Datasets.getDataset datasets (InsightDataset.id entry)
                 = Ok (first :: rest) /\
                 InsightDataset.numRows entry = List.length (first :: rest) /\
                 (InsightDataset.kind entry = Courses <->
                  In "dept" (record_keys first))) entries) /\
  (forall name, In name (Datasets.getIds datasets) ->
                Datasets.getDataset datasets name = Ok [] ->
                listDatasets datasets = Err not_an_object).
Proof.
  split.
  - intros Hpop. apply describeAll_populated; [exact Hpop | apply incl_refl].
  - intros name Hin He. unfold listDatasets.
    assert (H : forall names, incl names (Datasets.getIds datasets) ->
              In name names ->
              mapM (describeDataset datasets) names = Err not_an_object).
    { induction names as [|x names IH]; intros Hincl Hn; [destruct Hn |].
      cbn [mapM].
      assert (Hx : exists records, Datasets.getDataset datasets x = Ok records).
      { apply containsDataset_getDataset. unfold Datasets.containsDataset.
        apply has_key_In. apply Hincl. now left. }
      destruct Hx as (records & Hx). unfold describeDataset at 1. rewrite Hx.
      cbn [bind]. destruct records as [|first rest]; [reflexivity |].
      cbn [record_at nth_error bind].
      destruct Hn as [-> | Hn]; [congruence |].
      rewrite IH; [reflexivity | | exact Hn].
      intros y Hy. apply Hincl. now right. }
    apply H; [apply incl_refl | exact Hin].
Qed.

Lemma describeDataset_app (datasets extra : Datasets.t) (name : string)
    (entry : InsightDataset.t) :
  describeDataset datasets name = Ok entry ->
  describeDataset (datasets ++ extra) name = Ok entry.
Proof.
  unfold describeDataset, Datasets.getDataset. rewrite assoc_app.
  destruct (assoc name datasets); [auto | discriminate].
Qed.

Lemma mapM_ext_Ok {A B : Type} (f g : A -> result B) (l : list A) (r : list B) :
  (forall x y, In x l -> f x = Ok y -> g x = Ok y) ->
  mapM f l = Ok r -> mapM g l = Ok r.
Proof.
  revert r; induction l as [|x l IH]; intros r Hfg H; [exact H |].
  cbn [mapM] in *. apply bind_Ok in H as (y & Hy & H).
  apply bind_Ok in H as (ys & Hys & H). injection H as <-.
  rewrite (Hfg x y (or_introl eq_refl) Hy). cbn [bind].
  rewrite (IH ys); [reflexivity | | exact Hys].
  intros x' y' Hx'. apply Hfg. now right.
Qed.

(** X6.  After [addDataset] has resolved on a registry of non-empty
    datasets, [listDatasets] lists what it listed before, unchanged and in
    the same order, and then the new dataset, with at least one row; the
    datasets of the new registry are again not empty. *)
Theorem listDatasets_after_addDataset
    (extract : string -> result (list (list (option record))))
    (datasets datasets' : Datasets.t) (id content : string)
    (kind : InsightDatasetKind) (ids : list string) :
  populated datasets ->
  addDataset extract datasets id content kind = (Ok ids, datasets') ->
  populated datasets' /\
  exists entries added,
    listDatasets datasets = Ok entries /\
    listDatasets datasets' = Ok (entries ++ [added]) /\
    InsightDataset.id added = id /\
    0 < InsightDataset.numRows added.
Proof.
  intros Hpop H. apply addDataset_Ok in H
    as (_ & Hnew & _ & courseLists & _ & Hne & -> & _).
  set (dataset := flat_map _ courseLists) in *.
  assert (Hpop' : populated (datasets ++ [(id, dataset)])).
  { apply Forall_app. split; [exact Hpop |]. now repeat constructor. }
  split; [exact Hpop' |].
  destruct (describeAll_populated datasets _ Hpop (incl_refl _))
    as (entries & Hl & _).
  destruct (describeDataset_populated (datasets ++ [(id, dataset)]) id Hpop')
    as (first & rest & Hg & Hd).
  { unfold Datasets.getIds. rewrite map_app. apply in_or_app. right. now left. }
  exists entries,
    {| InsightDataset.id := id;
       InsightDataset.kind :=
         if has_key "dept" (record_keys first) then Courses else Rooms;
       InsightDataset.numRows := S (List.length rest) |}.
  split; [exact Hl |]. split; [|split; [reflexivity | simpl; lia]].
  unfold listDatasets in *. unfold Datasets.getIds. rewrite map_app.
  apply mapM_app.
  - eapply mapM_ext_Ok; [|exact Hl]. intros x y _. apply describeDataset_app.
  - cbn [map mapM fst]. rewrite Hd. reflexivity.
Qed.

Lemma getIds_filter_NoDup (keep : string * list record -> bool)
    (datasets : Datasets.t) :
  NoDup (Datasets.getIds datasets) ->
  NoDup (Datasets.getIds (filter keep datasets)).
Proof.
  unfold Datasets.getIds.
  induction datasets as [|entry rest IH]; cbn [filter map]; intros Hnd;
    [constructor |].
  apply NoDup_cons_iff in Hnd. destruct Hnd as [Hfresh Hrest].
  destruct (keep entry); cbn [map]; [|now apply IH].
  apply NoDup_cons_iff. split; [|now apply IH].
  intros Hin. apply Hfresh. apply in_map_iff in Hin.
  destruct Hin as (other & Hname & Hin). apply filter_In in Hin.
  rewrite <- Hname. apply in_map. tauto.
Qed.

(** X7.  The registry stays well kept under [addDataset] and
    [removeDataset], whether they resolve or reject: its ids stay distinct
    and valid, and none of its datasets is empty (so that [dataset[0]],
    which the filters and [listDatasets] read, is there). *)
Theorem registry_well_kept
    (extract : string -> result (list (list (option record))))
    (datasets : Datasets.t) (id content : string) (kind : InsightDatasetKind) :
  well_kept datasets ->
  well_kept (snd (addDataset extract datasets id content kind)) /\
  well_kept (snd (removeDataset datasets id)).
Proof.
  intros [Hnd Hall]. split.
  - destruct (addDataset extract datasets id content kind) as [[ids|e] d'] eqn:E.
    + apply addDataset_Ok in E as (Hv & Hnew & _ & courseLists & _ & Hne & -> & _).
      simpl. split.
      * unfold Datasets.getIds. rewrite map_app. simpl.
        apply NoDup_app_remove_l with (l := []). simpl.
        rewrite <- (app_nil_r (map fst datasets ++ [id])).
        apply NoDup_app; [| constructor | intros x _ []].
        apply NoDup_app; [exact Hnd | repeat constructor; auto |].
        intros x Hx [<- | []]. unfold Datasets.containsDataset in Hnew.
        apply has_key_In in Hx. congruence.
      * apply Forall_app. split; [exact Hall |]. repeat constructor; auto.
    + unfold addDataset in E.
      destruct (negb (isIdValid (Str id))); [injection E as _ <-; now split |].
      destruct (Datasets.containsDataset datasets id);
        [injection E as _ <-; now split |].
      destruct (negb (kind_eqb kind Courses)); [injection E as _ <-; now split |].
      destruct (extract content); [|injection E as _ <-; now split].
      destruct (List.length _ =? 0)%nat; [injection E as _ <-; now split |].
      discriminate E.
  - unfold removeDataset. destruct (negb (isIdValid (Str id))); [now split |].
    unfold Datasets.removeDataset.
    destruct (Datasets.containsDataset datasets id); simpl; [|now split].
    split.
    + now apply getIds_filter_NoDup.
    + apply Forall_forall. intros x Hx. apply filter_In in Hx as [Hx _].
      rewrite Forall_forall in Hall. now apply Hall.
Qed.

(** ** The shape of a query and the rejections of [performQuery] *)

(** X8.  A query that [performQuery] resolves is an object with exactly
    the two properties [WHERE] and [OPTIONS], in either order: an array, a
    string, or an object with a key more or less is rejected. *)
Theorem performQuery_query_shape
    (host : Host) (datasets : Datasets.t) (query : jsval) (rows : list record) :
  performQuery host datasets query = Ok rows ->
  exists where_ options,
    query = Obj [("WHERE", where_); ("OPTIONS", options)] \/
    query = Obj [("OPTIONS", options); ("WHERE", where_)].
Proof.
  intros H. apply performQuery_Ok in H
    as (w & o & c & i & cs & p & ((keys & Hk & Hlen & Ho & Hw) & _) & _).
  unfold Object_keys in Hk.
  destruct query as [| | b | q | s | l | props]; simpl in Hk;
    try discriminate Hk; injection Hk as <-; try discriminate Hlen.
  - destruct s as [|c1 [|c2 [|c3 s]]]; try discriminate Hlen. discriminate Ho.
  - destruct l as [|x1 [|x2 [|x3 l]]]; try discriminate Hlen. discriminate Ho.
  - destruct props as [|[k1 v1] [|[k2 v2] [|kv props]]]; try discriminate Hlen.
    apply has_key_In in Ho, Hw. simpl in Ho, Hw.
    destruct Ho as [Eo | [Eo | []]], Hw as [Ew | [Ew | []]];
      subst; try congruence; eauto.
Qed.

Lemma selectRow_Err_class (host : Host) (datasets : Datasets.t) (id : string)
    (D : list record) (course : nat) (columns : list jsval) (row : record)
    (e : error) :
  Datasets.getDataset datasets id = Ok D ->
  selectRow host datasets id course columns row = Err e ->
  (exists m, e = InsightError m) \/ (exists m, e = TypeError m).
Proof.
  intros HD. revert row; induction columns as [|column columns IH]; intros row;
    cbn [selectRow]; [discriminate |].
  rewrite HD. cbn [bind]. unfold record_at.
  destruct (nth_error D course) as [r|]; cbn [bind];
    [|intros [= <-]; right; unfold not_an_object; eauto].
  destruct column; cbn [column_part bind]; try (intros [= <-]; eauto).
  destruct (field r (part 1 s)); [apply IH | intros [= <-]; eauto].
Qed.

Lemma checkColumn_Err_class (host : Host) (id : string) (column : jsval)
    (e : error) :
  checkColumn host id column = Err e ->
  (exists m, e = InsightError m) \/ (exists m, e = TypeError m).
Proof.
  unfold checkColumn. destruct (negb _); [intros [= <-]; eauto |].
  destruct column; cbn [column_part bind]; try (intros [= <-]; eauto).
  destruct (negb _); [intros [= <-]; eauto | discriminate].
Qed.

Lemma selectColumns_Err_class (host : Host) (datasets : Datasets.t)
    (courseSet : list nat) (columns : jsval) (id : string) (e : error) :
  Datasets.containsDataset datasets id = true ->
  selectColumns host datasets courseSet columns id = Err e ->
  (exists m, e = InsightError m) \/ (exists m, e = TypeError m).
Proof.
  intros Hin. apply containsDataset_getDataset in Hin as (D & HD).
  unfold selectColumns.
  destruct (iterate columns) as [cols|e'] eqn:E; cbn [bind].
  - destruct (mapM (checkColumn host id) cols) as [u|e'] eqn:E2; cbn [bind].
    + intros H. apply mapM_Err in H as (course & _ & H).
      eapply selectRow_Err_class; eauto.
    + intros [= <-]. apply mapM_Err in E2 as (column & _ & H).
      eapply checkColumn_Err_class; eauto.
  - intros [= <-]. destruct columns; try discriminate E;
      simpl in E; injection E as <-; eauto.
Qed.

(** X9.  Whatever the query, [performQuery] is rejected with an
    [InsightError], with [ResultTooLargeError], or with the host's own
    [TypeError] (a query that is [null], or a column that is no string
    although its text reads as a qualified name): never with
    [NotFoundError], also when the dataset is not there. *)
Theorem performQuery_rejections
    (host : Host) (datasets : Datasets.t) (query : jsval) (e : error) :
  performQuery host datasets query = Err e ->
  (exists m, e = InsightError m) \/ e = ResultTooLargeError \/
  (exists m, e = TypeError m).
Proof.
  unfold performQuery.
  destruct (Object_keys query) as [keys|e0] eqn:Hk; cbn [bind].
  2:{ intros [= <-]. unfold Object_keys in Hk.
      destruct (own_properties query); [discriminate |].
      injection Hk as <-. unfold not_an_object. eauto. }
  destruct (_ || _); [intros [= <-]; eauto |].
  destruct (rethrow (get query "OPTIONS")) as [options|e0] eqn:E1; cbn [bind];
    [|intros [= <-]; apply rethrow_Err in E1; auto].
  destruct (rethrow (get options "COLUMNS")) as [columns|e0] eqn:E2; cbn [bind];
    [|intros [= <-]; apply rethrow_Err in E2; auto].
  destruct (rethrow (get columns "0")) as [column0|e0] eqn:E3; cbn [bind];
    [|intros [= <-]; apply rethrow_Err in E3; auto].
  destruct (rethrow (column_part 0 column0)) as [id|e0] eqn:E4; cbn [bind];
    [|intros [= <-]; apply rethrow_Err in E4; auto].
  destruct (negb (Datasets.containsDataset datasets id)) eqn:E5;
    [intros [= <-]; eauto |].
  apply negb_false_iff in E5.
  destruct (rethrow (get query "WHERE")) as [where_|e0] eqn:E6; cbn [bind];
    [|intros [= <-]; apply rethrow_Err in E6; auto].
  destruct (rethrow (findCourses host datasets where_ id)) as [courseSet|e0] eqn:E7;
    cbn [bind]; [|intros [= <-]; apply rethrow_Err in E7; auto].
  destruct (selectColumns host datasets courseSet columns id) as [results|e0] eqn:E8;
    cbn [bind].
  2:{ intros [= <-]. apply selectColumns_Err_class in E8; [tauto | exact E5]. }
  destruct (orderResults host options columns results) as [rows|e0] eqn:E9;
    cbn [bind]; [|intros [= <-]; apply orderResults_Err in E9; auto].
  destruct (cap <? List.length rows)%nat; [intros [= <-]; auto | discriminate].
Qed.

(** ** The rows of the projection *)

Lemma field_set_field (row : record) (k k' : string) (v : scalar) :
  field (set_field row k v) k'
  = if String.eqb k' k then Some v else field row k'.
Proof.
  unfold field. induction row as [|[k0 v0] row IH]; cbn [set_field assoc].
  - destruct (k' =? k); reflexivity.
  - destruct (k =? k0) eqn:E; cbn [assoc].
    + apply String.eqb_eq in E. subst k0. destruct (k' =? k); reflexivity.
    + destruct (k' =? k0) eqn:E2.
      * apply String.eqb_eq in E2. subst k0.
        rewrite String.eqb_sym, E. reflexivity.
      * exact IH.
Qed.

Lemma keys_set_field (row : record) (k : string) (v : scalar) :
  record_keys (set_field row k v)
  = if has_key k (record_keys row) then record_keys row
    else record_keys row ++ [k].
Proof.
  unfold record_keys, has_key.
  induction row as [|[k0 v0] row IH]; cbn [set_field map fst existsb app];
    [reflexivity |].
  destruct (k =? k0) eqn:E; cbn [map fst orb].
  - apply String.eqb_eq in E. now subst.
  - rewrite IH. destruct (existsb (String.eqb k) (map fst row)); reflexivity.
Qed.

(** What the inner loop of [selectColumns] makes of a row under
    construction. *)
Lemma selectRow_row (host : Host) (datasets : Datasets.t) (id : string)
    (D : list record) (course : nat) (r : record) (names : list string)
    (row0 row : record) :
  Datasets.getDataset datasets id = Ok D ->
  nth_error D course = Some r ->
  selectRow host datasets id course (map Str names) row0 = Ok row ->
  (NoDup (record_keys row0) -> NoDup (record_keys row)) /\
  (forall k, In k (record_keys row) <-> In k (record_keys row0) \/ In k names) /\
  (forall k, In k names ->
             field row k = field r (part 1 k) /\ field row k <> None) /\
  (forall k, ~ In k names -> field row k = field row0 k).
Proof.
  intros HD Hr. revert row0; induction names as [|c names IH]; intros row0 H.
  - cbn [map selectRow] in H. injection H as <-.
    split; [auto |]. split; [intros k; simpl; tauto |].
    split; [intros k [] | reflexivity].
  - cbn [map selectRow] in H. rewrite HD in H. cbn [bind] in H.
    unfold record_at in H. rewrite Hr in H. cbn [bind column_part to_string] in H.
    destruct (field r (part 1 c)) as [v|] eqn:Ev; [|discriminate].
    apply IH in H as (Hnd & Hkeys & Hin & Hout).
    split; [|split; [|split]].
    + intros H0. apply Hnd. rewrite keys_set_field.
      destruct (has_key c (record_keys row0)) eqn:Ec; [exact H0 |].
      apply NoDup_app; [exact H0 | repeat constructor; auto |].
      intros x Hx [<- | []]. apply has_key_In in Hx. congruence.
    + intros k. rewrite Hkeys, keys_set_field.
      destruct (has_key c (record_keys row0)) eqn:Ec.
      * apply has_key_In in Ec. simpl. split; [tauto |].
        intros [H | [<- | H]]; auto.
      * rewrite in_app_iff. simpl. tauto.
    + intros k Hk. destruct (in_dec string_dec k names) as [Hn | Hn];
        [now apply Hin |].
      destruct Hk as [<- | Hk]; [|contradiction].
      rewrite (Hout c Hn), field_set_field, String.eqb_refl, Ev.
      split; [reflexivity | discriminate].
    + intros k Hk. rewrite Hout by (intros Hn; apply Hk; now right).
      rewrite field_set_field. destruct (k =? c) eqn:E; [|reflexivity].
      apply String.eqb_eq in E. subst k. destruct Hk. now left.
Qed.

Lemma selectRow_course (host : Host) (datasets : Datasets.t) (id : string)
    (D : list record) (course : nat) (column : jsval) (columns : list jsval)
    (row0 row : record) :
  Datasets.getDataset datasets id = Ok D ->
  selectRow host datasets id course (column :: columns) row0 = Ok row ->
  exists r, nth_error D course = Some r.
Proof.
  intros HD H. cbn [selectRow] in H. rewrite HD in H. cbn [bind] in H.
  unfold record_at in H. destruct (nth_error D course); [eauto | discriminate].
Qed.

(** X10.  The rows of [selectColumns] answer the candidate courses one for
    one, in the order of the candidate set.  The keys of a row are the
    requested columns, each once, and the value under a column is the
    value of the field it names in the record of the course. *)
Theorem selectColumns_projects
    (host : Host) (datasets : Datasets.t) (id : string) (D : list record)
    (courseSet : list nat) (names : list string) (rows : list record) :
  Datasets.getDataset datasets id = Ok D ->
  names <> [] ->
  selectColumns host datasets courseSet (Arr (map Str names)) id = Ok rows ->
  Forall2 (fun course row =>
             exists r,
               nth_error D course = Some r /\
               NoDup (record_keys row) /\
               (forall k, In k (record_keys row) <-> In k names) /\
               (forall k, In k names ->
                          field row k = field r (part 1 k) /\
                          field row k <> None))
          courseSet rows.
Proof.
  intros HD Hne H. unfold selectColumns in H. cbn [iterate bind] in H.
  apply bind_Ok in H as (u & _ & H).
  revert rows H; induction courseSet as [|course courseSet IH]; intros rows H.
  - cbn [mapM] in H. injection H as <-. constructor.
  - cbn [mapM] in H. apply bind_Ok in H as (row & Hrow & H).
    apply bind_Ok in H as (rest & Hrest & H). injection H as <-.
    constructor; [|now apply IH].
    destruct names as [|c names]; [now destruct Hne |].
    destruct (selectRow_course _ _ _ _ _ _ _ _ _ HD Hrow) as (r & Hr).
    destruct (selectRow_row _ _ _ _ _ _ (c :: names) _ _ HD Hr Hrow)
      as (Hnd & Hkeys & Hin & _).
    exists r. repeat split; auto.
    + apply Hnd. constructor.
    + intros Hk. apply Hkeys in Hk as [[] | Hk]. exact Hk.
    + intros Hk. apply Hkeys. now right.
    + now apply Hin.
    + now apply Hin.
Qed.

(** ** The comparator of the sorter *)

Lemma rule_loop_both (a b : string) :
  match rule_loop a b 0 (Nat.min (String.length a) (String.length b)),
        rule_loop b a 0 (Nat.min (String.length b) (String.length a)) with
  | Some x, Some y => y = (- x)%Z /\ (x = 1%Z \/ x = (-1)%Z) /\ a <> b
  | None, None => String.length a = String.length b -> a = b
  | _, _ => False
  end.
Proof.
  revert b; induction a as [|c a IH]; intros [|d b]; simpl; auto; try discriminate.
  unfold charCodeAt; simpl.
  rewrite (Nat.eqb_sym (nat_of_ascii d) (nat_of_ascii c)).
  destruct (nat_of_ascii c =? nat_of_ascii d)%nat eqn:E; simpl.
  - apply Nat.eqb_eq, nat_of_ascii_inj in E. subst d.
    rewrite !rule_loop_shift. specialize (IH b).
    destruct (rule_loop a b 0 _) as [x|], (rule_loop b a 0 _) as [y|]; auto.
    + destruct IH as (H1 & H2 & H3). repeat split; auto. intros H; injection H; auto.
    + intros H. f_equal. apply IH. now injection H.
  - apply Nat.eqb_neq in E.
    destruct (Nat.ltb_spec (nat_of_ascii d) (nat_of_ascii c)),
             (Nat.ltb_spec (nat_of_ascii c) (nat_of_ascii d));
      try lia;
      (repeat split; auto; try (intros Hs; injection Hs; intros; subst; now destruct E)).
Qed.

(** X11.  On two strings, and on two numbers, [rule] is a three-way
    comparison: it answers -1, 0 or 1, answers 0 exactly on equal values,
    and answers the opposite when its arguments are exchanged. *)
Theorem rule_three_way (host : Host) :
  (forall a b,
     exists c,
       rule host (Some (SStr a)) (Some (SStr b)) = Ok c /\
       (c = (-1)%Z \/ c = 0%Z \/ c = 1%Z) /\
       (c = 0%Z <-> a = b) /\
       rule host (Some (SStr b)) (Some (SStr a)) = Ok (- c)%Z) /\
  (forall x y,
     exists c,
       rule host (Some (SNum x)) (Some (SNum y)) = Ok c /\
       (c = (-1)%Z \/ c = 0%Z \/ c = 1%Z) /\
       (c = 0%Z <-> (x == y)%Q) /\
       rule host (Some (SNum y)) (Some (SNum x)) = Ok (- c)%Z).
Proof.
  split.
  - intros a b. unfold rule. pose proof (rule_loop_both a b) as H.
    destruct (rule_loop a b 0 _) as [x|], (rule_loop b a 0 _) as [y|];
      try contradiction.
    + destruct H as (-> & Hx & Hne). exists x. repeat split; auto.
      * destruct Hx as [-> | ->]; auto.
      * intros ->. destruct Hx; discriminate.
      * intros E. contradiction.
    + rewrite (Nat.eqb_sym (String.length b) (String.length a)).
      destruct (String.length a =? String.length b)%nat eqn:E.
      * apply Nat.eqb_eq in E. exists 0%Z. repeat split; auto.
      * apply Nat.eqb_neq in E.
        assert (Hne : a <> b) by (intros ->; now apply E).
        destruct (Nat.ltb_spec (String.length b) (String.length a)),
                 (Nat.ltb_spec (String.length a) (String.length b));
          try lia; eexists; (split; [reflexivity|]); (split; [auto|]);
          (split; [split; [discriminate | intros; contradiction] | reflexivity]).
  - intros x y. unfold rule, Qlt_bool.
    destruct (Qeq_bool x y) eqn:E.
    + pose proof E as E'. apply Qeq_bool_iff in E'.
      assert (E2 : Qeq_bool y x = true) by (apply Qeq_bool_iff; now symmetry).
      rewrite E2. exists 0%Z. repeat split; auto.
    + assert (Hne : ~ (x == y)%Q).
      { intros H. apply Qeq_bool_iff in H. congruence. }
      assert (E2 : Qeq_bool y x = false).
      { destruct (Qeq_bool y x) eqn:E3; [|reflexivity].
        apply Qeq_bool_iff in E3. destruct Hne. now symmetry. }
      rewrite E2.
      destruct (Qle_bool x y) eqn:L1, (Qle_bool y x) eqn:L2; simpl.
      * apply Qle_bool_iff in L1, L2. destruct Hne. now apply Qle_antisym.
      * exists (-1)%Z. repeat split; auto; try discriminate. intros; contradiction.
      * exists 1%Z. repeat split; auto; try discriminate. intros; contradiction.
      * exfalso. destruct (Qlt_le_dec x y) as [H | H].
        -- apply Qlt_le_weak, Qle_bool_iff in H. congruence.
        -- apply Qle_bool_iff in H. congruence.
Qed.

(** X12.  On a string and a number [rule] answers -1 with the string
    first, and again -1 with the number first when the string does not read
    as a number: on a column that mixed the two the comparator would be no
    ordering.  A missing value is smaller than anything and larger than
    nothing, except that comparing a string with it throws. *)
Theorem rule_mixed (host : Host) (s : string) (q : Q) (v : scalar) :
  rule host (Some (SStr s)) (Some (SNum q)) = Ok (-1)%Z /\
  (string_to_number host s = None ->
   rule host (Some (SNum q)) (Some (SStr s)) = Ok (-1)%Z) /\
  rule host None (Some v) = Ok (-1)%Z /\
  rule host (Some (SNum q)) None = Ok (-1)%Z /\
  rule host (Some (SStr s)) None
  = Err (TypeError "Cannot read properties of undefined").
Proof.
  split; [reflexivity|]. split.
  - intros H. unfold rule, field_to_number. now rewrite H.
  - split; [destruct v; reflexivity|]. split; reflexivity.
Qed.

(** ** The two patterns *)

Lemma includes_char_app (c : ascii) (s t : string) :
  includes_char c (s ++ t) = includes_char c s || includes_char c t.
Proof.
  induction s as [|d s IH]; [reflexivity |].
  cbn [append includes_char]. now rewrite IH, orb_assoc.
Qed.

Lemma repeat_Not_inv (x : ascii) (k : string -> bool) (s : string) :
  Regex.repeat (Regex.Not x) k s = true ->
  exists p t, s = (p ++ t)%string /\ includes_char x p = false /\ k t = true.
Proof.
  induction s as [|c s IH]; rewrite repeat_unfold; intros H.
  - rewrite orb_false_r in H. now exists "", "".
  - apply orb_true_iff in H. destruct H as [H | H].
    + now exists "", (String c s).
    + apply andb_true_iff in H. destruct H as [Hc H].
      destruct (IH H) as (p & t & -> & Hp & Ht).
      exists (String c p), t. repeat split; auto.
      cbn [includes_char]. rewrite Hp, orb_false_r.
      cbn [Regex.accepts] in Hc. rewrite Ascii.eqb_sym.
      now apply negb_true_iff.
Qed.

Lemma repeat_Not_intro (x : ascii) (k : string -> bool) (p t : string) :
  includes_char x p = false -> k t = true ->
  Regex.repeat (Regex.Not x) k (p ++ t) = true.
Proof.
  intros Hp Ht. apply repeat_skip; auto.
  intros c Hc. cbn [Regex.accepts]. apply negb_true_iff.
  destruct (Ascii.eqb c x) eqn:E; [|reflexivity].
  apply Ascii.eqb_eq in E. subst c. congruence.
Qed.

Lemma test_nil (s : string) : Regex.test [] s = true <-> s = "".
Proof. destruct s; simpl; split; auto; discriminate. Qed.

(** X13.  The pattern of a qualified name accepts exactly the keys made of
    a non-empty dataset part, one underscore and a non-empty field part,
    neither part with an underscore; the two parts are then what the code
    takes out of the key with [split]. *)
Theorem qualified_name_parts (key : string) :
  Regex.test Regex.qualified_name key = true <->
  exists dataset field,
    key = (dataset ++ "_" ++ field)%string /\
    dataset <> "" /\ field <> "" /\
    includes_char "_" dataset = false /\
    includes_char "_" field = false /\
    part 0 key = dataset /\ part 1 key = field.
Proof.
  unfold Regex.qualified_name. split.
  - destruct key as [|c s]; [discriminate |].
    cbn [Regex.test]. intros H. apply andb_true_iff in H. destruct H as [Hc H].
    apply repeat_Not_inv in H. destruct H as (p & t & -> & Hp & Ht).
    destruct t as [|d t]; [discriminate |].
    apply andb_true_iff in Ht. destruct Ht as [Hd Ht].
    cbn [Regex.accepts] in Hd. apply Ascii.eqb_eq in Hd. subst d.
    destruct t as [|e t]; [discriminate |].
    apply andb_true_iff in Ht. destruct Ht as [He Ht].
    apply repeat_Not_inv in Ht. destruct Ht as (q & r & -> & Hq & Hr).
    apply test_nil in Hr. subst r. rewrite append_empty.
    assert (Hcp : includes_char "_" (String c p) = false).
    { cbn [includes_char]. rewrite Hp, orb_false_r.
      cbn [Regex.accepts] in Hc. rewrite Ascii.eqb_sym. now apply negb_true_iff. }
    assert (Heq : includes_char "_" (String e q) = false).
    { cbn [includes_char]. rewrite Hq, orb_false_r.
      cbn [Regex.accepts] in He. rewrite Ascii.eqb_sym. now apply negb_true_iff. }
    exists (String c p), (String e q).
    assert (Hs : split "_" (String c p ++ String "_" (String e q))
                 = [String c p; String e q]).
    { rewrite split_first by exact Hcp. now rewrite split_none. }
    repeat split; try discriminate; auto; unfold part;
      cbn [append] in Hs |- *; now rewrite Hs.
  - intros (d & f & -> & Hd & Hf & Hd' & Hf' & _).
    destruct d as [|c p]; [contradiction |].
    destruct f as [|e q]; [contradiction |].
    cbn [includes_char] in Hd', Hf'.
    apply orb_false_iff in Hd', Hf'. destruct Hd' as [Hc Hp], Hf' as [He Hq].
    cbn [append Regex.test Regex.accepts]. rewrite (Ascii.eqb_sym c), Hc. cbn [negb andb].
    apply repeat_Not_intro; [exact Hp |].
    cbn [Regex.test Regex.accepts]. rewrite Ascii.eqb_refl, (Ascii.eqb_sym e), He.
    cbn [negb andb]. rewrite <- (append_empty q).
    apply repeat_Not_intro; [exact Hq | reflexivity].
Qed.

Lemma star_before_last_spec (s : string) :
  star_before_last s = true <->
  exists p q, s = (p ++ String "*" q)%string /\ q <> "".
Proof.
  induction s as [|c s IH].
  - split; [discriminate |]. intros ([|? ?] & q & H & _); discriminate.
  - cbn [star_before_last]. destruct s as [|d s].
    + split; [discriminate |]. intros ([|? [|? ?]] & q & H & Hq).
      * injection H as _ H. now subst q.
      * discriminate.
      * discriminate.
    + rewrite orb_true_iff, IH. split.
      * intros [H | (p & q & H & Hq)].
        -- apply Ascii.eqb_eq in H. subst c. now exists "", (String d s).
        -- exists (String c p), q. cbn [append]. now rewrite H.
      * intros ([|c' p] & q & H & Hq).
        -- injection H as -> _. left. apply Ascii.eqb_refl.
        -- injection H as _ H. right. now exists p, q.
Qed.

Lemma wildcard_tail_test (s : string) :
  Regex.test [(Regex.Not "*"%char, Regex.Star); (Regex.Lit "*"%char, Regex.Opt)] s
  = negb (star_before_last s).
Proof.
  induction s as [|c s IH]; [reflexivity |].
  rewrite test_Star, repeat_unfold, <- test_Star, IH.
  cbn [star_before_last]. destruct s as [|d s].
  - cbn. destruct (Ascii.eqb c "*"); reflexivity.
  - rewrite test_Opt. cbn [Regex.test Regex.accepts]. rewrite andb_false_r.
    cbn [orb]. now rewrite negb_orb.
Qed.

Lemma wildcard_shape_test (v : string) :
  Regex.test Regex.wildcard_shape v
  = negb (match v with EmptyString => false | String _ s => star_before_last s end).
Proof.
  unfold Regex.wildcard_shape. destruct v as [|c s]; [reflexivity |].
  rewrite test_Opt, !wildcard_tail_test. cbn [Regex.accepts star_before_last].
  destruct s as [|d s].
  - cbn. now rewrite orb_true_r.
  - rewrite negb_orb. destruct (Ascii.eqb c "*"), (star_before_last (String d s));
      reflexivity.
Qed.

(** X14.  [IS] throws its own error exactly on a value with an asterisk
    that is neither its first nor its last character, whatever the stored
    field it is compared with. *)
Theorem IS_interior_asterisk (host : Host) (a : option scalar) (value : string) :
  IS host a (Str value) = Err (InsightError "Invalid regex filter value") <->
  exists p q, value = (p ++ "*" ++ q)%string /\ p <> "" /\ q <> "".
Proof.
  unfold IS. split.
  - destruct (includes_char "*" value); cbn [negb]; [|discriminate].
    rewrite wildcard_shape_test.
    destruct value as [|c s].
    + cbn [negb]. unfold RegExp_test.
      destruct (Regex.parse _); [discriminate |].
      destruct (regexp_test host _ _); discriminate.
    + destruct (star_before_last s) eqn:E; cbn [negb].
      * intros _. apply star_before_last_spec in E.
        destruct E as (p & q & -> & Hq).
        exists (String c p), q. repeat split; auto. discriminate.
      * unfold RegExp_test.
        destruct (Regex.parse _); [discriminate |].
        destruct (regexp_test host _ _); discriminate.
  - intros (p & q & -> & Hp & Hq). cbn [append].
    rewrite includes_char_last. cbn [negb].
    rewrite wildcard_shape_test.
    destruct p as [|c p]; [contradiction |]. cbn [append].
    assert (E : star_before_last (p ++ String "*" q) = true).
    { apply star_before_last_spec. now exists p, q. }
    now rewrite E.
Qed.

(** ** Comparisons *)

Lemma setFilter_filter (s : list nat) (f : nat -> result bool) (p : nat -> bool) :
  (forall x, In x s -> f x = Ok (p x)) ->
  SetUtils.setFilter s f = Ok (filter p s).
Proof.
  induction s as [|x s IH]; intros H; [reflexivity |].
  cbn [SetUtils.setFilter filter]. rewrite (H x (or_introl eq_refl)).
  cbn [bind]. rewrite IH by (intros y Hy; apply H; now right).
  cbn [bind]. reflexivity.
Qed.

Lemma StronglySorted_filter {A : Type} (R : A -> A -> Prop) (p : A -> bool)
    (l : list A) :
  StronglySorted R l -> StronglySorted R (filter p l).
Proof.
  induction 1 as [|x l Hl IH Hx]; cbn [filter]; [constructor |].
  destruct (p x); [|exact IH]. constructor; [exact IH |].
  rewrite Forall_forall in *. intros y Hy. apply Hx.
  apply filter_In in Hy. tauto.
Qed.

Lemma StronglySorted_seq (start len : nat) :
  StronglySorted Nat.lt (seq start len).
Proof.
  revert start; induction len as [|len IH]; intros start; cbn [seq]; constructor.
  - apply IH.
  - rewrite Forall_forall. intros y Hy. apply in_seq in Hy. unfold Nat.lt. lia.
Qed.

Lemma Qlt_bool_iff (x y : Q) : Qlt_bool x y = true <-> (x < y)%Q.
Proof.
  unfold Qlt_bool. rewrite negb_true_iff. split.
  - intros H. apply Qnot_le_lt. intros L. apply Qle_bool_iff in L. congruence.
  - intros H. destruct (Qle_bool y x) eqn:E; [|reflexivity].
    apply Qle_bool_iff in E. exfalso. now apply (Qlt_not_le x y).
Qed.

Lemma field_has_key (r : record) (k : string) (v : scalar) :
  field r k = Some v -> has_key k (record_keys r) = true.
Proof.
  intros H. unfold record_keys, field in *. rewrite assoc_has_key. now rewrite H.
Qed.

Lemma findCourses_comparison (host : Host) (datasets : Datasets.t)
    (comparator key id : string) (value : jsval) (D : list record) :
  Datasets.getDataset datasets id = Ok D ->
  (comparator =? "NOT")%string = false ->
  Regex.test Regex.qualified_name key = true ->
  part 0 key = id ->
  findCourses host datasets (comparison comparator key value) id
  = filterCourses host D (seq 0 (List.length D)) (part 1 key) value comparator.
Proof.
  intros HD Hn Hk Hid. unfold comparison. cbn [findCourses]. rewrite HD.
  cbn [bind Object_keys own_properties map fst List.length Nat.eqb Nat.ltb
       Nat.leb nth]. rewrite Hn.
  unfold compareCourses.
  cbn [bind Object_keys own_properties map fst List.length Nat.eqb negb nth
       get assoc]. rewrite String.eqb_refl. cbn [bind]. rewrite Hk. cbn [negb].
  rewrite Hid, String.eqb_refl. reflexivity.
Qed.

(** X15.  A number comparison selects, in the order of the dataset, the
    indices of the records whose field is equal to, below or above the
    number of the filter.  The dataset is not empty and its records hold a
    number in the field; the scan of the index set is [SetUtils.setFilter],
    modelled from the specification. *)
Theorem number_comparison_selects (host : Host) (datasets : Datasets.t)
    (id key comparator : string) (v : Q) (D : list record) :
  Datasets.getDataset datasets id = Ok D ->
  D <> [] ->
  Forall (fun r => exists x, field r (part 1 key) = Some (SNum x)) D ->
  Regex.test Regex.qualified_name key = true ->
  part 0 key = id ->
  In comparator ["EQ"; "LT"; "GT"]%string ->
  exists s,
    findCourses host datasets (comparison comparator key (Num v)) id = Ok s /\
    StronglySorted Nat.lt s /\
    forall i, In i s <->
      exists r x, nth_error D i = Some r /\
                  field r (part 1 key) = Some (SNum x) /\
                  relation_of comparator x v.
Proof.
  intros HD Hne HF Hk Hid Hc.
  set (k := part 1 key) in *.
  set (holds := fun x : Q =>
         if (comparator =? "EQ")%string then Qeq_bool x v
         else if (comparator =? "LT")%string then Qlt_bool x v
         else Qlt_bool v x).
  set (p := fun i : nat =>
         match nth_error D i with
         | Some r => match field r k with
                     | Some (SNum x) => holds x
                     | _ => false
                     end
         | None => false
         end).
  exists (filter p (seq 0 (List.length D))). split; [|split].
  - rewrite (findCourses_comparison host datasets comparator key id (Num v) D HD);
      auto.
    2:{ destruct Hc as [<- | [<- | [<- | []]]]; reflexivity. }
    fold k. unfold filterCourses, record_at.
    destruct D as [|first rest]; [contradiction |]. cbn [nth_error bind].
    pose proof (Forall_inv HF) as (x0 & Hx0).
    rewrite (field_has_key _ _ _ Hx0). cbn [negb]. rewrite Hx0.
    assert (Hm : exists f, mapping host comparator = Some ("number"%string, f) /\
                 forall x, f (Some (SNum x)) (Num v) = Ok (holds x)).
    { unfold holds.
      destruct Hc as [<- | [<- | [<- | []]]]; eexists; (split; [reflexivity |]);
        intros x; reflexivity. }
    destruct Hm as (f & -> & Hf). cbn [typeof typeof_field String.eqb Ascii.eqb
      Bool.eqb negb].
    apply setFilter_filter. intros i Hi. apply in_seq in Hi.
    unfold p. destruct (nth_error (first :: rest) i) as [r|] eqn:Hr.
    + cbn [bind]. rewrite Forall_forall in HF.
      destruct (HF r (nth_error_In _ _ Hr)) as (x & Hx). rewrite Hx. apply Hf.
    + apply nth_error_None in Hr. lia.
  - apply StronglySorted_filter, StronglySorted_seq.
  - intros i. rewrite filter_In, in_seq. unfold p, holds, relation_of. split.
    + intros [_ H]. destruct (nth_error D i) as [r|]; [|discriminate].
      destruct (field r k) as [[s|x]|] eqn:Hx; try discriminate.
      exists r, x. split; [reflexivity |]. split; [exact Hx |].
      destruct Hc as [<- | [<- | [<- | []]]]; cbn in H.
      * left. split; [reflexivity |]. now apply Qeq_bool_iff.
      * right; left. split; [reflexivity |]. now apply Qlt_bool_iff.
      * right; right. split; [reflexivity |]. now apply Qlt_bool_iff.
    + intros (r & x & Hr & Hx & H). split.
      * assert (i < List.length D)%nat by (apply nth_error_Some; congruence). lia.
      * rewrite Hr, Hx.
        destruct H as [[-> H] | [[-> H] | [-> H]]]; cbn.
        -- now apply Qeq_bool_iff.
        -- now apply Qlt_bool_iff.
        -- now apply Qlt_bool_iff.
Qed.

(** X16.  [IS] with a value that has no asterisk selects, in the order of
    the dataset, the indices of the records whose field is that very
    string.  The dataset is not empty and its first record holds a string in
    the field; the scan of the index set is [SetUtils.setFilter], modelled
    from the specification. *)
Theorem string_comparison_selects (host : Host) (datasets : Datasets.t)
    (id key value : string) (D : list record) (first : record) :
  Datasets.getDataset datasets id = Ok D ->
  nth_error D 0 = Some first ->
  typeof_field (field first (part 1 key)) = "string"%string ->
  Regex.test Regex.qualified_name key = true ->
  part 0 key = id ->
  includes_char "*" value = false ->
  exists s,
    findCourses host datasets (comparison "IS" key (Str value)) id = Ok s /\
    StronglySorted Nat.lt s /\
    forall i, In i s <->
      exists r, nth_error D i = Some r /\
                field r (part 1 key) = Some (SStr value).
Proof.
  intros HD H0 Ht Hk Hid Hv.
  set (k := part 1 key) in *.
  set (p := fun i : nat =>
         match nth_error D i with
         | Some r => match field r k with
                     | Some (SStr s) => String.eqb s value
                     | _ => false
                     end
         | None => false
         end).
  exists (filter p (seq 0 (List.length D))). split; [|split].
  - rewrite (findCourses_comparison host datasets "IS" key id (Str value) D HD);
      auto.
    fold k. unfold filterCourses, record_at. rewrite H0. cbn [bind].
    destruct (field first k) as [[s0|x0]|] eqn:Hx0; try discriminate.
    rewrite (field_has_key _ _ _ Hx0). cbn [negb]. rewrite ?Hx0.
    cbn [mapping typeof typeof_field String.eqb Ascii.eqb Bool.eqb negb].
    apply setFilter_filter. intros i Hi. apply in_seq in Hi.
    unfold p. destruct (nth_error D i) as [r|] eqn:Hr.
    + cbn [bind]. unfold IS. rewrite Hv. cbn [negb].
      destruct (field r k) as [[s|x]|]; reflexivity.
    + apply nth_error_None in Hr. lia.
  - apply StronglySorted_filter, StronglySorted_seq.
  - intros i. rewrite filter_In, in_seq. unfold p. split.
    + intros [_ H]. destruct (nth_error D i) as [r|]; [|discriminate].
      destruct (field r k) as [[s|x]|] eqn:Hx; try discriminate.
      apply String.eqb_eq in H. subst s. now exists r.
    + intros (r & Hr & Hx). split.
      * assert (i < List.length D)%nat by (apply nth_error_Some; congruence). lia.
      * rewrite Hr, Hx. apply String.eqb_refl.
Qed.

(** ** Scheduler *)

Section StableSortFacts.
Context {A : Type}.
Variable compare : A -> A -> Z.

Lemma insert_by_Permutation (x : A) (l : list A) :
  Permutation (x :: l) (insert_by compare x l).
Proof.
  induction l as [|y l IH]; cbn [insert_by]; [reflexivity |].
  destruct (compare x y <=? 0)%Z; [reflexivity |].
  rewrite perm_swap. now constructor.
Qed.

Lemma sort_by_Permutation (l : list A) : Permutation l (sort_by compare l).
Proof.
  induction l as [|x l IH]; cbn [sort_by]; [constructor |].
  rewrite <- insert_by_Permutation. now constructor.
Qed.

(** The comparator decides a total preorder [le] on the elements that are
    [comparable]. *)
Variable comparable : A -> Prop.
Variable le : A -> A -> Prop.
Hypothesis le_trans :
  forall x y z, le x y -> le y z -> le x z.
Hypothesis compare_le :
  forall x y, comparable x -> comparable y ->
              ((compare x y <= 0)%Z -> le x y) /\ ((0 < compare x y)%Z -> le y x).

Lemma insert_by_Sorted (x : A) (l : list A) :
  comparable x -> Forall comparable l ->
  StronglySorted le l -> StronglySorted le (insert_by compare x l).
Proof.
  intros Hx Hl Hs. induction Hs as [|y l Hs IH Hy]; cbn [insert_by].
  - repeat constructor.
  - apply Forall_cons_iff in Hl. destruct Hl as [Hcy Hl].
    destruct (compare_le x y Hx Hcy) as [Hle Hgt].
    destruct (Z.leb_spec (compare x y) 0) as [L | L].
    + constructor; [now constructor |].
      constructor; [now apply Hle |].
      rewrite Forall_forall in *. intros z Hz.
      apply (le_trans x y z); [now apply Hle | now apply Hy].
    + constructor; [now apply IH |].
      rewrite Forall_forall in *. intros z Hz.
      apply (Permutation_in _ (Permutation_sym (insert_by_Permutation x l))) in Hz.
      destruct Hz as [<- | Hz]; [now apply Hgt | now apply Hy].
Qed.

Lemma sort_by_Sorted (l : list A) :
  Forall comparable l -> StronglySorted le (sort_by compare l).
Proof.
  induction l as [|x l IH]; cbn [sort_by]; intros Hl; [constructor |].
  apply Forall_cons_iff in Hl. destruct Hl as [Hx Hl].
  apply insert_by_Sorted; [exact Hx | | now apply IH].
  rewrite Forall_forall in *. intros y Hy. apply Hl.
  now apply (Permutation_in _ (Permutation_sym (sort_by_Permutation l))).
Qed.

End StableSortFacts.

Lemma filter_Permutation {A : Type} (p : A -> bool) (l l' : list A) :
  Permutation l l' -> Permutation (filter p l) (filter p l').
Proof.
  induction 1 as [|x l l' H IH|x y l|l l' l'' H1 IH1 H2 IH2]; cbn [filter].
  - constructor.
  - destruct (p x); [now constructor | exact IH].
  - destruct (p x), (p y); try reflexivity. apply perm_swap.
  - now transitivity (filter p l').
Qed.

(** On numbers other than [NaN] the three comparisons are those of one
    total preorder. *)
Lemma number_le_trans (a b c : Scheduler.number) :
  Scheduler.number_le a b = true -> Scheduler.number_le b c = true ->
  Scheduler.number_le a c = true.
Proof.
  destruct a as [|[|]|x], b as [|[|]|y], c as [|[|]|z]; cbn;
    try discriminate; try reflexivity.
  intros H1 H2. apply Qle_bool_iff in H1, H2. apply Qle_bool_iff.
  now apply (Qle_trans x y z).
Qed.

Lemma number_le_total (a b : Scheduler.number) :
  a <> Scheduler.NaN -> b <> Scheduler.NaN ->
  Scheduler.number_le a b = false -> Scheduler.number_le b a = true.
Proof.
  destruct a as [|[|]|x], b as [|[|]|y]; cbn; intros Ha Hb H;
    try contradiction; try discriminate; try reflexivity.
  apply Qle_bool_iff. destruct (Qlt_le_dec y x) as [L | L].
  - now apply Qlt_le_weak.
  - apply Qle_bool_iff in L. congruence.
Qed.

Lemma number_gt_le (a b : Scheduler.number) :
  a <> Scheduler.NaN -> b <> Scheduler.NaN ->
  Scheduler.number_gt a b = negb (Scheduler.number_le a b).
Proof.
  destruct a as [|[|]|x], b as [|[|]|y]; cbn; intros Ha Hb;
    try contradiction; reflexivity.
Qed.

Lemma number_eq_le (a b : Scheduler.number) :
  Scheduler.number_eq a b = true -> Scheduler.number_le a b = true.
Proof.
  destruct a as [|[|]|x], b as [|[|]|y]; cbn; try discriminate; try reflexivity.
  intros H. apply Qeq_bool_iff in H. apply Qle_bool_iff. rewrite H. apply Qle_refl.
Qed.

Lemma number_eq_sym (a b : Scheduler.number) :
  Scheduler.number_eq a b = true -> Scheduler.number_eq b a = true.
Proof.
  destruct a as [|[|]|x], b as [|[|]|y]; cbn; try discriminate; try reflexivity.
  intros H. apply Qeq_bool_iff in H. apply Qeq_bool_iff. now symmetry.
Qed.

Lemma bySize_le (add : Scheduler.number -> Scheduler.number -> Scheduler.number)
    (x y : Scheduler.SchedSection) :
  Scheduler.secSize add x <> Scheduler.NaN ->
  Scheduler.secSize add y <> Scheduler.NaN ->
  ((Scheduler.bySize add x y <= 0)%Z ->
   Scheduler.number_le (Scheduler.secSize add x) (Scheduler.secSize add y) = true) /\
  ((0 < Scheduler.bySize add x y)%Z ->
   Scheduler.number_le (Scheduler.secSize add y) (Scheduler.secSize add x) = true).
Proof.
  intros Hx Hy. unfold Scheduler.bySize.
  destruct (Scheduler.number_eq _ _) eqn:E.
  - split; intros _.
    + now apply number_eq_le.
    + now apply number_eq_le, number_eq_sym.
  - rewrite (number_gt_le _ _ Hx Hy).
    destruct (Scheduler.number_le (Scheduler.secSize add x)
                                  (Scheduler.secSize add y)) eqn:L; cbn [negb].
    + split; [reflexivity | lia].
    + split; [lia |]. intros _. now apply number_le_total.
Qed.

Lemma assignSlots_nth (timeSlots : list Scheduler.TimeSlot)
    (room : Scheduler.SchedRoom) (count : nat)
    (secs : list Scheduler.SchedSection) (i : nat) :
  nth_error (Scheduler.assignSlots timeSlots room count secs) i
  = option_map (fun sec => {| Scheduler.room := room;
                              Scheduler.section := sec;
                              Scheduler.slot := nth_error timeSlots (count + i) |})
               (nth_error secs i).
Proof.
  revert count i; induction secs as [|sec secs IH]; intros count [|i];
    cbn [Scheduler.assignSlots nth_error option_map]; try reflexivity.
  - now rewrite Nat.add_0_r.
  - rewrite IH. now rewrite Nat.add_succ_r.
Qed.

Lemma assignSlots_sections (timeSlots : list Scheduler.TimeSlot)
    (room : Scheduler.SchedRoom) (count : nat)
    (secs : list Scheduler.SchedSection) :
  map Scheduler.section (Scheduler.assignSlots timeSlots room count secs) = secs.
Proof.
  revert count; induction secs as [|sec secs IH]; intros count;
    cbn [Scheduler.assignSlots map]; [reflexivity |].
  now rewrite IH.
Qed.

Lemma StronglySorted_firstn {A : Type} (R : A -> A -> Prop) (n : nat) (l : list A) :
  StronglySorted R l -> StronglySorted R (firstn n l).
Proof.
  intros H. revert n. induction H as [|x l Hl IH Hx]; intros [|n];
    cbn [firstn]; try constructor.
  - apply IH.
  - rewrite Forall_forall in *. intros y Hy. apply Hx.
    rewrite <- (firstn_skipn n l). apply in_or_app. now left.
Qed.

Lemma StronglySorted_split {A : Type} (R : A -> A -> Prop) (n : nat) (l : list A) :
  StronglySorted R l ->
  forall x y, In x (firstn n l) -> In y (skipn n l) -> R x y.
Proof.
  intros H. revert n. induction H as [|z l Hl IH Hz]; intros [|n] x y;
    cbn [firstn skipn]; try contradiction.
  intros [<- | Hx] Hy.
  - rewrite Forall_forall in Hz. apply Hz.
    rewrite <- (firstn_skipn n l). apply in_or_app. now right.
  - now apply (IH n).
Qed.

(** X17.  The plans [findBestRoomPlans] proposes for a room, whatever the
    rounding of the host's addition, when neither the seats of the room nor
    the size of a section is [NaN] (with a [NaN] the comparator is no
    ordering and the host's sort is free in what it returns).  All plans
    are for that room; there are as many as the table has slots, or as
    there are sections with fewer students than the room has seats when
    these are fewer; their sections are taken among the choices in the
    order of their sizes, each with strictly fewer students than seats, and
    no fitting section that is left out is smaller than one that is taken;
    the plan at position [i] has the slot at position [i] of the table. *)
Theorem findBestRoomPlans_plans
    (add : Scheduler.number -> Scheduler.number -> Scheduler.number)
    (slotSize : nat) (timeSlots : list Scheduler.TimeSlot)
    (room : Scheduler.SchedRoom) (secChoices : list Scheduler.SchedSection) :
  Scheduler.rooms_seats room <> Scheduler.NaN ->
  Forall (fun sec => Scheduler.secSize add sec <> Scheduler.NaN) secChoices ->
  let plans := Scheduler.findBestRoomPlans add slotSize timeSlots room secChoices in
  let smaller := fun a b =>
    Scheduler.number_le (Scheduler.secSize add a) (Scheduler.secSize add b) = true in
  let fits := fun sec =>
    Scheduler.number_gt (Scheduler.rooms_seats room) (Scheduler.secSize add sec) in
  List.length plans = Nat.min slotSize (List.length (filter fits secChoices)) /\
  Forall (fun p => Scheduler.room p = room /\
                   In (Scheduler.section p) secChoices /\
                   fits (Scheduler.section p) = true) plans /\
  StronglySorted smaller (map Scheduler.section plans) /\
  (exists rest,
     Permutation (filter fits secChoices) (map Scheduler.section plans ++ rest) /\
     forall p sec, In p plans -> In sec rest -> smaller (Scheduler.section p) sec) /\
  (forall i p, nth_error plans i = Some p ->
               Scheduler.slot p = nth_error timeSlots i).
Proof.
  intros Hseats Hsizes plans smaller fits.
  set (sorted := sort_by (Scheduler.bySize add) secChoices).
  set (keep := fun sec => negb (Scheduler.canFitIn add room sec)).
  assert (Hsame : Permutation secChoices sorted).
  { apply sort_by_Permutation. }
  assert (Hkeep : forall sec, In sec sorted -> keep sec = fits sec).
  { intros sec Hin. unfold keep, fits, Scheduler.canFitIn.
    symmetry. apply number_gt_le; [exact Hseats |].
    rewrite Forall_forall in Hsizes. apply Hsizes.
    now apply (Permutation_in _ (Permutation_sym Hsame)). }
  assert (Hfilter : filter keep sorted = filter fits sorted).
  { clear -Hkeep. induction sorted as [|x l IH]; [reflexivity |].
    cbn [filter]. rewrite (Hkeep x (or_introl eq_refl)).
    rewrite IH; [reflexivity |]. intros sec Hin. apply Hkeep. now right. }
  assert (Hperm : Permutation (filter fits secChoices) (filter keep sorted)).
  { rewrite Hfilter. now apply filter_Permutation. }
  assert (Hsorted : StronglySorted smaller (filter keep sorted)).
  { apply StronglySorted_filter.
    apply (sort_by_Sorted (Scheduler.bySize add)
             (fun sec => Scheduler.secSize add sec <> Scheduler.NaN) smaller).
    - intros x y z. unfold smaller. apply number_le_trans.
    - intros x y Hx Hy. now apply bySize_le.
    - exact Hsizes. }
  assert (Hsec : map Scheduler.section plans = firstn slotSize (filter keep sorted)).
  { apply assignSlots_sections. }
  split; [|split; [|split; [|split]]].
  - rewrite <- (length_map Scheduler.section), Hsec, length_firstn.
    now rewrite (Permutation_length Hperm).
  - rewrite Forall_forall. intros p Hp.
    destruct (In_nth_error _ _ Hp) as (i & Hi).
    unfold plans, Scheduler.findBestRoomPlans in Hi.
    rewrite assignSlots_nth in Hi. fold sorted keep in Hi.
    destruct (nth_error (firstn slotSize (filter keep sorted)) i) as [sec|] eqn:E;
      [|discriminate].
    injection Hi as <-. cbn [Scheduler.room Scheduler.section].
    apply nth_error_In in E.
    assert (Hin : In sec (filter keep sorted)).
    { rewrite <- (firstn_skipn slotSize (filter keep sorted)).
      apply in_or_app. now left. }
    apply filter_In in Hin. destruct Hin as [Hin Hk].
    split; [reflexivity |]. split.
    + now apply (Permutation_in _ (Permutation_sym Hsame)).
    + now rewrite <- (Hkeep sec Hin).
  - rewrite Hsec. now apply StronglySorted_firstn.
  - exists (skipn slotSize (filter keep sorted)). split.
    + rewrite Hsec, firstn_skipn. exact Hperm.
    + intros p sec Hp Hs.
      apply (StronglySorted_split _ slotSize _ Hsorted); [|exact Hs].
      rewrite <- Hsec. now apply in_map.
  - intros i p Hi. unfold plans, Scheduler.findBestRoomPlans in Hi.
    rewrite assignSlots_nth in Hi.
    destruct (nth_error _ i); [|discriminate].
    now injection Hi as <-.
Qed.

Lemma same_slot_eq (a b : option Scheduler.TimeSlot) :
  Scheduler.same_slot a b = true <-> a = b.
Proof.
  destruct a as [x|], b as [y|]; cbn; split; try congruence; try discriminate.
  - intros H. apply String.eqb_eq in H. now subst.
  - intros H. injection H as ->. apply String.eqb_refl.
Qed.

Lemma clash_spec (p1 p2 : Scheduler.Plan) :
  Scheduler.clash p1 p2 = true <->
  Scheduler.slot p1 = Scheduler.slot p2 /\
  Scheduler.courses_dept (Scheduler.section p1)
  = Scheduler.courses_dept (Scheduler.section p2) /\
  Scheduler.courses_id (Scheduler.section p1)
  = Scheduler.courses_id (Scheduler.section p2).
Proof.
  unfold Scheduler.clash.
  rewrite !andb_true_iff, same_slot_eq, !String.eqb_eq. tauto.
Qed.

Lemma hasConflict_inner_false (p1 : Scheduler.Plan) (plans2 : list Scheduler.Plan) :
  Scheduler.hasConflict_inner p1 plans2 = false <->
  exists p2, In p2 plans2 /\ Scheduler.clash p1 p2 = true.
Proof.
  induction plans2 as [|p2 rest IH]; cbn [Scheduler.hasConflict_inner].
  - split; [discriminate | intros (? & [] & _)].
  - destruct (Scheduler.clash p1 p2) eqn:E.
    + split; [|reflexivity]. intros _. exists p2. split; [now left | exact E].
    + rewrite IH. split.
      * intros (q & Hq & Hc). exists q. split; [now right | exact Hc].
      * intros (q & [<- | Hq] & Hc); [congruence |]. now exists q.
Qed.

Lemma hasConflict_false (plans1 plans2 : list Scheduler.Plan) :
  Scheduler.hasConflict plans1 plans2 = false <->
  exists p1 p2, In p1 plans1 /\ In p2 plans2 /\ Scheduler.clash p1 p2 = true.
Proof.
  induction plans1 as [|p1 rest IH]; cbn [Scheduler.hasConflict].
  - split; [discriminate | intros (? & ? & [] & _)].
  - destruct (Scheduler.hasConflict_inner p1 plans2) eqn:E.
    + rewrite IH. split.
      * intros (q1 & q2 & H1 & H2 & Hc). exists q1, q2. repeat split; auto.
        now right.
      * intros (q1 & q2 & [<- | H1] & H2 & Hc).
        -- assert (F : Scheduler.hasConflict_inner p1 plans2 = false).
           { apply hasConflict_inner_false. now exists q2. }
           congruence.
        -- now exists q1, q2.
    + split; [|reflexivity]. intros _.
      apply hasConflict_inner_false in E. destruct E as (q2 & H2 & Hc).
      exists p1, q2. repeat split; auto. now left.
Qed.

(** X18.  [hasConflict] answers [false] exactly when a plan of the first
    room and a plan of the second have the same slot for sections of the
    same department and course id, and [true] when no two plans do: the
    answer is the opposite of what the name says.  It does not depend on
    the order of the two rooms. *)
Theorem hasConflict_answer (plans1 plans2 : list Scheduler.Plan) :
  (Scheduler.hasConflict plans1 plans2 = false <->
   exists p1 p2,
     In p1 plans1 /\ In p2 plans2 /\
     Scheduler.slot p1 = Scheduler.slot p2 /\
     Scheduler.courses_dept (Scheduler.section p1)
     = Scheduler.courses_dept (Scheduler.section p2) /\
     Scheduler.courses_id (Scheduler.section p1)
     = Scheduler.courses_id (Scheduler.section p2)) /\
  Scheduler.hasConflict plans1 plans2 = Scheduler.hasConflict plans2 plans1.
Proof.
  split.
  - rewrite hasConflict_false. split.
    + intros (p1 & p2 & H1 & H2 & Hc). exists p1, p2.
      apply clash_spec in Hc. tauto.
    + intros (p1 & p2 & H1 & H2 & Hc). exists p1, p2.
      repeat split; auto. apply clash_spec. tauto.
  - destruct (Scheduler.hasConflict plans1 plans2) eqn:E1,
             (Scheduler.hasConflict plans2 plans1) eqn:E2; try reflexivity.
    + apply hasConflict_false in E2. destruct E2 as (p2 & p1 & H2 & H1 & Hc).
      assert (F : Scheduler.hasConflict plans1 plans2 = false).
      { apply hasConflict_false. exists p1, p2. repeat split; auto.
        apply clash_spec. apply clash_spec in Hc.
        destruct Hc as (-> & -> & ->). auto. }
      congruence.
    + apply hasConflict_false in E1. destruct E1 as (p1 & p2 & H1 & H2 & Hc).
      assert (F : Scheduler.hasConflict plans2 plans1 = false).
      { apply hasConflict_false. exists p2, p1. repeat split; auto.
        apply clash_spec. apply clash_spec in Hc.
        destruct Hc as (-> & -> & ->). auto. }
      congruence.
Qed.

(** ** Server *)

Lemma split_single (sep : ascii) (s h : string) :
  split sep s = [h] -> s = h.
Proof.
  revert h; induction s as [|c s IH]; intros h; cbn [split].
  - now intros [= <-].
  - destruct (split_cons sep s) as (h' & t & E). rewrite E.
    destruct (Ascii.eqb c sep); [discriminate |].
    intros [= <- ->]. now rewrite (IH h' E).
Qed.

Lemma last_split (sep : ascii) (s : string) :
  includes_char sep (List.last (split sep s) "") = false /\
  (s = List.last (split sep s) "" \/
   exists dir, s = (dir ++ String sep (List.last (split sep s) ""))%string).
Proof.
  induction s as [|c s IH]; [split; [reflexivity | now left] |].
  destruct IH as [IH1 IH2]. cbn [split].
  destruct (split_cons sep s) as (h & t & E). rewrite E in *.
  destruct (Ascii.eqb c sep) eqn:Ec.
  - apply Ascii.eqb_eq in Ec. subst c.
    change (List.last ("" :: h :: t) "") with (List.last (h :: t) "").
    split; [exact IH1 |]. right.
    destruct IH2 as [IH2 | (dir & IH2)].
    + exists "". cbn [append]. now rewrite <- IH2.
    + exists (String sep dir). cbn [append]. now rewrite <- IH2.
  - destruct t as [|h' t].
    + cbn [List.last] in *. split.
      * cbn [includes_char]. rewrite Ascii.eqb_sym, Ec. exact IH1.
      * left. now rewrite (split_single sep s h E).
    + change (List.last (String c h :: h' :: t) "") with (List.last (h' :: t) "").
      change (List.last (h :: h' :: t) "") with (List.last (h' :: t) "") in *.
      split; [exact IH1 |]. right.
      destruct IH2 as [IH2 | (dir & IH2)].
      * exfalso.
        assert (F : split sep s = [s]) by (apply split_none; now rewrite IH2).
        rewrite E in F. discriminate.
      * exists (String c dir). cbn [append]. now rewrite <- IH2.
Qed.

(** X19.  The file [getStatic] reads is [index.html] for the root, and
    otherwise the text after the last slash of the requested url, taken
    directly in the public directory: the name has no slash, whatever
    directories the url goes through. *)
Theorem getStatic_path (url : string) :
  exists name,
    Server.staticPath url = (Server.publicDir ++ name)%string /\
    includes_char "/" name = false /\
    (url = "/"%string /\ name = "index.html"%string \/
     url <> "/"%string /\
     (url = name \/ exists dir, url = (dir ++ "/" ++ name)%string)).
Proof.
  unfold Server.staticPath, Server.pop.
  destruct (String.eqb_spec url "/") as [-> | Hne]; cbn [negb].
  - exists "index.html"%string. repeat split. now left.
  - exists (List.last (split "/" url) "").
    destruct (last_split "/" url) as [H1 H2].
    split; [reflexivity |]. split; [exact H1 |]. right. split; [exact Hne |].
    exact H2.
Qed.

(** X20.  The status [deleteDataset] answers: 400 for an id that
    [isIdValid] refuses, 404 for a valid id that is not in the registry, 200
    with the id otherwise.  That the registry throws a [NotFoundError] for
    an id it lacks is [Datasets.removeDataset], modelled from the
    specification. *)
Theorem deleteDataset_status (toString : error -> string)
    (datasets : Datasets.t) (id : string) :
  let answer := Server.respondDelete toString (fst (removeDataset datasets id)) in
  (isIdValid (Str id) = false -> fst answer = 400) /\
  (isIdValid (Str id) = true ->
   Datasets.containsDataset datasets id = false -> fst answer = 404) /\
  (isIdValid (Str id) = true ->
   Datasets.containsDataset datasets id = true -> answer = (200, inl id)).
Proof.
  unfold removeDataset, Datasets.removeDataset.
  destruct (isIdValid (Str id)), (Datasets.containsDataset datasets id);
    cbn; repeat split; intros; try discriminate; reflexivity.
Qed.

(** ** Instances of the properties that have a precondition *)

Lemma findCourses_filter_shape_witness :
  findCourses plain_host loaded
    (Obj [("NOT", comparison "GT" "courses_avg" (Num (inject_Z 80)))]) "courses"
  = Ok [1] /\
  filter_shape "courses"
    (Obj [("NOT", comparison "GT" "courses_avg" (Num (inject_Z 80)))]).
Proof.
  split; [reflexivity |].
  apply (findCourses_filter_shape plain_host loaded "courses" _ [1]).
  reflexivity.
Defined.

Lemma addDataset_rejection_witness :
  fst (addDataset one_section loaded "courses" "content" Courses)
  = Err (InsightError "Cannot add with duplicated id") /\
  (exists m, InsightError "Cannot add with duplicated id" = InsightError m) /\
  snd (addDataset one_section loaded "courses" "content" Courses) = loaded.
Proof.
  split; [reflexivity |].
  apply (addDataset_rejection one_section loaded "courses" "content" Courses).
  reflexivity.
Defined.


Lemma populated_loaded : populated loaded.
Proof. repeat constructor. discriminate. Qed.

Lemma listDatasets_after_addDataset_witness :
  populated [("courses", courses); ("more", [section "cpsc" 90])] /\
  exists entries added,
    listDatasets loaded = Ok entries /\
    listDatasets [("courses", courses); ("more", [section "cpsc" 90])]
    = Ok (entries ++ [added]) /\
    InsightDataset.id added = "more"%string /\
    0 < InsightDataset.numRows added.
Proof.
  apply (listDatasets_after_addDataset one_section loaded _ "more" "content"
           Courses ["courses"; "more"]%string populated_loaded).
  reflexivity.
Defined.

Lemma well_kept_loaded : well_kept loaded.
Proof.
  split.
  - repeat constructor. intros [].
  - repeat constructor. discriminate.
Qed.

Lemma registry_well_kept_witness :
  well_kept (snd (addDataset one_section loaded "more" "content" Courses)) /\
  well_kept (snd (removeDataset loaded "more")).
Proof.
  apply (registry_well_kept one_section loaded "more" "content" Courses
           well_kept_loaded).
Defined.

Lemma performQuery_query_shape_witness :
  exists where_ options,
    query_of (Obj []) ["courses_dept"]%string None
    = Obj [("WHERE", where_); ("OPTIONS", options)] \/
    query_of (Obj []) ["courses_dept"]%string None
    = Obj [("OPTIONS", options); ("WHERE", where_)].
Proof.
  apply (performQuery_query_shape plain_host loaded _
           [[("courses_dept", SStr "math")]; [("courses_dept", SStr "cxsc")];
            [("courses_dept", SStr "cpsc")]]).
  vm_compute. reflexivity.
Defined.

Lemma performQuery_rejections_witness :
  performQuery plain_host loaded (query_of (Obj []) ["rooms_name"]%string None)
  = Err (InsightError "Dataset not exists") /\
  ((exists m, InsightError "Dataset not exists" = InsightError m) \/
   InsightError "Dataset not exists" = ResultTooLargeError \/
   (exists m, InsightError "Dataset not exists" = TypeError m)).
Proof.
  split; [vm_compute; reflexivity |].
  apply (performQuery_rejections plain_host loaded
           (query_of (Obj []) ["rooms_name"]%string None)).
  vm_compute. reflexivity.
Defined.

Lemma selectColumns_projects_witness :
  Forall2 (fun course row =>
             exists r,
               nth_error courses course = Some r /\
               NoDup (record_keys row) /\
               (forall k, In k (record_keys row)
                          <-> In k ["courses_dept"; "courses_avg"]%string) /\
               (forall k, In k ["courses_dept"; "courses_avg"]%string ->
                          field row k = field r (part 1 k) /\
                          field row k <> None))
          [2; 0]
          [[("courses_dept", SStr "cpsc"); ("courses_avg", SNum (inject_Z 90))];
           [("courses_dept", SStr "math"); ("courses_avg", SNum (inject_Z 95))]].
Proof.
  apply (selectColumns_projects plain_host loaded "courses" courses [2; 0]
           ["courses_dept"; "courses_avg"]%string);
    [reflexivity | discriminate | reflexivity].
Defined.

Lemma number_comparison_selects_witness :
  exists s,
    findCourses plain_host loaded
      (comparison "GT" "courses_avg" (Num (inject_Z 80))) "courses" = Ok s /\
    StronglySorted Nat.lt s /\
    forall i, In i s <->
      exists r x, nth_error courses i = Some r /\
                  field r (part 1 "courses_avg") = Some (SNum x) /\
                  relation_of "GT" x (inject_Z 80).
Proof.
  apply (number_comparison_selects plain_host loaded "courses" "courses_avg" "GT"
           (inject_Z 80) courses).
  - reflexivity.
  - discriminate.
  - repeat constructor; eexists; reflexivity.
  - reflexivity.
  - reflexivity.
  - simpl. tauto.
Defined.

Lemma string_comparison_selects_witness :
  exists s,
    findCourses plain_host loaded
      (comparison "IS" "courses_dept" (Str "cpsc")) "courses" = Ok s /\
    StronglySorted Nat.lt s /\
    forall i, In i s <->
      exists r, nth_error courses i = Some r /\
                field r (part 1 "courses_dept") = Some (SStr "cpsc").
Proof.
  apply (string_comparison_selects plain_host loaded "courses" "courses_dept"
           "cpsc" courses (section "math" 95)); reflexivity.
Defined.

Lemma findBestRoomPlans_plans_witness :
  let plans :=
    Scheduler.findBestRoomPlans exact_add 3 ["MWF 0800"; "MWF 0900"]%string
                                (lecture_room 100) choices in
  let smaller := fun a b =>
    Scheduler.number_le (Scheduler.secSize exact_add a)
                        (Scheduler.secSize exact_add b) = true in
  let fits := fun sec =>
    Scheduler.number_gt (Scheduler.rooms_seats (lecture_room 100))
                        (Scheduler.secSize exact_add sec) in
  List.length plans = Nat.min 3 (List.length (filter fits choices)) /\
  Forall (fun p => Scheduler.room p = lecture_room 100 /\
                   In (Scheduler.section p) choices /\
                   fits (Scheduler.section p) = true) plans /\
  StronglySorted smaller (map Scheduler.section plans) /\
  (exists rest,
     Permutation (filter fits choices) (map Scheduler.section plans ++ rest) /\
     forall p sec, In p plans -> In sec rest -> smaller (Scheduler.section p) sec) /\
  (forall i p, nth_error plans i = Some p ->
               Scheduler.slot p = nth_error ["MWF 0800"; "MWF 0900"]%string i).
Proof.
  apply (findBestRoomPlans_plans exact_add 3 ["MWF 0800"; "MWF 0900"]%string
           (lecture_room 100) choices).
  - discriminate.
  - repeat constructor; discriminate.
Defined.

(** The section that fills the room is left out like the one that exceeds
    it; the two smaller ones are planned, the smallest first. *)
Example findBestRoomPlans_sample :
  Scheduler.findBestRoomPlans exact_add 3 ["MWF 0800"; "MWF 0900"]%string
                              (lecture_room 100) choices
  = [ {| Scheduler.room := lecture_room 100;
         Scheduler.section := enrolled "210" 30 8 2;
         Scheduler.slot := Some "MWF 0800"%string |};
      {| Scheduler.room := lecture_room 100;
         Scheduler.section := enrolled "410" 50 9 1;
         Scheduler.slot := Some "MWF 0900"%string |} ].
Proof. reflexivity. Qed.

(** Where the addition of the host rounds: 2^53 + 1 is 2^53, so that a
    section of 2^53, 1 and 1 students has the size 2^53 and is planned in a
    room of 2^53 + 2 seats. *)
Example findBestRoomPlans_rounding
    (add : Scheduler.number -> Scheduler.number -> Scheduler.number) :
  add (Scheduler.Finite (inject_Z 9007199254740992))
      (Scheduler.Finite (inject_Z 1))
  = Scheduler.Finite (inject_Z 9007199254740992) ->
  Scheduler.findBestRoomPlans add 1 ["MWF 0800"]%string
    (lecture_room 9007199254740994) [enrolled "110" 9007199254740992 1 1]
  = [ {| Scheduler.room := lecture_room 9007199254740994;
         Scheduler.section := enrolled "110" 9007199254740992 1 1;
         Scheduler.slot := Some "MWF 0800"%string |} ].
Proof.
  intros H. unfold Scheduler.findBestRoomPlans.
  cbn [sort_by insert_by filter].
  unfold Scheduler.canFitIn, Scheduler.secSize.
  cbn [enrolled Scheduler.courses_pass Scheduler.courses_fail
       Scheduler.courses_audit]. rewrite !H.
  reflexivity.
Qed.
